(** * Call-signaling core of the web calling client

    A shallow embedding of [src/lib/webrtc-service.ts] (the service module
    holding the single "current call" in module-level variables), of the
    call handler and the time display of [src/app/page.tsx], and of
    [getUserDisplayName] of [src/lib/users-api.ts].

    - The module-level [let] variables become the fields of [Service].
    - Every function of the service is a computation in the monad [M]:
      it reads and writes the [Service], may complete abruptly with a
      JavaScript [Error], and emits the list of externally visible
      [Effect]s it performed (engine operations, relay requests, UI
      callbacks, timers), in program order.
    - The browser's [RTCPeerConnection] is an external engine.  The service
      observes only [signalingState], [remoteDescription] and
      [localDescription]; whether the engine accepts an operation is left
      to an [Engine] oracle.
    - An event handler runs from its start to its end without another
      handler in between (one event-loop task); the polling loop, which
      sleeps between iterations, takes what happened during each sleep as
      an explicit input.  The dial and [answerCall] are followed through
      their awaits with no other handler in between.  One ['answer']
      event has two listeners; for it the two are also given up to their
      first [await], which is how far each runs before the other
      starts.
    - The functions that also answer, send or mute ([answerCall],
      [sendAnswerToBackend], [sendIceCandidate], [toggleMute], the
      temporary listener of [waitForAnswer]) are computations in [MX],
      the same monad over the wider effect type [Action]. *)

From Stdlib Require Import String List ZArith Bool Lia Arith.
From Stdlib Require DecimalString.
Import ListNotations.
Open Scope string_scope.
Open Scope Z_scope.
Open Scope list_scope.

(* ================================================================== *)
(** ** Data *)

(** [export type CallState]. *)
Inductive CallState : Type :=
| idle | calling | ringing | answered | ended | rejected.

Definition CallState_eqb (a b : CallState) : bool :=
  match a, b with
  | idle, idle | calling, calling | ringing, ringing
  | answered, answered | ended, ended | rejected, rejected => true
  | _, _ => false
  end.

(** [RTCSignalingState] of the engine. *)
Inductive SignalingState : Type :=
| stable | have_local_offer | have_remote_offer
| have_local_pranswer | have_remote_pranswer | closed.

(** [RTCSdpType]. *)
Inductive SdpType : Type := sdp_offer | sdp_pranswer | sdp_answer | sdp_rollback.

(** [RTCSessionDescriptionInit]: [{ type, sdp? }]. *)
Record SessionDescription : Type := mkSD {
  sd_type : SdpType;
  sd_sdp : option string
}.

(** What the service can observe of an [RTCPeerConnection].  [pc_id] is
    the identity of the object ([currentPc === pc] compares identities). *)
Record PeerConnection : Type := mkPC {
  pc_id : nat;
  signalingState : SignalingState;
  remoteDescription : option SessionDescription;
  localDescription : option SessionDescription
}.

(** An [RTCIceCandidateInit], opaque to the service. *)
Definition IceCandidate : Type := string.

(** Payload of the socket event ['ice-candidate'], which is also the type
    of the entries of [queuedIceCandidates].  The candidate is [None] for
    the end-of-gathering signal. *)
Record IceCandidateMsg : Type := mkIce {
  ice_callId : string;
  ice_candidate : option IceCandidate;
  ice_fromDeviceId : string
}.

(** Payload of the socket event ['answer']. *)
Record AnswerMsg : Type := mkAnswer {
  ans_callId : string;
  ans_answer : SessionDescription;
  ans_fromDeviceId : string
}.

(** Payload of the socket event ['call-state']. *)
Record CallStateMsg : Type := mkCallStateMsg {
  cs_callId : string;
  cs_state : string;
  cs_direction : string;
  cs_peerDeviceId : option string;
  cs_callerName : option string;
  cs_fromLoyaltyId : option string
}.

(** A JavaScript [Error] with its [message]. *)
Inductive JsError : Type := Error (message : string).

(** The timer callbacks the service schedules with [setTimeout]. *)
Inductive TimerAction : Type :=
| ResetAfterReject   (* the arrow function at the end of [rejectCall] *)
| AnswerTimeout.     (* the 30 s timeout of [waitForAnswer] *)

(** The [alert(...)] texts of the call handler of [page.tsx], in source
    order; the two that append an error message carry it. *)
Inductive AlertMsg : Type :=
| AlertNotAuthorized
| AlertNoLoyaltyId
| AlertInitFailed (msg : string)
| AlertSelfCall
| AlertPeerUnreachable
| AlertCallFailed (msg : string).

(** Externally visible actions, in the order the code performs them. *)
Inductive Effect : Type :=
| CbCallStateChange (st : CallState) (name : option string)
| CbCallActiveChange (isActive : bool) (startedAt : option Z)
| EngineSetRemoteDescription (pcid : nat) (d : SessionDescription)
| EngineSetLocalDescription (pcid : nat) (d : SessionDescription)
| EngineCreateOffer (pcid : nat)
| EngineAddIceCandidate (pcid : nat) (c : IceCandidate)
| EngineClose (pcid : nat)
| EngineNew (pcid : nat)
| MediaAcquire (stream : nat)
| MediaStop (stream : nat)
| RelayCreateCall (callId fromDeviceId fromLoyaltyId toLoyaltyId : string)
| RelayPoll (callId : string)
| RelayEnd (callId deviceId : string) (reason : option string)
| RelayRegisterDevice (deviceId loyaltyId : string)
| SocketOpen
| Sleep (ms : Z)
| SetTimeout (ms : Z) (action : TimerAction)
| UiAlert (a : AlertMsg)
| UiNavigate (path : string)
| UiSetCurrentLoyaltyId (loyaltyId : string).

(** The module-level variables of [webrtc-service.ts].  A callback
    variable is [true] when a callback is registered ([?.] calls it only
    then). *)
Record Service : Type := mkService {
  pc : option PeerConnection;
  localStream : option nat;
  remoteStream : option nat;
  activeCallUUID : option string;
  currentLoyaltyId : option string;
  currentDeviceId : option string;
  socket : option bool;              (* [Some connected] once created *)
  activeCallStartedAt : option Z;
  isVoipInitialized : bool;
  currentCallState : CallState;
  callerName : option string;
  isMuted : bool;
  isSpeakerEnabled : bool;
  queuedIceCandidates : list IceCandidateMsg;
  onCallStateChange : bool;
  onCallActiveChange : bool
}.

(** Values of the variables when the module is loaded. *)
Definition initialService : Service :=
  mkService None None None None None None None None false idle None
            false false [] false false.

(** *** Field updates *)

Definition set_pc (v : option PeerConnection) (s : Service) : Service :=
  mkService v (localStream s) (remoteStream s) (activeCallUUID s)
    (currentLoyaltyId s) (currentDeviceId s) (socket s)
    (activeCallStartedAt s) (isVoipInitialized s) (currentCallState s)
    (callerName s) (isMuted s) (isSpeakerEnabled s) (queuedIceCandidates s)
    (onCallStateChange s) (onCallActiveChange s).

Definition set_localStream (v : option nat) (s : Service) : Service :=
  mkService (pc s) v (remoteStream s) (activeCallUUID s)
    (currentLoyaltyId s) (currentDeviceId s) (socket s)
    (activeCallStartedAt s) (isVoipInitialized s) (currentCallState s)
    (callerName s) (isMuted s) (isSpeakerEnabled s) (queuedIceCandidates s)
    (onCallStateChange s) (onCallActiveChange s).

Definition set_remoteStream (v : option nat) (s : Service) : Service :=
  mkService (pc s) (localStream s) v (activeCallUUID s)
    (currentLoyaltyId s) (currentDeviceId s) (socket s)
    (activeCallStartedAt s) (isVoipInitialized s) (currentCallState s)
    (callerName s) (isMuted s) (isSpeakerEnabled s) (queuedIceCandidates s)
    (onCallStateChange s) (onCallActiveChange s).

Definition set_activeCallUUID (v : option string) (s : Service) : Service :=
  mkService (pc s) (localStream s) (remoteStream s) v
    (currentLoyaltyId s) (currentDeviceId s) (socket s)
    (activeCallStartedAt s) (isVoipInitialized s) (currentCallState s)
    (callerName s) (isMuted s) (isSpeakerEnabled s) (queuedIceCandidates s)
    (onCallStateChange s) (onCallActiveChange s).

Definition set_currentLoyaltyId (v : option string) (s : Service) : Service :=
  mkService (pc s) (localStream s) (remoteStream s) (activeCallUUID s)
    v (currentDeviceId s) (socket s)
    (activeCallStartedAt s) (isVoipInitialized s) (currentCallState s)
    (callerName s) (isMuted s) (isSpeakerEnabled s) (queuedIceCandidates s)
    (onCallStateChange s) (onCallActiveChange s).

Definition set_currentDeviceId (v : option string) (s : Service) : Service :=
  mkService (pc s) (localStream s) (remoteStream s) (activeCallUUID s)
    (currentLoyaltyId s) v (socket s)
    (activeCallStartedAt s) (isVoipInitialized s) (currentCallState s)
    (callerName s) (isMuted s) (isSpeakerEnabled s) (queuedIceCandidates s)
    (onCallStateChange s) (onCallActiveChange s).

Definition set_socket (v : option bool) (s : Service) : Service :=
  mkService (pc s) (localStream s) (remoteStream s) (activeCallUUID s)
    (currentLoyaltyId s) (currentDeviceId s) v
    (activeCallStartedAt s) (isVoipInitialized s) (currentCallState s)
    (callerName s) (isMuted s) (isSpeakerEnabled s) (queuedIceCandidates s)
    (onCallStateChange s) (onCallActiveChange s).

Definition set_activeCallStartedAt (v : option Z) (s : Service) : Service :=
  mkService (pc s) (localStream s) (remoteStream s) (activeCallUUID s)
    (currentLoyaltyId s) (currentDeviceId s) (socket s)
    v (isVoipInitialized s) (currentCallState s)
    (callerName s) (isMuted s) (isSpeakerEnabled s) (queuedIceCandidates s)
    (onCallStateChange s) (onCallActiveChange s).

Definition set_isVoipInitialized (v : bool) (s : Service) : Service :=
  mkService (pc s) (localStream s) (remoteStream s) (activeCallUUID s)
    (currentLoyaltyId s) (currentDeviceId s) (socket s)
    (activeCallStartedAt s) v (currentCallState s)
    (callerName s) (isMuted s) (isSpeakerEnabled s) (queuedIceCandidates s)
    (onCallStateChange s) (onCallActiveChange s).

Definition set_currentCallState (v : CallState) (s : Service) : Service :=
  mkService (pc s) (localStream s) (remoteStream s) (activeCallUUID s)
    (currentLoyaltyId s) (currentDeviceId s) (socket s)
    (activeCallStartedAt s) (isVoipInitialized s) v
    (callerName s) (isMuted s) (isSpeakerEnabled s) (queuedIceCandidates s)
    (onCallStateChange s) (onCallActiveChange s).

Definition set_callerName (v : option string) (s : Service) : Service :=
  mkService (pc s) (localStream s) (remoteStream s) (activeCallUUID s)
    (currentLoyaltyId s) (currentDeviceId s) (socket s)
    (activeCallStartedAt s) (isVoipInitialized s) (currentCallState s)
    v (isMuted s) (isSpeakerEnabled s) (queuedIceCandidates s)
    (onCallStateChange s) (onCallActiveChange s).

Definition set_queuedIceCandidates (v : list IceCandidateMsg) (s : Service)
  : Service :=
  mkService (pc s) (localStream s) (remoteStream s) (activeCallUUID s)
    (currentLoyaltyId s) (currentDeviceId s) (socket s)
    (activeCallStartedAt s) (isVoipInitialized s) (currentCallState s)
    (callerName s) (isMuted s) (isSpeakerEnabled s) v
    (onCallStateChange s) (onCallActiveChange s).

(* ================================================================== *)
(** ** JavaScript tests on values *)

(** Truthiness of a [string | null]: [null] and [''] are falsy. *)
Definition truthy_str (o : option string) : bool :=
  match o with
  | Some s => negb (s =? "")%string
  | None => false
  end.

(** Truthiness of a [number | null]: [null] and [0] are falsy. *)
Definition truthy_num (o : option Z) : bool :=
  match o with
  | Some n => negb (n =? 0)
  | None => false
  end.

(** Truthiness of an object reference or [null]. *)
Definition truthy_obj {A : Type} (o : option A) : bool :=
  match o with Some _ => true | None => false end.

(** [v === str] for [v : string | null]. *)
Definition strict_eq (v : option string) (str : string) : bool :=
  match v with
  | Some a => (a =? str)%string
  | None => false
  end.

(** [s.includes(sub)]. *)
Definition includes (s sub : string) : bool :=
  match String.index 0 sub s with
  | Some _ => true
  | None => false
  end.

(** [e.message]. *)
Definition message_of (e : JsError) : string :=
  match e with Error m => m end.

(** [e?.message || fallback]. *)
Definition message_or (fallback : string) (e : JsError) : string :=
  if (message_of e =? "")%string then fallback else message_of e.

(** [e?.message || String(e)]; [String(e)] is ["Error"] for an [Error]
    whose message is empty. *)
Definition errorMsg (e : JsError) : string := message_or "Error" e.

(** The test the service uses to recognise an engine "wrong state"
    rejection from the text of the error. *)
Definition isWrongStateError (e : JsError) : bool :=
  includes (errorMsg e) "wrong state" ||
  includes (errorMsg e) "stable" ||
  includes (errorMsg e) "Called in wrong state".

Definition SignalingState_eqb (a b : SignalingState) : bool :=
  match a, b with
  | stable, stable | have_local_offer, have_local_offer
  | have_remote_offer, have_remote_offer
  | have_local_pranswer, have_local_pranswer
  | have_remote_pranswer, have_remote_pranswer | closed, closed => true
  | _, _ => false
  end.

(* ================================================================== *)
(** ** The monad of service computations *)

Inductive Completion (A : Type) : Type :=
| Normal (a : A)
| Throw (e : JsError).
Arguments Normal {A} a.
Arguments Throw {A} e.

Definition M (A : Type) : Type :=
  Service -> Completion A * Service * list Effect.

Definition ret {A : Type} (a : A) : M A := fun s => (Normal a, s, []).

Definition bind {A B : Type} (m : M A) (k : A -> M B) : M B :=
  fun s =>
    match m s with
    | (Normal a, s1, t1) =>
        match k a s1 with
        | (r, s2, t2) => (r, s2, t1 ++ t2)
        end
    | (Throw e, s1, t1) => (Throw e, s1, t1)
    end.

Definition throw {A : Type} (e : JsError) : M A := fun s => (Throw e, s, []).

(** [try { body } catch (e) { handler e }]. *)
Definition try_catch {A : Type} (body : M A) (handler : JsError -> M A) : M A :=
  fun s =>
    match body s with
    | (Normal a, s1, t1) => (Normal a, s1, t1)
    | (Throw e, s1, t1) =>
        match handler e s1 with
        | (r, s2, t2) => (r, s2, t1 ++ t2)
        end
    end.

Definition get : M Service := fun s => (Normal s, s, []).
Definition modify (f : Service -> Service) : M unit :=
  fun s => (Normal tt, f s, []).
Definition emit (e : Effect) : M unit := fun s => (Normal tt, s, [e]).

Declare Scope service_scope.
Delimit Scope service_scope with service.
Notation "x <- c1 ;; c2" := (bind c1 (fun x => c2))
  (at level 100, c1 at next level, right associativity) : service_scope.
Notation "c1 ;; c2" := (bind c1 (fun _ => c2))
  (at level 100, right associativity) : service_scope.
Open Scope service_scope.

(** [for (const x of xs) { body x }]. *)
Fixpoint for_each {A : Type} (xs : list A) (body : A -> M unit) : M unit :=
  match xs with
  | [] => ret tt
  | x :: rest => body x ;; for_each rest body
  end.

(** Projections of a run. *)
Definition result_of {A : Type} (r : Completion A * Service * list Effect)
  : Completion A := fst (fst r).
Definition state_of {A : Type} (r : Completion A * Service * list Effect)
  : Service := snd (fst r).
Definition effects_of {A : Type} (r : Completion A * Service * list Effect)
  : list Effect := snd r.

(** [onCallStateChange?.(state, name)] and [onCallActiveChange?.(...)]. *)
Definition callOnCallStateChange (st : CallState) (name : option string)
  : M unit :=
  s <- get ;;
  if onCallStateChange s then emit (CbCallStateChange st name) else ret tt.

Definition callOnCallActiveChange (isActive : bool) (startedAt : option Z)
  : M unit :=
  s <- get ;;
  if onCallActiveChange s then emit (CbCallActiveChange isActive startedAt)
  else ret tt.

(* ================================================================== *)
(** ** The external negotiation engine *)

(** Whether the engine accepts an operation is decided outside the
    service: [None] is success, [Some msg] is a rejection with the thrown
    error's message. *)
Record Engine : Type := mkEngine {
  setRemoteDescription_error :
    PeerConnection -> SessionDescription -> option string;
  addIceCandidate_error : PeerConnection -> IceCandidate -> option string
}.

(** What an accepted [setRemoteDescription] does to the observed
    properties (the JSEP state table). *)
Definition applyRemoteDescription (p : PeerConnection) (d : SessionDescription)
  : PeerConnection :=
  match sd_type d with
  | sdp_offer =>
      mkPC (pc_id p) have_remote_offer (Some d) (localDescription p)
  | sdp_pranswer =>
      mkPC (pc_id p) have_remote_pranswer (Some d) (localDescription p)
  | sdp_answer =>
      mkPC (pc_id p) stable (Some d) (localDescription p)
  | sdp_rollback =>
      mkPC (pc_id p) stable None (localDescription p)
  end.

Section WithEngine.

Context (E : Engine).

(** [await pc.setRemoteDescription(new RTCSessionDescription(d))]. *)
Definition setRemoteDescription (p : PeerConnection) (d : SessionDescription)
  : M unit :=
  emit (EngineSetRemoteDescription (pc_id p) d) ;;
  match setRemoteDescription_error E p d with
  | Some msg => throw (Error msg)
  | None => modify (set_pc (Some (applyRemoteDescription p d)))
  end.

(** [await pc.addIceCandidate(new RTCIceCandidate(c))]. *)
Definition addIceCandidate (p : PeerConnection) (c : IceCandidate) : M unit :=
  emit (EngineAddIceCandidate (pc_id p) c) ;;
  match addIceCandidate_error E p c with
  | Some msg => throw (Error msg)
  | None => ret tt
  end.

(** [pc && pc.remoteDescription]. *)
Definition pcHasRemoteDescription (s : Service) : bool :=
  match pc s with
  | Some p => truthy_obj (remoteDescription p)
  | None => false
  end.

(** [processQueuedIceCandidates(callId)]. *)
Definition processQueuedIceCandidates (callId : string) : M unit :=
  s <- get ;;
  if negb (pcHasRemoteDescription s) then ret tt
  else
    let candidatesToProcess :=
      filter (fun c => (ice_callId c =? callId)%string) (queuedIceCandidates s) in
    if (length candidatesToProcess =? 0)%nat then ret tt
    else
      modify (set_queuedIceCandidates
                (filter (fun c => negb (ice_callId c =? callId)%string)
                        (queuedIceCandidates s))) ;;
      for_each candidatesToProcess (fun data =>
        try_catch
          (s1 <- get ;;
           match ice_candidate data, pc s1 with
           | Some c, Some p =>
               if truthy_obj (remoteDescription p) then addIceCandidate p c
               else ret tt
           | _, _ => ret tt
           end)
          (fun _ => ret tt)).

(** Socket handler for ['ice-candidate']. *)
Definition onIceCandidate (data : IceCandidateMsg) : M unit :=
  match ice_candidate data with
  | None => ret tt
  | Some c =>
      s <- get ;;
      match pc s with
      | Some p =>
          if strict_eq (activeCallUUID s) (ice_callId data) then
            if negb (truthy_obj (remoteDescription p)) then
              modify (set_queuedIceCandidates (queuedIceCandidates s ++ [data]))
            else
              try_catch (addIceCandidate p c) (fun _ => ret tt)
          else ret tt
      | None => ret tt
      end
  end.


(** [endVoiceCall()].  The relay request is fire-and-forget: its promise
    is only given a [catch]. *)
Definition endVoiceCall : M unit :=
  (s <- get ;;
   if (0 <? length (queuedIceCandidates s))%nat
   then modify (set_queuedIceCandidates [])
   else ret tt) ;;
  (s <- get ;;
   match pc s with
   | Some p => emit (EngineClose (pc_id p)) ;; modify (set_pc None)
   | None => ret tt
   end) ;;
  (s <- get ;;
   match localStream s with
   | Some l => emit (MediaStop l) ;; modify (set_localStream None)
   | None => ret tt
   end) ;;
  (s <- get ;;
   match remoteStream s with
   | Some r => emit (MediaStop r) ;; modify (set_remoteStream None)
   | None => ret tt
   end) ;;
  (s <- get ;;
   match activeCallUUID s, currentDeviceId s with
   | Some a, Some d =>
       if truthy_str (Some a) && truthy_str (Some d)
       then emit (RelayEnd a d None)
       else ret tt
   | _, _ => ret tt
   end) ;;
  modify (set_activeCallUUID None) ;;
  modify (set_activeCallStartedAt None) ;;
  modify (set_currentCallState idle) ;;
  modify (set_callerName None) ;;
  (s <- get ;; callOnCallStateChange (currentCallState s) None) ;;
  callOnCallActiveChange false None.

(** [export function endCall()]. *)
Definition endCall : M unit := endVoiceCall.

(** The block
    [currentCallState = 'answered'; activeCallStartedAt = Date.now();
     onCallStateChange?.(...); onCallActiveChange?.(true, ...)]. *)
Definition answeredStartTimer (now : Z) : M unit :=
  modify (set_currentCallState answered) ;;
  modify (set_activeCallStartedAt (Some now)) ;;
  (s <- get ;; callOnCallStateChange (currentCallState s) (callerName s)) ;;
  (s <- get ;; callOnCallActiveChange true (activeCallStartedAt s)).

(** The block
    [currentCallState = 'answered';
     if (!activeCallStartedAt) { activeCallStartedAt = Date.now(); }
     onCallStateChange?.(...); onCallActiveChange?.(true, ...)]. *)
Definition answeredBackfillTimer (now : Z) : M unit :=
  modify (set_currentCallState answered) ;;
  (s <- get ;;
   if negb (truthy_num (activeCallStartedAt s))
   then modify (set_activeCallStartedAt (Some now))
   else ret tt) ;;
  (s <- get ;; callOnCallStateChange (currentCallState s) (callerName s)) ;;
  (s <- get ;; callOnCallActiveChange true (activeCallStartedAt s)).

(** [a || b] on [string | undefined] operands. *)
Definition or_str (a b : option string) : option string :=
  if truthy_str a then a else b.

(** Socket handler for ['call-state'].  [now] is the value [Date.now()]
    returns during the handler.  The desktop notification of the ringing
    branch is not tracked. *)
Definition onCallState (now : Z) (data : CallStateMsg) : M unit :=
  if (cs_state data =? "ringing")%string
     && (cs_direction data =? "incoming")%string then
    modify (set_activeCallUUID (Some (cs_callId data))) ;;
    modify (set_currentCallState ringing) ;;
    modify (set_callerName
              (or_str (cs_callerName data)
                 (or_str (cs_fromLoyaltyId data)
                    (or_str (cs_peerDeviceId data) (Some "Incoming call"))))) ;;
    (s <- get ;; callOnCallStateChange (currentCallState s) (callerName s))
  else if (cs_state data =? "answered")%string then
    s <- get ;;
    if strict_eq (activeCallUUID s) (cs_callId data)
       || negb (truthy_str (activeCallUUID s)) then
      (if negb (truthy_str (activeCallUUID s))
       then modify (set_activeCallUUID (Some (cs_callId data)))
       else ret tt) ;;
      answeredBackfillTimer now
    else ret tt
  else if (cs_state data =? "ended")%string
          || (cs_state data =? "rejected")%string then
    modify (set_currentCallState
              (if (cs_state data =? "ended")%string then ended else rejected)) ;;
    (s <- get ;; callOnCallStateChange (currentCallState s) (callerName s)) ;;
    endVoiceCall
  else ret tt.

(** [signalingState === 'stable' || signalingState === 'have-remote-pranswer']. *)
Definition answerAlreadySet (st : SignalingState) : bool :=
  SignalingState_eqb st stable || SignalingState_eqb st have_remote_pranswer.

(** Reading a property of [pc] when [pc] is [null]. *)
Definition nullDereference {A : Type} : M A :=
  throw (Error "Cannot read properties of null").

(** Socket handler for ['answer'] (the global listener). *)
Definition onAnswer (now : Z) (data : AnswerMsg) : M unit :=
  s <- get ;;
  match pc s with
  | Some p =>
      if strict_eq (activeCallUUID s) (ans_callId data) then
        let st := signalingState p in
        let shouldProcess :=
          (CallState_eqb (currentCallState s) calling
           || CallState_eqb (currentCallState s) ringing)
          || (CallState_eqb (currentCallState s) answered
              && negb (answerAlreadySet st)) in
        if negb shouldProcess then ret tt
        else
          try_catch
            (match st with
             | have_local_offer =>
                 try_catch
                   (setRemoteDescription p (ans_answer data) ;;
                    processQueuedIceCandidates (ans_callId data) ;;
                    answeredStartTimer now)
                   (fun setError =>
                      if isWrongStateError setError then
                        s1 <- get ;;
                        match pc s1 with
                        | Some p1 =>
                            if answerAlreadySet (signalingState p1) then
                              processQueuedIceCandidates (ans_callId data) ;;
                              answeredBackfillTimer now
                            else ret tt
                        | None => nullDereference
                        end
                      else throw setError)
             | stable | have_remote_pranswer =>
                 processQueuedIceCandidates (ans_callId data) ;;
                 answeredBackfillTimer now
             | _ =>
                 try_catch
                   (setRemoteDescription p (ans_answer data) ;;
                    processQueuedIceCandidates (ans_callId data) ;;
                    answeredBackfillTimer now)
                   (fun _ => ret tt)
             end)
            (fun e =>
               if isWrongStateError e then answeredBackfillTimer now
               else ret tt)
      else ret tt
  | None => ret tt
  end.

(** *** The HTTP poll fallback *)

(** Outcome of [fetch(`/api/calls/${callId}`)] followed by [resp.json()]. *)
Inductive PollResponse : Type :=
| FetchFailed (e : JsError)                       (* [fetch] or [json()] threw *)
| RespNotOk                                       (* [!resp.ok] *)
| RespJson (answer : option SessionDescription).  (* [data.answer] *)

(** What one turn of the loop body decides. *)
Inductive LoopStep : Type := LoopContinue | LoopReturn.

(** What the loop meets in one iteration: the changes other handlers made
    to the service during the one-second sleep and during the request, the
    response of the relay, and the clock. *)
Record Tick : Type := mkTick {
  duringSleep : Service -> Service;
  duringFetch : Service -> Service;
  response : PollResponse;
  tickNow : Z
}.

(** [currentPc === pc]. *)
Definition samePc (currentPc : nat) (s : Service) : bool :=
  match pc s with
  | Some p => (pc_id p =? currentPc)%nat
  | None => false
  end.

(** [currentPc !== pc || !activeCallUUID]: the call has ceased to be
    active. *)
Definition pollCancelled (currentPc : nat) (s : Service) : bool :=
  negb (samePc currentPc s) || negb (truthy_str (activeCallUUID s)).

(** The body of the [for] loop of [waitForAnswerHTTP], after the sleep. *)
Definition pollBody (callId : string) (currentPc : nat) (t : Tick)
  : M LoopStep :=
  s <- get ;;
  if pollCancelled currentPc s then ret LoopReturn
  else
    try_catch
      (emit (RelayPoll callId) ;;
       modify (duringFetch t) ;;
       match response t with
       | FetchFailed e => throw e
       | RespNotOk => ret LoopContinue
       | RespJson None => ret LoopContinue
       | RespJson (Some a) =>
           s1 <- get ;;
           match pc s1 with
           | Some p =>
               if truthy_str (sd_sdp a) && samePc currentPc s1 then
                 match signalingState p with
                 | have_local_offer =>
                     try_catch
                       (setRemoteDescription p a ;;
                        processQueuedIceCandidates callId ;;
                        answeredStartTimer (tickNow t) ;;
                        ret LoopReturn)
                       (fun setError =>
                          if isWrongStateError setError then
                            answeredBackfillTimer (tickNow t) ;; ret LoopReturn
                          else throw setError)
                 | stable | have_remote_pranswer =>
                     answeredBackfillTimer (tickNow t) ;; ret LoopReturn
                 | _ => ret LoopContinue
                 end
               else ret LoopContinue
           | None => ret LoopContinue
           end
       end)
      (fun _ => ret LoopContinue).

(** [for (let i = 0; i < 30; i++) { await sleep(1000); ... }], with
    [remaining = 30 - i]. *)
Fixpoint pollLoop (remaining i : nat) (callId : string) (currentPc : nat)
  (env : nat -> Tick) : M unit :=
  match remaining with
  | O => ret tt
  | S r =>
      emit (Sleep 1000) ;;
      modify (duringSleep (env i)) ;;
      step <- pollBody callId currentPc (env i) ;;
      match step with
      | LoopReturn => ret tt
      | LoopContinue => pollLoop r (S i) callId currentPc env
      end
  end.

(** [waitForAnswerHTTP(callId)]. *)
Definition waitForAnswerHTTP (callId : string) (env : nat -> Tick) : M unit :=
  s <- get ;;
  match pc s with
  | None => ret tt
  | Some currentPc => pollLoop 30 0 callId (pc_id currentPc) env
  end.

(** *** Local actions *)

(** The arrow function [rejectCall] schedules with [setTimeout(..., 2000)]. *)
Definition resetAfterReject : M unit :=
  modify (set_currentCallState idle) ;;
  modify (set_callerName None) ;;
  modify (set_activeCallUUID None) ;;
  (s <- get ;; callOnCallStateChange (currentCallState s) None).

(** [rejectCall(callUUID)].  [notifyError] is the error of the relay
    request, if it fails. *)
Definition rejectCall (callUUID : string) (notifyError : option JsError)
  : M unit :=
  modify (set_currentCallState rejected) ;;
  (s <- get ;; callOnCallStateChange (currentCallState s) (callerName s)) ;;
  (s <- get ;;
   match currentDeviceId s with
   | Some d =>
       if truthy_str (Some d) then
         try_catch
           (emit (RelayEnd callUUID d (Some "rejected")) ;;
            match notifyError with
            | Some e => throw e
            | None => ret tt
            end)
           (fun _ => ret tt)
       else ret tt
   | None => ret tt
   end) ;;
  endVoiceCall ;;
  emit (SetTimeout 2000 ResetAfterReject).

(** Result of [getCallState()]. *)
Record CallStateInfo : Type := mkCallStateInfo {
  info_state : CallState;
  info_callerName : option string;
  info_isMuted : bool;
  info_isSpeakerEnabled : bool;
  info_callUUID : option string
}.

Definition getCallState (s : Service) : CallStateInfo :=
  mkCallStateInfo (currentCallState s) (callerName s) (isMuted s)
                  (isSpeakerEnabled s) (activeCallUUID s).

(** Result of [getActiveCallInfo()]. *)
Record ActiveCallInfo : Type := mkActiveCallInfo {
  info_isActive : bool;
  info_startedAt : option Z
}.

Definition getActiveCallInfo (s : Service) : ActiveCallInfo :=
  mkActiveCallInfo
    (CallState_eqb (currentCallState s) answered
     && truthy_obj (activeCallStartedAt s))
    (activeCallStartedAt s).

(** [ensureSocketConnected()]: a new socket is created unless one exists
    and is connected. *)
Definition ensureSocketConnected : M unit :=
  s <- get ;;
  match socket s with
  | Some true => ret tt
  | _ => emit SocketOpen ;; modify (set_socket (Some false))
  end.

(** [initWebRTCWithLoyaltyId(loyaltyId)]; [deviceId] is the value
    [generateUUID()] returns.  [registerDevice] catches its own errors. *)
Definition initWebRTCWithLoyaltyId (loyaltyId deviceId : string) : M unit :=
  if negb (truthy_str (Some loyaltyId)) then
    throw (Error "loyaltyId is required for WebRTC initialization")
  else
    s <- get ;;
    if isVoipInitialized s && strict_eq (currentLoyaltyId s) loyaltyId
    then ret tt
    else
      modify (set_currentLoyaltyId (Some loyaltyId)) ;;
      modify (set_currentDeviceId (Some deviceId)) ;;
      modify (set_isVoipInitialized true) ;;
      emit (RelayRegisterDevice deviceId loyaltyId) ;;
      ensureSocketConnected.

(** What the browser gives [startVoiceCall]: the stream of
    [getUserMedia] ([None] when access is refused) and the identity of the
    new [RTCPeerConnection]. *)
Record MediaEnv : Type := mkMediaEnv {
  userMedia : option nat;
  newPcId : nat
}.

(** [startVoiceCall(callUUID, remoteOffer, role)].  Adding the local
    tracks to the connection and installing its event handlers
    ([onicecandidate], [onconnectionstatechange], [ontrack], ...) leave
    the service variables untouched and are not tracked; [role] is only
    read by [onicecandidate]. *)
Definition startVoiceCall (callUUID : string)
  (remoteOffer : option SessionDescription) (env : MediaEnv) : M unit :=
  (s <- get ;; if truthy_obj (pc s) then endVoiceCall else ret tt) ;;
  match userMedia env with
  | None => throw (Error "Microphone access denied")
  | Some stream =>
      emit (MediaAcquire stream) ;;
      modify (set_localStream (Some stream)) ;;
      let peer := mkPC (newPcId env) stable None None in
      emit (EngineNew (newPcId env)) ;;
      modify (set_pc (Some peer)) ;;
      match remoteOffer with
      | Some o =>
          try_catch
            (setRemoteDescription peer o ;;
             processQueuedIceCandidates callUUID)
            (fun e => throw e)
      | None => ret tt
      end ;;
      modify (set_activeCallUUID (Some callUUID))
  end.

(** Outcome of the request [POST /api/calls]. *)
Inductive PostResult : Type :=
| PostThrows (e : JsError)
| PostStatus (ok : bool) (status : string).

(** What [startOutgoingVoiceCallByLoyaltyId] meets outside the service. *)
Record DialEnv : Type := mkDialEnv {
  dial_uuid : string;                          (* [generateUUID()] *)
  dial_media : MediaEnv;
  dial_offer : Completion SessionDescription;  (* [pc.createOffer()] *)
  dial_setLocalError : option string;          (* [pc.setLocalDescription] *)
  dial_post : PostResult
}.

(** [await pc.createOffer(); await pc.setLocalDescription(offer)]. *)
Definition createAndSetLocalOffer (env : DialEnv) : M SessionDescription :=
  s <- get ;;
  match pc s with
  | None => throw (Error "Peer connection not created")
  | Some p =>
      emit (EngineCreateOffer (pc_id p)) ;;
      match dial_offer env with
      | Throw e => throw e
      | Normal offer =>
          emit (EngineSetLocalDescription (pc_id p) offer) ;;
          match dial_setLocalError env with
          | Some msg => throw (Error msg)
          | None =>
              modify (set_pc (Some (mkPC (pc_id p) have_local_offer
                                         (remoteDescription p) (Some offer)))) ;;
              ret offer
          end
      end
  end.

(** [startOutgoingVoiceCallByLoyaltyId(targetLoyaltyId, displayName)].
    [waitForAnswer] is the computation awaited at the end of the [try]
    block. *)
Definition startOutgoingVoiceCallByLoyaltyId
  (waitForAnswer : string -> M unit) (env : DialEnv)
  (targetLoyaltyId displayName : string) : M unit :=
  s <- get ;;
  match currentDeviceId s, currentLoyaltyId s with
  | Some deviceId, Some loyaltyId =>
      if negb (isVoipInitialized s) || negb (truthy_str (Some deviceId))
         || negb (truthy_str (Some loyaltyId)) then
        throw (Error "WebRTC not initialized. Call initWebRTCWithLoyaltyId first.")
      else
        let callId := dial_uuid env in
        modify (set_activeCallUUID (Some callId)) ;;
        modify (set_currentCallState calling) ;;
        modify (set_callerName (Some displayName)) ;;
        (s1 <- get ;; callOnCallStateChange (currentCallState s1) (callerName s1)) ;;
        ensureSocketConnected ;;
        startVoiceCall callId None (dial_media env) ;;
        _ <- createAndSetLocalOffer env ;;
        try_catch
          (emit (RelayCreateCall callId deviceId loyaltyId targetLoyaltyId) ;;
           match dial_post env with
           | PostThrows e => throw e
           | PostStatus false status =>
               throw (Error ("Failed to start call: " ++ status)%string)
           | PostStatus true _ => waitForAnswer callId
           end)
          (fun e => endVoiceCall ;; throw e)
  | _, _ =>
      throw (Error "WebRTC not initialized. Call initWebRTCWithLoyaltyId first.")
  end.

(** *** The call handler of the page *)

(** [User] of [users-api.ts], with the fields the handler reads;
    [u_displayName] is [getUserDisplayName(user)]. *)
Record User : Type := mkUser {
  u_loyaltyId : string;
  u_online : bool;
  u_hasVoipToken : bool;
  u_displayName : string
}.

(** The user object of [localStorage]; the identity is read as
    [storedUser.loyaltyId || storedUser.loyalty_id]. *)
Record StoredUser : Type := mkStoredUser {
  su_loyaltyId : option string;
  su_loyalty_id : option string
}.

(** [handleCallUser(user)] of [page.tsx].  [storedUser] is the result of
    [getStoredUser()], [pageLoyaltyId] the component's [currentLoyaltyId]
    state and [deviceId] the identifier an initialization would draw. *)
Definition handleCallUser (waitForAnswer : string -> M unit) (env : DialEnv)
  (storedUser : option StoredUser) (pageLoyaltyId deviceId : string)
  (user : User) : M unit :=
  match storedUser with
  | None => emit (UiAlert AlertNotAuthorized) ;; emit (UiNavigate "/login")
  | Some su =>
      match or_str (su_loyaltyId su) (su_loyalty_id su) with
      | Some myLoyaltyId =>
          if negb (truthy_str (Some myLoyaltyId)) then
            emit (UiAlert AlertNoLoyaltyId)
          else
            initialized <-
              (if negb (truthy_str (Some pageLoyaltyId)) then
                 try_catch
                   (initWebRTCWithLoyaltyId myLoyaltyId deviceId ;;
                    emit (UiSetCurrentLoyaltyId myLoyaltyId) ;;
                    emit (Sleep 500) ;;
                    ret true)
                   (fun e =>
                      emit (UiAlert (AlertInitFailed (message_of e))) ;;
                      ret false)
               else ret true) ;;
            if negb initialized then ret tt
            else if (u_loyaltyId user =? myLoyaltyId)%string then
              emit (UiAlert AlertSelfCall)
            else if negb (u_online user) && negb (u_hasVoipToken user) then
              emit (UiAlert AlertPeerUnreachable)
            else
              try_catch
                (startOutgoingVoiceCallByLoyaltyId waitForAnswer env
                   (u_loyaltyId user) (u_displayName user))
                (fun e =>
                   let errorMsg := message_or "Unknown error" e in
                   emit (UiAlert (AlertCallFailed errorMsg)) ;;
                   if includes errorMsg "not initialized" then
                     try_catch
                       (initWebRTCWithLoyaltyId myLoyaltyId deviceId ;;
                        emit (UiSetCurrentLoyaltyId myLoyaltyId))
                       (fun _ => ret tt)
                   else ret tt)
      | None => emit (UiAlert AlertNoLoyaltyId)
      end
  end.

End WithEngine.

(* ================================================================== *)
(** ** Concrete engines and states *)

(** Text of the engine's rejection of a description set outside its
    phase, as browsers word it. *)
Definition wrongStateMessage (st : SignalingState) : string :=
  ("Failed to set remote answer sdp: Called in wrong state: " ++
   match st with
   | stable => "stable"
   | have_local_offer => "have-local-offer"
   | have_remote_offer => "have-remote-offer"
   | have_local_pranswer => "have-local-pranswer"
   | have_remote_pranswer => "have-remote-pranswer"
   | closed => "closed"
   end)%string.

(** An engine that follows the JSEP state table: a remote answer is
    accepted after a local offer (or a provisional answer), a remote offer
    in [stable] or after a remote offer; a candidate is accepted once a
    remote description exists. *)
Definition jsepEngine : Engine :=
  mkEngine
    (fun p d =>
       match sd_type d, signalingState p with
       | sdp_answer, have_local_offer
       | sdp_answer, have_remote_pranswer
       | sdp_pranswer, have_local_offer
       | sdp_pranswer, have_remote_pranswer
       | sdp_offer, stable
       | sdp_offer, have_remote_offer => None
       | _, st => Some (wrongStateMessage st)
       end)
    (fun p _ =>
       match remoteDescription p with
       | Some _ => None
       | None => Some "The remote description was null"
       end).

Definition sampleOffer : SessionDescription := mkSD sdp_offer (Some "v=0 o=caller").
Definition sampleAnswer : SessionDescription := mkSD sdp_answer (Some "v=0 o=callee").

(** A caller that has sent its offer for call ["call-A"] and waits. *)
Definition awaitingAnswer : Service :=
  mkService (Some (mkPC 1 have_local_offer None (Some sampleOffer)))
            (Some 10%nat) None (Some "call-A") (Some "agent-1") (Some "dev-1")
            (Some true) None true calling (Some "Bob") false false []
            true true.

(** A callee with the remote offer of ["call-A"] applied, holding a
    queue with one entry for that call and one for another call. *)
Definition calleeWithMixedQueue : Service :=
  mkService (Some (mkPC 1 have_remote_offer (Some sampleOffer) None))
            (Some 10%nat) None (Some "call-A") (Some "agent-1") (Some "dev-1")
            (Some true) None true ringing (Some "Alice") false false
            [mkIce "call-A" (Some "candidate:a1") "dev-2";
             mkIce "call-B" (Some "candidate:b1") "dev-3"]
            true true.

(** A ringing inbound call ["call-A"] from Alice. *)
Definition ringingInbound : Service :=
  mkService (Some (mkPC 1 have_remote_offer (Some sampleOffer) None))
            (Some 10%nat) None (Some "call-A") (Some "agent-1") (Some "dev-1")
            (Some true) None true ringing (Some "Alice") false false []
            true true.

(** An answered outbound call ["call-A"], timer started at 5000. *)
Definition answeredCall : Service :=
  mkService (Some (mkPC 1 stable (Some sampleAnswer) (Some sampleOffer)))
            (Some 10%nat) (Some 11%nat) (Some "call-A") (Some "agent-1") (Some "dev-1")
            (Some true) (Some 5000) true answered (Some "Bob") false false []
            true true.

(** The service after initialization for ["agent-1"], no call. *)
Definition initializedIdle : Service :=
  mkService None None None None (Some "agent-1") (Some "dev-1")
            (Some true) None true idle None false false [] true true.

(** The entries of a queue for [callId], and the others. *)
Definition matching (callId : string) (q : list IceCandidateMsg)
  : list IceCandidateMsg :=
  filter (fun c => (ice_callId c =? callId)%string) q.

Definition notMatching (callId : string) (q : list IceCandidateMsg)
  : list IceCandidateMsg :=
  filter (fun c => negb (ice_callId c =? callId)%string) q.

(** The candidates carried by a list of entries, in order. *)
Definition candidatesOf (q : list IceCandidateMsg) : list IceCandidate :=
  flat_map (fun m => match ice_candidate m with
                     | Some c => [c]
                     | None => []
                     end) q.

(** The service as [endVoiceCall] leaves it. *)
Definition tornDown (s : Service) : Service :=
  mkService None None None None (currentLoyaltyId s) (currentDeviceId s)
            (socket s) None (isVoipInitialized s) idle None
            (isMuted s) (isSpeakerEnabled s) []
            (onCallStateChange s) (onCallActiveChange s).

(** The effects of [endVoiceCall] from a given service, in order. *)
Definition teardownEffects (s : Service) : list Effect :=
  match pc s with Some p => [EngineClose (pc_id p)] | None => [] end ++
  match localStream s with Some l => [MediaStop l] | None => [] end ++
  match remoteStream s with Some r => [MediaStop r] | None => [] end ++
  match activeCallUUID s, currentDeviceId s with
  | Some a, Some d =>
      if truthy_str (Some a) && truthy_str (Some d)
      then [RelayEnd a d None] else []
  | _, _ => []
  end ++
  (if onCallStateChange s then [CbCallStateChange idle None] else []) ++
  (if onCallActiveChange s then [CbCallActiveChange false None] else []).

Definition isRelayEnd (e : Effect) : bool :=
  match e with RelayEnd _ _ _ => true | _ => false end.

Definition isCallback (e : Effect) : bool :=
  match e with
  | CbCallStateChange _ _ | CbCallActiveChange _ _ => true
  | _ => false
  end.

(** Release of a resource the service holds. *)
Definition isRelease (e : Effect) : bool :=
  match e with EngineClose _ | MediaStop _ => true | _ => false end.

(** The effect of [onCallStateChange?.(st, name)] and of
    [onCallActiveChange?.(b, t)] for the callbacks registered in [s]. *)
Definition cbState (s : Service) (st : CallState) (name : option string)
  : list Effect :=
  if onCallStateChange s then [CbCallStateChange st name] else [].

Definition cbActive (s : Service) (b : bool) (t : option Z) : list Effect :=
  if onCallActiveChange s then [CbCallActiveChange b t] else [].

(** The timer after the block that backfills a missing start. *)
Definition backfilled (now : Z) (s : Service) : option Z :=
  if truthy_num (activeCallStartedAt s) then activeCallStartedAt s
  else Some now.

Definition isSetRemoteDescription (e : Effect) : bool :=
  match e with EngineSetRemoteDescription _ _ => true | _ => false end.

(** Requests to the relay. *)
Definition isRelayRequest (e : Effect) : bool :=
  match e with
  | RelayCreateCall _ _ _ _ | RelayPoll _ | RelayEnd _ _ _
  | RelayRegisterDevice _ _ => true
  | _ => false
  end.

(** [1] when the call state enters [answered] between two services. *)
Definition entersAnswered (before after : Service) : nat :=
  if negb (CallState_eqb (currentCallState before) answered)
     && CallState_eqb (currentCallState after) answered
  then 1%nat else 0%nat.

(** One poll iteration that meets [resp], with nothing else happening
    during the request. *)
Definition quietTick (resp : PollResponse) (now : Z) : Tick :=
  mkTick (fun s => s) (fun s => s) resp now.

(** The effects that pace the poll loop: a sleep or a request. *)
Definition isPacing (e : Effect) : bool :=
  match e with Sleep _ | RelayPoll _ => true | _ => false end.

Definition isRelayPoll (e : Effect) : bool :=
  match e with RelayPoll _ => true | _ => false end.

Definition isSleep (e : Effect) : bool :=
  match e with Sleep _ => true | _ => false end.

(** Every sleep lasts 1000 ms and every poll request comes after a sleep
    that no other poll request has used: [slept] tells whether such a
    sleep is pending. *)
Fixpoint paced (slept : bool) (l : list Effect) : bool :=
  match l with
  | [] => true
  | Sleep ms :: l' => (ms =? 1000) && paced true l'
  | RelayPoll _ :: l' => slept && paced false l'
  | _ :: l' => paced slept l'
  end.

(** [shouldProcess] of the push handler of ['answer']. *)
Definition shouldProcess (s : Service) (st : SignalingState) : bool :=
  (CallState_eqb (currentCallState s) calling
   || CallState_eqb (currentCallState s) ringing)
  || (CallState_eqb (currentCallState s) answered
      && negb (answerAlreadySet st)).

(** An environment in which the relay has no answer until the third
    poll. *)
Definition answerAtThirdPoll (i : nat) : Tick :=
  match i with
  | 2%nat => quietTick (RespJson (Some sampleAnswer)) 3000
  | _ => quietTick (RespJson None) 0
  end.

(** A dial environment in which everything succeeds. *)
Definition dialEnvOk : DialEnv :=
  mkDialEnv "call-S" (mkMediaEnv (Some 20%nat) 2) (Normal sampleOffer) None
            (PostStatus true "200").

(** The request that creates a call, with its target blanked. *)
Definition eraseTarget (e : Effect) : Effect :=
  match e with
  | RelayCreateCall c d l _ => RelayCreateCall c d l ""
  | _ => e
  end.

Definition isRelayCreateCall (e : Effect) : bool :=
  match e with RelayCreateCall _ _ _ _ => true | _ => false end.

(** Two runs that agree on everything but the target of the created
    call. *)
Definition sameUpToTarget {A : Type}
  (r1 r2 : Completion A * Service * list Effect) : Prop :=
  result_of r1 = result_of r2 /\ state_of r1 = state_of r2 /\
  map eraseTarget (effects_of r1) = map eraseTarget (effects_of r2).

(* ================================================================== *)
(** ** Properties of computations *)

(** [m] never completes abruptly. *)
Definition total {A : Type} (m : M A) : Prop :=
  forall s, exists a, result_of (m s) = Normal a.

(** Every effect of [m] satisfies [p]. *)
Definition emitsOnly (p : Effect -> bool) {A : Type} (m : M A) : Prop :=
  forall s, forallb p (effects_of (m s)) = true.

(** [m] relates the service it starts from to the one it leaves by [R]. *)
Definition keeps (R : Service -> Service -> Prop) {A : Type} (m : M A) : Prop :=
  forall s, R s (state_of (m s)).

(** The registration of the service: the identity it was initialized
    with, the registered callbacks and the mute and speaker flags. *)
Definition sameRegistration (s s' : Service) : Prop :=
  currentLoyaltyId s' = currentLoyaltyId s /\
  currentDeviceId s' = currentDeviceId s /\
  isVoipInitialized s' = isVoipInitialized s /\
  onCallStateChange s' = onCallStateChange s /\
  onCallActiveChange s' = onCallActiveChange s /\
  isMuted s' = isMuted s /\
  isSpeakerEnabled s' = isSpeakerEnabled s.

(** The effects of the signaling handlers: engine calls for the remote
    description and the candidates, and UI callbacks. *)
Definition isSignalingEffect (e : Effect) : bool :=
  match e with
  | EngineSetRemoteDescription _ _ | EngineAddIceCandidate _ _
  | CbCallStateChange _ _ | CbCallActiveChange _ _ => true
  | _ => false
  end.

(* ================================================================== *)
(** ** Further handlers of the service *)

(** Payload of the socket event ['offer']. *)
Record OfferMsg : Type := mkOffer {
  off_callId : string;
  off_offer : SessionDescription;
  off_fromDeviceId : option string;
  off_fromLoyaltyId : option string;
  off_callerName : option string
}.

Section FurtherHandlers.

Context (E : Engine).

(** Socket handler for ['offer']; [env] is what the browser gives the
    [startVoiceCall] it runs. *)
Definition onOffer (env : MediaEnv) (data : OfferMsg) : M unit :=
  s <- get ;;
  if negb (truthy_obj (pc s))
     || negb (strict_eq (activeCallUUID s) (off_callId data)) then
    modify (set_activeCallUUID (Some (off_callId data))) ;;
    modify (set_currentCallState ringing) ;;
    modify (set_callerName
              (or_str (off_callerName data)
                 (or_str (off_fromLoyaltyId data)
                    (or_str (off_fromDeviceId data) (Some "Incoming call"))))) ;;
    (s1 <- get ;; callOnCallStateChange (currentCallState s1) (callerName s1)) ;;
    try_catch
      (startVoiceCall E (off_callId data) (Some (off_offer data)) env)
      (fun _ =>
         modify (set_currentCallState idle) ;;
         modify (set_activeCallUUID None) ;;
         (s1 <- get ;; callOnCallStateChange (currentCallState s1) None))
  else ret tt.

(** [waitForAnswer(callId)] in a run where no ['answer'] event reaches
    its temporary listener and the poll loop has ended when the 30 s
    timer fires: the timer was armed, nothing cleared it, and its
    callback rejects the promise. *)
Definition waitForAnswerPollOnly (env : nat -> Tick) (callId : string)
  : M unit :=
  s <- get ;;
  match pc s with
  | None => throw (Error "No peer connection")
  | Some _ =>
      emit (SetTimeout 30000 AnswerTimeout) ;;
      waitForAnswerHTTP E callId env ;;
      throw (Error "Answer timeout")
  end.

End FurtherHandlers.

(** An engine that rejects every description with the wrong-state
    message, whatever its phase. *)
Definition refusingEngine : Engine :=
  mkEngine (fun _ _ => Some (wrongStateMessage stable)) (fun _ _ => None).

(** An engine that finds every description malformed. *)
Definition strictEngine : Engine :=
  mkEngine (fun _ _ => Some "Failed to parse SessionDescription")
           (fun _ _ => None).

(** A response of the relay that carries no usable answer. *)
Definition noAnswerYet (resp : PollResponse) : bool :=
  match resp with
  | RespJson (Some a) => negb (truthy_str (sd_sdp a))
  | _ => true
  end.

(** The init guard of the dial. *)
Definition dialGuard (s : Service) : bool :=
  isVoipInitialized s && truthy_str (currentDeviceId s)
  && truthy_str (currentLoyaltyId s).

(** Nothing is held: no connection, no stream, no call, no queue. *)
Definition released (s : Service) : Prop :=
  pc s = None /\ localStream s = None /\ remoteStream s = None /\
  activeCallUUID s = None /\ activeCallStartedAt s = None /\
  currentCallState s = idle /\ callerName s = None /\
  queuedIceCandidates s = [].

(** A failure of the dial is [settled] when, if the request creating the
    call went out, everything the service held has been released. *)
Definition settledFailure {A : Type}
  (r : Completion A * Service * list Effect) : Prop :=
  forall e, result_of r = Throw e ->
            existsb isRelayCreateCall (effects_of r) = true ->
            released (state_of r).

(** A relay that refuses to create the call. *)
Definition dialEnvRefused : DialEnv :=
  mkDialEnv "call-S" (mkMediaEnv (Some 20%nat) 2) (Normal sampleOffer) None
            (PostStatus false "503").

(** The service after [ensureSocketConnected], and the effect of that
    call. *)
Definition socketEnsured (s : Service) : Service :=
  match socket s with
  | Some true => s
  | _ => set_socket (Some false) s
  end.

Definition socketEffects (s : Service) : list Effect :=
  match socket s with
  | Some true => []
  | _ => [SocketOpen]
  end.

(** The service as the dial marks it before it starts the call. *)
Definition markedCalling (callId name : string) (s : Service) : Service :=
  socketEnsured
    (set_callerName (Some name)
       (set_currentCallState calling
          (set_activeCallUUID (Some callId) s))).

(** What [startVoiceCall] does first: the teardown of an existing
    connection. *)
Definition cleared (s : Service) : Service :=
  if truthy_obj (pc s) then tornDown s else s.

Definition clearedEffects (s : Service) : list Effect :=
  if truthy_obj (pc s) then teardownEffects s else [].

(** The connection a new [RTCPeerConnection] starts as. *)
Definition freshPc (env : MediaEnv) : PeerConnection :=
  mkPC (newPcId env) stable None None.

(** The caller name the ['offer'] handler shows. *)
Definition offerCallerName (data : OfferMsg) : option string :=
  or_str (off_callerName data)
    (or_str (off_fromLoyaltyId data)
       (or_str (off_fromDeviceId data) (Some "Incoming call"))).

(** The service as the ['offer'] handler marks it before it starts the
    call. *)
Definition markedRinging (data : OfferMsg) (s : Service) : Service :=
  set_callerName (offerCallerName data)
    (set_currentCallState ringing
       (set_activeCallUUID (Some (off_callId data)) s)).

(** An inbound offer for ["call-B"] from Carol. *)
Definition offerFromCarol : OfferMsg :=
  mkOffer "call-B" sampleOffer (Some "dev-3") (Some "agent-3") (Some "Carol").

(** A relay that never has the answer. *)
Definition neverAnswered (i : nat) : Tick := quietTick (RespJson None) 0.

(** [n] rounds of a sleep followed by a poll request. *)
Fixpoint pollRounds (n : nat) (callId : string) : list Effect :=
  match n with
  | O => []
  | S k => Sleep 1000 :: RelayPoll callId :: pollRounds k callId
  end.

(** The browser refuses the microphone. *)
Definition dialEnvNoMicrophone : DialEnv :=
  mkDialEnv "call-S" (mkMediaEnv None 2) (Normal sampleOffer) None
            (PostStatus true "200").

(** The browser grants the microphone as stream 20 and numbers the new
    connection 2. *)
Definition mediaGranted : MediaEnv := mkMediaEnv (Some 20%nat) 2.

(* ================================================================== *)
(** ** The local actions that reach further outside *)

(** The [from] of a candidate: which end of the call sends it. *)
Inductive Role : Type := role_caller | role_callee.

(** The effects of [answerCall], [sendAnswerToBackend],
    [sendIceCandidate], [toggleMute] and the temporary listener of
    [waitForAnswer]: those of the handlers above ([Core]) and the ones
    only these functions perform. *)
Inductive Action : Type :=
| Core (e : Effect)
| EngineCreateAnswer (pcid : nat)
| RelayAnswer (callId deviceId : string) (answer : SessionDescription)
| SocketEmitAnswer (callId : string) (answer : SessionDescription)
                   (fromDeviceId toDeviceId : string)
| RelayCandidate (callId : string) (from : Role) (candidate : IceCandidate)
                 (deviceId : string)
| SocketEmitIceCandidate (callId : string) (candidate : IceCandidate)
                         (fromDeviceId toDeviceId : string)
| TrackEnabled (stream : nat) (enabled : bool)
| ClearTimeout (action : TimerAction)
| SocketOff
| Resolve
| Reject (e : JsError).

(** Computations over the same service that emit [Action]s. *)
Definition MX (A : Type) : Type :=
  Service -> Completion A * Service * list Action.

Definition retX {A : Type} (a : A) : MX A := fun s => (Normal a, s, []).

Definition bindX {A B : Type} (m : MX A) (k : A -> MX B) : MX B :=
  fun s =>
    match m s with
    | (Normal a, s1, t1) =>
        match k a s1 with
        | (r, s2, t2) => (r, s2, t1 ++ t2)
        end
    | (Throw e, s1, t1) => (Throw e, s1, t1)
    end.

Definition throwX {A : Type} (e : JsError) : MX A :=
  fun s => (Throw e, s, []).

Definition try_catchX {A : Type} (body : MX A) (handler : JsError -> MX A)
  : MX A :=
  fun s =>
    match body s with
    | (Normal a, s1, t1) => (Normal a, s1, t1)
    | (Throw e, s1, t1) =>
        match handler e s1 with
        | (r, s2, t2) => (r, s2, t1 ++ t2)
        end
    end.

Definition getX : MX Service := fun s => (Normal s, s, []).
Definition modifyX (f : Service -> Service) : MX unit :=
  fun s => (Normal tt, f s, []).
Definition emitX (a : Action) : MX unit := fun s => (Normal tt, s, [a]).

(** A computation of the handlers above, run as it is. *)
Definition lift {A : Type} (m : M A) : MX A :=
  fun s => match m s with (r, s1, t1) => (r, s1, map Core t1) end.

Declare Scope action_scope.
Delimit Scope action_scope with action.
Notation "x <- c1 ;; c2" := (bindX c1 (fun x => c2))
  (at level 100, c1 at next level, right associativity) : action_scope.
Notation "c1 ;; c2" := (bindX c1 (fun _ => c2))
  (at level 100, right associativity) : action_scope.

(** [toggleSpeaker()]: returns the new flag. *)
Definition toggleSpeaker (s : Service) : bool * Service :=
  let s' :=
    mkService (pc s) (localStream s) (remoteStream s) (activeCallUUID s)
      (currentLoyaltyId s) (currentDeviceId s) (socket s)
      (activeCallStartedAt s) (isVoipInitialized s) (currentCallState s)
      (callerName s) (isMuted s) (negb (isSpeakerEnabled s))
      (queuedIceCandidates s) (onCallStateChange s) (onCallActiveChange s) in
  (isSpeakerEnabled s', s').

Definition set_isMuted (v : bool) (s : Service) : Service :=
  mkService (pc s) (localStream s) (remoteStream s) (activeCallUUID s)
    (currentLoyaltyId s) (currentDeviceId s) (socket s)
    (activeCallStartedAt s) (isVoipInitialized s) (currentCallState s)
    (callerName s) v (isSpeakerEnabled s) (queuedIceCandidates s)
    (onCallStateChange s) (onCallActiveChange s).

(** [toggleMute()]: with a local stream the flag flips and the audio
    tracks are enabled or disabled to match; it returns the flag. *)
Definition toggleMute : MX bool :=
  ((s <- getX ;;
    match localStream s with
    | Some stream =>
        modifyX (set_isMuted (negb (isMuted s))) ;;
        s1 <- getX ;;
        emitX (TrackEnabled stream (negb (isMuted s1)))
    | None => retX tt
    end) ;;
   s <- getX ;; retX (isMuted s))%action.

(** What an accepted [setLocalDescription] does to the observed
    properties. *)
Definition applyLocalDescription (p : PeerConnection) (d : SessionDescription)
  : PeerConnection :=
  match sd_type d with
  | sdp_offer =>
      mkPC (pc_id p) have_local_offer (remoteDescription p) (Some d)
  | sdp_pranswer =>
      mkPC (pc_id p) have_local_pranswer (remoteDescription p) (Some d)
  | sdp_answer =>
      mkPC (pc_id p) stable (remoteDescription p) (Some d)
  | sdp_rollback =>
      mkPC (pc_id p) stable (remoteDescription p) None
  end.

(** The call record of the relay, as far as the service reads it. *)
Record CallInfo : Type := mkCallInfo {
  ci_offer : option SessionDescription;
  ci_fromDeviceId : option string
}.

(** Outcome of [fetch(`/api/calls/${callId}`)] and [resp.json()] where
    the offer or the caller's device is read. *)
Inductive CallInfoResponse : Type :=
| InfoThrows (e : JsError)
| InfoNotOk (status : string)
| InfoJson (info : CallInfo).

(** What [sendAnswerToBackend] meets: the call record, the outcome of
    the request that posts the answer and the body of a refusal. *)
Record SendEnv : Type := mkSendEnv {
  send_info : CallInfoResponse;
  send_post : PostResult;
  send_errorText : string;
  send_emitError : option JsError
}.

(** What [answerCall] meets outside the service. *)
Record AnswerEnv : Type := mkAnswerEnv {
  ae_fetchOffer : CallInfoResponse;    (* when the call is not set up *)
  ae_media : MediaEnv;
  ae_refetchOffer : CallInfoResponse;  (* when no remote description *)
  ae_answer : Completion SessionDescription;   (* [pc.createAnswer] *)
  ae_setLocalError : option string;            (* [pc.setLocalDescription] *)
  ae_send : SendEnv
}.

(** Name of a signaling state, as the engine spells it. *)
Definition signalingStateName (st : SignalingState) : string :=
  match st with
  | stable => "stable"
  | have_local_offer => "have-local-offer"
  | have_remote_offer => "have-remote-offer"
  | have_local_pranswer => "have-local-pranswer"
  | have_remote_pranswer => "have-remote-pranswer"
  | closed => "closed"
  end.

Section LocalActions.

Context (E : Engine).

Open Scope action_scope.

(** [sendAnswerToBackend(callId, answer)]. *)
Definition sendAnswerToBackend (env : SendEnv) (callId : string)
  (answer : SessionDescription) : MX unit :=
  s <- getX ;;
  match currentDeviceId s with
  | None => throwX (Error "Device not registered")
  | Some deviceId =>
      if negb (truthy_str (Some deviceId)) then
        throwX (Error "Device not registered")
      else
        try_catchX
          (callerDeviceId <-
             try_catchX
               (emitX (Core (RelayPoll callId)) ;;
                match send_info env with
                | InfoThrows e => throwX e
                | InfoNotOk _ => retX None
                | InfoJson info => retX (or_str (ci_fromDeviceId info) None)
                end)
               (fun _ => retX None) ;;
           emitX (RelayAnswer callId deviceId answer) ;;
           match send_post env with
           | PostThrows e => throwX e
           | PostStatus false status =>
               throwX (Error ("Failed to send answer: " ++ status ++ " - "
                              ++ send_errorText env)%string)
           | PostStatus true _ =>
               lift ensureSocketConnected ;;
               s1 <- getX ;;
               match socket s1, callerDeviceId with
               | Some true, Some toDeviceId =>
                   try_catchX
                     (emitX (SocketEmitAnswer callId answer deviceId
                                              toDeviceId) ;;
                      match send_emitError env with
                      | Some e => throwX e
                      | None => retX tt
                      end)
                     (fun _ => retX tt)
               | _, _ => retX tt
               end
           end)
          (fun e => throwX e)
  end.

(** [answerCall(callUUID)]; [now] is the value of [Date.now()] when the
    timer starts. *)
Definition answerCall (env : AnswerEnv) (now : Z) (callUUID : string)
  : MX unit :=
  try_catchX
    ((s <- getX ;;
      if negb (truthy_obj (pc s))
         || negb (strict_eq (activeCallUUID s) callUUID) then
        emitX (Core (RelayPoll callUUID)) ;;
        match ae_fetchOffer env with
        | InfoThrows e => throwX e
        | InfoNotOk status =>
            throwX (Error ("Failed to fetch call offer: " ++ status)%string)
        | InfoJson info =>
            match ci_offer info with
            | Some o =>
                if truthy_str (sd_sdp o) then
                  modifyX (set_activeCallUUID (Some callUUID)) ;;
                  modifyX (set_currentCallState ringing) ;;
                  (s1 <- getX ;;
                   lift (callOnCallStateChange (currentCallState s1)
                                               (callerName s1))) ;;
                  lift (startVoiceCall E callUUID (Some o) (ae_media env)) ;;
                  emitX (Core (Sleep 200))
                else throwX (Error "No remote offer found for this call")
            | None => throwX (Error "No remote offer found for this call")
            end
        end
      else retX tt) ;;
     s1 <- getX ;;
     match pc s1 with
     | None => throwX (Error "Peer connection not ready after setup")
     | Some p =>
         (if negb (truthy_obj (remoteDescription p)) then
            emitX (Core (RelayPoll callUUID)) ;;
            match ae_refetchOffer env with
            | InfoThrows e => throwX e
            | InfoNotOk _ => retX tt
            | InfoJson info =>
                match ci_offer info with
                | Some o =>
                    if truthy_str (sd_sdp o) then
                      lift (setRemoteDescription E p o) ;;
                      lift (processQueuedIceCandidates E callUUID)
                    else retX tt
                | None => retX tt
                end
            end
          else retX tt) ;;
         s2 <- getX ;;
         match pc s2 with
         | None => lift nullDereference
         | Some p2 =>
             match localDescription p2 with
             | None =>
                 if negb (truthy_obj (remoteDescription p2)) then
                   throwX (Error
                     "Remote description not set - cannot create answer")
                 else
                   emitX (EngineCreateAnswer (pc_id p2)) ;;
                   match ae_answer env with
                   | Throw e => throwX e
                   | Normal answer =>
                       emitX (Core (EngineSetLocalDescription (pc_id p2)
                                                              answer)) ;;
                       match ae_setLocalError env with
                       | Some msg => throwX (Error msg)
                       | None =>
                           modifyX (set_pc (Some (applyLocalDescription
                                                    p2 answer))) ;;
                           sendAnswerToBackend (ae_send env) callUUID answer
                       end
                   end
             | Some ld => sendAnswerToBackend (ae_send env) callUUID ld
             end ;;
             modifyX (set_currentCallState answered) ;;
             (s3 <- getX ;;
              lift (callOnCallStateChange (currentCallState s3)
                                          (callerName s3))) ;;
             modifyX (set_activeCallStartedAt (Some now)) ;;
             (s3 <- getX ;;
              lift (callOnCallActiveChange true (activeCallStartedAt s3)))
         end
     end)
    (fun e =>
       modifyX (set_currentCallState idle) ;;
       (s1 <- getX ;; lift (callOnCallStateChange (currentCallState s1) None)) ;;
       throwX e).

(** The temporary ['answer'] listener [waitForAnswer(callId)] installs,
    for the connection [currentPc] the wait started with.  Settling the
    promise is the effect [Resolve] or [Reject]. *)
Definition waitForAnswerListener (callId : string) (currentPc : nat)
  (now : Z) (data : AnswerMsg) : MX unit :=
  s <- getX ;;
  match pc s with
  | Some p =>
      if (ans_callId data =? callId)%string && samePc currentPc s then
        emitX (ClearTimeout AnswerTimeout) ;;
        emitX SocketOff ;;
        if answerAlreadySet (signalingState p) then
          (if negb (CallState_eqb (currentCallState s) answered)
           then lift (answeredBackfillTimer now)
           else retX tt) ;;
          emitX Resolve
        else
          try_catchX
            (match signalingState p with
             | have_local_offer =>
                 lift (setRemoteDescription E p (ans_answer data)) ;;
                 lift (processQueuedIceCandidates E callId) ;;
                 lift (answeredStartTimer now) ;;
                 emitX Resolve
             | st =>
                 emitX (Reject (Error ("Wrong signaling state: "
                                       ++ signalingStateName st)%string))
             end)
            (fun e =>
               if isWrongStateError e then
                 lift (answeredBackfillTimer now) ;; emitX Resolve
               else emitX (Reject e))
      else retX tt
  | None => retX tt
  end.

End LocalActions.

(** The two ends of a call as the relay records them. *)
Record CallPeers : Type := mkCallPeers {
  cp_toDeviceId : option string;
  cp_fromDeviceId : option string
}.

Inductive PeersResponse : Type :=
| PeersThrows (e : JsError)
| PeersNotOk (status : string)
| PeersJson (peers : CallPeers).

(** What [sendIceCandidate] meets: the call record, the outcome of the
    request that posts the candidate, and whether the socket emit
    throws. *)
Record IceSendEnv : Type := mkIceSendEnv {
  ice_info : PeersResponse;
  ice_post : PostResult;
  ice_emitError : option JsError
}.

(** [sendIceCandidate(callId, from, candidate)]. *)
Definition sendIceCandidate (env : IceSendEnv) (callId : string)
  (from : Role) (candidate : IceCandidate) : MX unit :=
  (s <- getX ;;
   match currentDeviceId s with
   | None => retX tt
   | Some deviceId =>
       if negb (truthy_str (Some deviceId)) then retX tt
       else
         try_catchX
           (peerDeviceId <-
              try_catchX
                (emitX (Core (RelayPoll callId)) ;;
                 match ice_info env with
                 | PeersThrows e => throwX e
                 | PeersNotOk _ => retX None
                 | PeersJson peers =>
                     retX (match from with
                           | role_caller => cp_toDeviceId peers
                           | role_callee => cp_fromDeviceId peers
                           end)
                 end)
                (fun _ => retX None) ;;
            emitX (RelayCandidate callId from candidate deviceId) ;;
            match ice_post env with
            | PostThrows e => throwX e
            | PostStatus _ _ =>
                s1 <- getX ;;
                match socket s1 with
                | Some true =>
                    if truthy_str peerDeviceId then
                      match peerDeviceId with
                      | Some toDeviceId =>
                          try_catchX
                            (emitX (SocketEmitIceCandidate callId candidate
                                      deviceId toDeviceId) ;;
                             match ice_emitError env with
                             | Some e => throwX e
                             | None => retX tt
                             end)
                            (fun _ => retX tt)
                      | None => retX tt
                      end
                    else retX tt
                | _ => retX tt
                end
            end)
           (fun _ => retX tt)
   end)%action.

(** The peer's device as [sendIceCandidate] learns it. *)
Definition peerDeviceOf (from : Role) (r : PeersResponse) : option string :=
  match r with
  | PeersJson peers =>
      match from with
      | role_caller => cp_toDeviceId peers
      | role_callee => cp_fromDeviceId peers
      end
  | _ => None
  end.

Definition isSocketEmitIceCandidate (a : Action) : bool :=
  match a with SocketEmitIceCandidate _ _ _ _ => true | _ => false end.

(** The relay knows both devices but answers the post with an error. *)
Definition iceEnvPostRefused : IceSendEnv :=
  mkIceSendEnv (PeersJson (mkCallPeers (Some "dev-2") (Some "dev-1")))
               (PostStatus false "500") None.

(** The relay knows the caller's device and accepts the answer. *)
Definition sendEnvOk : SendEnv :=
  mkSendEnv (InfoJson (mkCallInfo (Some sampleOffer) (Some "dev-2")))
            (PostStatus true "200") "" None.

(** [answerCall] meets a browser and a relay that cooperate. *)
Definition answerEnvOk : AnswerEnv :=
  mkAnswerEnv (InfoJson (mkCallInfo (Some sampleOffer) (Some "dev-2")))
              (mkMediaEnv (Some 20%nat) 2)
              (InfoJson (mkCallInfo (Some sampleOffer) (Some "dev-2")))
              (Normal sampleAnswer) None sendEnvOk.


(** The last effects of a successful [answerCall]: the two callbacks,
    for the service they are called in. *)
Definition answeredCallbacks (s : Service) : list Action :=
  map Core (cbState s answered (callerName s)
            ++ cbActive s true (activeCallStartedAt s)).

Definition isCreateAnswer (a : Action) : bool :=
  match a with EngineCreateAnswer _ => true | _ => false end.

Definition isRelayAnswer (a : Action) : bool :=
  match a with RelayAnswer _ _ _ => true | _ => false end.

Definition isSocketEmitAnswer (a : Action) : bool :=
  match a with SocketEmitAnswer _ _ _ _ => true | _ => false end.

(** The caller's device as [sendAnswerToBackend] learns it from the
    relay: none when the request fails or names none. *)
Definition callerDeviceOf (r : CallInfoResponse) : option string :=
  match r with
  | InfoJson info => or_str (ci_fromDeviceId info) None
  | _ => None
  end.

(** The relay refuses the answer. *)
Definition sendEnvRefused : SendEnv :=
  mkSendEnv (InfoJson (mkCallInfo (Some sampleOffer) (Some "dev-2")))
            (PostStatus false "409") "call is over" None.

Definition answerEnvRefused : AnswerEnv :=
  mkAnswerEnv (InfoJson (mkCallInfo (Some sampleOffer) (Some "dev-2")))
              (mkMediaEnv (Some 20%nat) 2)
              (InfoJson (mkCallInfo (Some sampleOffer) (Some "dev-2")))
              (Normal sampleAnswer) None sendEnvRefused.

(** Every run of a local action that returns normally ends in a service
    and a trace with property [P]. *)
Definition succeeds {A : Type} (P : Service -> list Action -> Prop)
  (r : Completion A * Service * list Action) : Prop :=
  forall u s' t, r = (Normal u, s', t) -> P s' t.

(** What a successful [answerCall] at time [now] has done. *)
Definition answeredAt (now : Z) (s' : Service) (t : list Action) : Prop :=
  currentCallState s' = answered /\
  activeCallStartedAt s' = Some now /\
  exists l, t = l ++ answeredCallbacks s' /\ existsb isRelayAnswer l = true.

Definition postsAnswer (_ : Service) (t : list Action) : Prop :=
  existsb isRelayAnswer t = true.

Definition isReleaseAction (a : Action) : bool :=
  match a with Core e => isRelease e | _ => false end.

(** The relay does not know the call. *)
Definition answerEnvNoCall : AnswerEnv :=
  mkAnswerEnv (InfoNotOk "404") (mkMediaEnv (Some 20%nat) 2)
              (InfoNotOk "404") (Normal sampleAnswer) None sendEnvOk.

(* ================================================================== *)
(** ** One ['answer'] event and its two listeners *)

(** The socket calls the listeners of an event one after the other, in
    the order they were registered: the global handler, installed with
    the socket, then the temporary listener of [waitForAnswer].  Each is
    an [async] function: it runs until its first [await] and then
    returns to the dispatcher, which calls the next one.  The engine
    takes an operation when it is called and changes the properties the
    service observes only when the operation settles, which is after the
    dispatch.  Where a listener stands when the dispatcher goes on: *)
Inductive Suspension : Type :=
| Finished
| AwaitSetRemoteDescription
| AwaitProcessQueuedIceCandidates.

(** [processQueuedIceCandidates(callId)] up to its first [await]: the
    loop goes on through the entries without a candidate and stops at
    the first call of [addIceCandidate]. *)
Fixpoint addFirstCandidate (candidatesToProcess : list IceCandidateMsg)
  : M unit :=
  match candidatesToProcess with
  | [] => ret tt
  | data :: rest =>
      s1 <- get ;;
      match ice_candidate data, pc s1 with
      | Some c, Some p =>
          if truthy_obj (remoteDescription p)
          then emit (EngineAddIceCandidate (pc_id p) c)
          else addFirstCandidate rest
      | _, _ => addFirstCandidate rest
      end
  end.

Definition processQueuedIceCandidatesUntilAwait (callId : string) : M unit :=
  s <- get ;;
  if negb (pcHasRemoteDescription s) then ret tt
  else
    let candidatesToProcess :=
      filter (fun c => (ice_callId c =? callId)%string) (queuedIceCandidates s) in
    if (length candidatesToProcess =? 0)%nat then ret tt
    else
      modify (set_queuedIceCandidates
                (filter (fun c => negb (ice_callId c =? callId)%string)
                        (queuedIceCandidates s))) ;;
      addFirstCandidate candidatesToProcess.

(** The global ['answer'] handler up to its first [await]. *)
Definition onAnswerUntilAwait (data : AnswerMsg) : M Suspension :=
  s <- get ;;
  match pc s with
  | Some p =>
      if strict_eq (activeCallUUID s) (ans_callId data) then
        let st := signalingState p in
        let shouldProcess :=
          (CallState_eqb (currentCallState s) calling
           || CallState_eqb (currentCallState s) ringing)
          || (CallState_eqb (currentCallState s) answered
              && negb (answerAlreadySet st)) in
        if negb shouldProcess then ret Finished
        else
          match st with
          | have_local_offer =>
              emit (EngineSetRemoteDescription (pc_id p) (ans_answer data)) ;;
              ret AwaitSetRemoteDescription
          | stable | have_remote_pranswer =>
              processQueuedIceCandidatesUntilAwait (ans_callId data) ;;
              ret AwaitProcessQueuedIceCandidates
          | _ =>
              emit (EngineSetRemoteDescription (pc_id p) (ans_answer data)) ;;
              ret AwaitSetRemoteDescription
          end
      else ret Finished
  | None => ret Finished
  end.

(** The temporary listener of [waitForAnswer] up to its first
    [await]. *)
Definition waitForAnswerListenerUntilAwait (callId : string) (currentPc : nat)
  (now : Z) (data : AnswerMsg) : MX Suspension :=
  (s <- getX ;;
   match pc s with
   | Some p =>
       if (ans_callId data =? callId)%string && samePc currentPc s then
         emitX (ClearTimeout AnswerTimeout) ;;
         emitX SocketOff ;;
         if answerAlreadySet (signalingState p) then
           (if negb (CallState_eqb (currentCallState s) answered)
            then lift (answeredBackfillTimer now)
            else retX tt) ;;
           emitX Resolve ;;
           retX Finished
         else
           match signalingState p with
           | have_local_offer =>
               emitX (Core (EngineSetRemoteDescription (pc_id p)
                                                       (ans_answer data))) ;;
               retX AwaitSetRemoteDescription
           | st =>
               emitX (Reject (Error ("Wrong signaling state: "
                                     ++ signalingStateName st)%string)) ;;
               retX Finished
           end
       else retX Finished
   | None => retX Finished
   end)%action.

(** The synchronous dispatch of one ['answer'] event while the temporary
    listener for [callId] and [currentPc] is registered. *)
Definition dispatchAnswer (callId : string) (currentPc : nat) (now : Z)
  (data : AnswerMsg) : MX (Suspension * Suspension) :=
  (g <- lift (onAnswerUntilAwait data) ;;
   l <- waitForAnswerListenerUntilAwait callId currentPc now data ;;
   retX (g, l))%action.

Definition isSetRemoteDescriptionAction (a : Action) : bool :=
  match a with Core e => isSetRemoteDescription e | _ => false end.

(* ================================================================== *)
(** ** Display helpers and the server check *)

(** [User] of [users-api.ts], with the fields [getUserDisplayName]
    reads. *)
Record UserNames : Type := mkUserNames {
  un_name : option string;
  un_fName : option string;
  un_lName : option string;
  un_email : option string;
  un_phone : option string;
  un_loyaltyId : string
}.

(** The string a truthy [string | null] holds. *)
Definition text (o : option string) : string :=
  match o with Some x => x | None => "" end.

(** [xs.filter(Boolean)] *)
Definition filterBoolean (xs : list (option string)) : list string :=
  map text (filter truthy_str xs).

(** [getUserDisplayName(user)]; [String.concat] is [join]. *)
Definition getUserDisplayName (user : UserNames) : string :=
  if truthy_str (un_name user) then text (un_name user)
  else if truthy_str (un_fName user) || truthy_str (un_lName user) then
    String.concat " " (filterBoolean [un_fName user; un_lName user])
  else if truthy_str (un_email user) then text (un_email user)
  else if truthy_str (un_phone user) then text (un_phone user)
  else "User " ++ un_loyaltyId user.

(** [n.toString()] for an integer. *)
Definition toString (n : Z) : string :=
  DecimalString.NilEmpty.string_of_int (Z.to_int n).

(** [s.padStart(targetLength, "0")]. *)
Definition padStart0 (targetLength : nat) (s : string) : string :=
  String.concat "" (repeat "0" (targetLength - String.length s)) ++ s.

(** [formatCallTime(totalSeconds)] of the page and of the call modal,
    for an integer number of seconds: [Math.floor] of the quotient is
    [Z.div], [%] is [Z.rem]. *)
Definition formatCallTime (totalSeconds : Z) : string :=
  let m := totalSeconds / 60 in
  let s := Z.rem totalSeconds 60 in
  padStart0 2 (toString m) ++ ":" ++ padStart0 2 (toString s).

(** Reading a time of the form [dd:dd] back. *)
Definition digitOf (c : Ascii.ascii) : option Z :=
  let n := Z.of_nat (Ascii.nat_of_ascii c) in
  if (48 <=? n) && (n <=? 57) then Some (n - 48) else None.

Definition readCallTime (str : string) : option Z :=
  match str with
  | String a (String b (String sep (String c (String d EmptyString)))) =>
      match digitOf a, digitOf b, digitOf c, digitOf d with
      | Some a', Some b', Some c', Some d' =>
          if (Ascii.nat_of_ascii sep =? 58)%nat   (* a colon *)
          then Some ((10 * a' + b') * 60 + (10 * c' + d'))
          else None
      | _, _, _, _ => None
      end
  | _ => None
  end.

(** [ServerStatus]. *)
Inductive ServerType : Type := stun | turn.
Inductive StatusKind : Type :=
  checking | available | unavailable | status_error.

Record ServerStatus : Type := mkServerStatus {
  ss_url : string;
  ss_type : ServerType;
  ss_status : StatusKind;
  ss_latency : option Z
}.

(** [RTCIceServer.urls]: one url or an array. *)
Inductive Urls : Type := OneUrl (url : string) | ManyUrls (urls : list string).

(** What the test connection for a url does: something throws, or the
    gathering ends (or times out) after [latency] ms with or without a
    candidate in the local description. *)
Inductive ProbeOutcome : Type :=
| ProbeThrows
| ProbeDone (hasCandidates : bool) (latency : Z).

(** One round of the loop of [checkServerStatus]: the status object as
    it is when the round ends. *)
Definition checkUrl (probe : string -> ProbeOutcome) (url : string)
  : ServerStatus :=
  let isStun := String.prefix "stun:" url in
  let type := if isStun then stun else turn in
  match probe url with
  | ProbeDone true latency => mkServerStatus url type available (Some latency)
  | ProbeDone false _ => mkServerStatus url type unavailable None
  | ProbeThrows => mkServerStatus url type status_error None
  end.

Fixpoint checkUrls (probe : string -> ProbeOutcome) (urls : list string)
  (results : list ServerStatus) : list ServerStatus :=
  match urls with
  | [] => results
  | url :: rest => checkUrls probe rest (results ++ [checkUrl probe url])
  end.

(** [checkServerStatus(server)]. *)
Definition checkServerStatus (probe : string -> ProbeOutcome) (server : Urls)
  : list ServerStatus :=
  let urls := match server with OneUrl u => [u] | ManyUrls us => us end in
  checkUrls probe urls [].

(** [getIceServers()], the urls. *)
Definition getIceServers : list Urls :=
  [OneUrl "stun:109.205.58.195:3478";
   ManyUrls ["turn:109.205.58.195:3478?transport=udp"]].

Fixpoint checkServers (probe : string -> ProbeOutcome) (servers : list Urls)
  (allStatuses : list ServerStatus) : list ServerStatus :=
  match servers with
  | [] => allStatuses
  | server :: rest =>
      checkServers probe rest (allStatuses ++ checkServerStatus probe server)
  end.

(** [checkAllServersStatus()]. *)
Definition checkAllServersStatus (probe : string -> ProbeOutcome)
  : list ServerStatus :=
  checkServers probe getIceServers [].

(** A status as [checkServerStatus] may return it. *)
Definition settledStatus (st : ServerStatus) : Prop :=
  ss_status st <> checking /\
  (ss_status st = available <-> ss_latency st <> None) /\
  (ss_type st = stun <-> String.prefix "stun:" (ss_url st) = true).


(* ================================================================== *)
(** ** Running computations *)

Ltac run :=
  unfold bind, try_catch, get, modify, emit, ret, throw; cbn.

(** The message test recognises the engine's wrong-state rejection and
    nothing else the engines here produce. *)
Example wrong_state_recognised :
  isWrongStateError (Error (wrongStateMessage have_remote_offer)) = true /\
  isWrongStateError (Error "The remote description was null") = false /\
  isWrongStateError (Error "") = false.
Proof. repeat split. Qed.

Lemma set_queuedIceCandidates_same (s : Service) :
  set_queuedIceCandidates (queuedIceCandidates s) s = s.
Proof. destruct s; reflexivity. Qed.

Lemma matching_notMatching (callId : string) (q : list IceCandidateMsg) :
  matching callId (notMatching callId q) = [].
Proof.
  unfold matching, notMatching.
  induction q as [|m q IH]; cbn; [reflexivity|].
  destruct (ice_callId m =? callId)%string eqn:Hm; cbn; [exact IH|].
  rewrite Hm. exact IH.
Qed.

Lemma matching_nil_notMatching (callId : string) (q : list IceCandidateMsg) :
  matching callId q = [] -> notMatching callId q = q.
Proof.
  unfold matching, notMatching.
  induction q as [|m q IH]; cbn; [reflexivity|].
  destruct (ice_callId m =? callId)%string; cbn; [discriminate|].
  intros H. now rewrite IH.
Qed.

Section Drain.

Context (E : Engine).

(** The loop of the drain applies the candidates one after the other and
    leaves the service as it is, whatever the engine answers. *)
Lemma drain_loop (p : PeerConnection) (rd : SessionDescription)
  (l : list IceCandidateMsg) :
  forall s,
    pc s = Some p -> remoteDescription p = Some rd ->
    for_each l (fun data =>
        try_catch
          (s1 <- get ;;
           match ice_candidate data, pc s1 with
           | Some c, Some p =>
               if truthy_obj (remoteDescription p) then addIceCandidate E p c
               else ret tt
           | _, _ => ret tt
           end)
          (fun _ => ret tt)) s
    = (Normal tt, s, map (EngineAddIceCandidate (pc_id p)) (candidatesOf l)).
Proof.
  induction l as [|m l IH]; intros s Hpc Hrd; [reflexivity|].
  cbn [for_each]. unfold bind at 1.
  assert (Hstep :
    try_catch
      (s1 <- get ;;
       match ice_candidate m, pc s1 with
       | Some c, Some p =>
           if truthy_obj (remoteDescription p) then addIceCandidate E p c
           else ret tt
       | _, _ => ret tt
       end)
      (fun _ => ret tt) s
    = (Normal tt, s,
       map (EngineAddIceCandidate (pc_id p)) (candidatesOf [m]))).
  { unfold try_catch, bind, get. cbn. rewrite Hpc.
    destruct (ice_candidate m) as [c|]; cbn; [|reflexivity].
    rewrite Hrd. cbn. unfold addIceCandidate. run.
    destruct (addIceCandidate_error E p c); reflexivity. }
  rewrite Hstep, (IH s Hpc Hrd).
  cbn. destruct (ice_candidate m); reflexivity.
Qed.

(** What [processQueuedIceCandidates] does once a remote description is
    established. *)
Lemma drain_run (callId : string) (s : Service) (p : PeerConnection)
  (rd : SessionDescription) :
  pc s = Some p -> remoteDescription p = Some rd ->
  processQueuedIceCandidates E callId s
  = (Normal tt,
     set_queuedIceCandidates (notMatching callId (queuedIceCandidates s)) s,
     map (EngineAddIceCandidate (pc_id p))
         (candidatesOf (matching callId (queuedIceCandidates s)))).
Proof.
  intros Hpc Hrd.
  unfold processQueuedIceCandidates. unfold bind at 1. unfold get at 1.
  unfold pcHasRemoteDescription. rewrite Hpc, Hrd. cbn [truthy_obj negb].
  fold (matching callId (queuedIceCandidates s)).
  fold (notMatching callId (queuedIceCandidates s)).
  destruct (matching callId (queuedIceCandidates s)) as [|m l] eqn:Hm.
  - cbn. rewrite (matching_nil_notMatching _ _ Hm).
    now rewrite set_queuedIceCandidates_same.
  - cbn [length Nat.eqb]. unfold bind at 1. unfold modify at 1.
    rewrite (drain_loop p rd (m :: l)); [reflexivity| |exact Hrd].
    destruct s; exact Hpc.
Qed.

(** Without a peer connection or without a remote description the drain
    does nothing. *)
Lemma drain_not_ready (callId : string) (s : Service) :
  pcHasRemoteDescription s = false ->
  processQueuedIceCandidates E callId s = (Normal tt, s, []).
Proof.
  intros H. unfold processQueuedIceCandidates, bind, get. now rewrite H.
Qed.

End Drain.

(* ================================================================== *)
(** ** The candidate queue *)

(** C3 (as the code has it): once a remote description is established,
    [processQueuedIceCandidates callId] hands the queued candidates of
    [callId] to the engine in arrival order, once each, whatever the
    engine answers; it has removed them from the queue, so a second drain
    applies nothing; and the entries of other calls stay in the queue,
    in order and unapplied. *)
Theorem drain_applies_matching_keeps_others
  (E : Engine) (callId : string) (s : Service) (p : PeerConnection)
  (rd : SessionDescription) :
  pc s = Some p -> remoteDescription p = Some rd ->
  let r := processQueuedIceCandidates E callId s in
  result_of r = Normal tt /\
  effects_of r =
    map (EngineAddIceCandidate (pc_id p))
        (candidatesOf (matching callId (queuedIceCandidates s))) /\
  state_of r =
    set_queuedIceCandidates (notMatching callId (queuedIceCandidates s)) s /\
  matching callId (queuedIceCandidates (state_of r)) = [] /\
  effects_of (processQueuedIceCandidates E callId (state_of r)) = [].
Proof.
  intros Hpc Hrd r. subst r.
  rewrite (drain_run E callId s p rd Hpc Hrd).
  unfold result_of, effects_of, state_of. cbn [fst snd].
  repeat split.
  - destruct s; cbn. apply matching_notMatching.
  - rewrite (drain_run E callId _ p rd); [|destruct s; exact Hpc|exact Hrd].
    cbn [snd]. replace (queuedIceCandidates (set_queuedIceCandidates _ s))
      with (notMatching callId (queuedIceCandidates s)) by (destruct s; reflexivity).
    now rewrite matching_notMatching.
Qed.

Lemma drain_applies_matching_keeps_others_witness :
  let r := processQueuedIceCandidates jsepEngine "call-A" calleeWithMixedQueue in
  result_of r = Normal tt /\
  effects_of r = [EngineAddIceCandidate 1 "candidate:a1"] /\
  state_of r =
    set_queuedIceCandidates
      [mkIce "call-B" (Some "candidate:b1") "dev-3"] calleeWithMixedQueue /\
  matching "call-A" (queuedIceCandidates (state_of r)) = [] /\
  effects_of (processQueuedIceCandidates jsepEngine "call-A" (state_of r)) = [].
Proof.
  exact (drain_applies_matching_keeps_others jsepEngine "call-A"
           calleeWithMixedQueue
           (mkPC 1 have_remote_offer (Some sampleOffer) None) sampleOffer
           eq_refl eq_refl).
Defined.

(** C3 as stated fails: draining ["call-A"] from a queue that also holds
    an entry of ["call-B"] applies the one candidate of ["call-A"] and
    leaves the entry of ["call-B"] in the queue instead of discarding
    it. *)
Lemma drain_does_not_discard_others :
  let r := processQueuedIceCandidates jsepEngine "call-A" calleeWithMixedQueue in
  effects_of r = [EngineAddIceCandidate 1 "candidate:a1"] /\
  queuedIceCandidates (state_of r)
    = [mkIce "call-B" (Some "candidate:b1") "dev-3"] /\
  queuedIceCandidates (state_of r) <> [].
Proof.
  cbv zeta. repeat split; try reflexivity. discriminate.
Qed.




(* ================================================================== *)
(** ** Teardown *)

(** [endVoiceCall] always completes, and does exactly this. *)
Lemma endVoiceCall_run (s : Service) :
  endVoiceCall s = (Normal tt, tornDown s, teardownEffects s).
Proof.
  destruct s as [pc0 ls rs act loy dev sock started ini st name mu sp q cb1 cb2].
  unfold endVoiceCall, tornDown, teardownEffects,
    callOnCallStateChange, callOnCallActiveChange.
  destruct q, pc0, ls, rs, act as [[|? ?]|], dev as [[|? ?]|], cb1, cb2;
    reflexivity.
Qed.

Lemma tornDown_idempotent (s : Service) : tornDown (tornDown s) = tornDown s.
Proof. reflexivity. Qed.

Lemma teardownEffects_tornDown (s : Service) :
  teardownEffects (tornDown s) =
  (if onCallStateChange s then [CbCallStateChange idle None] else []) ++
  (if onCallActiveChange s then [CbCallActiveChange false None] else []).
Proof. reflexivity. Qed.

Lemma relayEnd_at_most_once (s : Service) :
  (length (filter isRelayEnd (teardownEffects s)) <= 1)%nat.
Proof.
  unfold teardownEffects.
  destruct (pc s), (localStream s), (remoteStream s),
    (activeCallUUID s) as [[|? ?]|], (currentDeviceId s) as [[|? ?]|],
    (onCallStateChange s), (onCallActiveChange s); cbn; lia.
Qed.

(** C5: [endCall] in any state completes the teardown: the state is
    [idle], the service holds no peer connection and no stream, the
    connection and the streams it held have been closed and stopped, and
    at most one end notification goes to the relay; calling it a second
    time right after changes nothing, sends nothing to the relay and has
    nothing left to release. *)
Theorem endCall_idempotent_teardown (s : Service) :
  let r1 := endCall s in
  let r2 := endCall (state_of r1) in
  result_of r1 = Normal tt /\ result_of r2 = Normal tt /\
  currentCallState (state_of r1) = idle /\
  state_of r2 = state_of r1 /\
  (length (filter isRelayEnd (effects_of r1 ++ effects_of r2)) <= 1)%nat /\
  filter isRelayEnd (effects_of r2) = [] /\
  filter isRelease (effects_of r2) = [] /\
  pc (state_of r1) = None /\
  localStream (state_of r1) = None /\
  remoteStream (state_of r1) = None /\
  (forall p, pc s = Some p -> In (EngineClose (pc_id p)) (effects_of r1)) /\
  (forall l, localStream s = Some l -> In (MediaStop l) (effects_of r1)) /\
  (forall m, remoteStream s = Some m -> In (MediaStop m) (effects_of r1)).
Proof.
  intros r1 r2. subst r1 r2. unfold endCall.
  rewrite (endVoiceCall_run s).
  unfold state_of, result_of, effects_of. cbn [fst snd].
  rewrite (endVoiceCall_run (tornDown s)). cbn [fst snd].
  rewrite teardownEffects_tornDown.
  assert (Hcb : forall f, (forall e, isCallback e = true -> f e = false) ->
            filter f ((if onCallStateChange s
                       then [CbCallStateChange idle None] else []) ++
                      (if onCallActiveChange s
                       then [CbCallActiveChange false None] else [])) = []).
  { intros f Hf.
    destruct (onCallStateChange s), (onCallActiveChange s); cbn;
      repeat rewrite Hf by reflexivity; reflexivity. }
  repeat split; try reflexivity.
  - rewrite filter_app, Hcb, app_nil_r.
    + apply relayEnd_at_most_once.
    + intros [] H; cbn in *; congruence.
  - apply Hcb. intros [] H; cbn in *; congruence.
  - apply Hcb. intros [] H; cbn in *; congruence.
  - intros p Hp. unfold teardownEffects. rewrite Hp. cbn. now left.
  - intros l Hl. unfold teardownEffects. rewrite Hl.
    apply in_or_app. right. cbn. now left.
  - intros m Hm. unfold teardownEffects. rewrite Hm.
    apply in_or_app. right. apply in_or_app. right. cbn. now left.
Qed.

Lemma endCall_idempotent_teardown_witness :
  In (EngineClose 1) (effects_of (endCall answeredCall)) /\
  In (MediaStop 10) (effects_of (endCall answeredCall)) /\
  In (MediaStop 11) (effects_of (endCall answeredCall)).
Proof.
  pose proof (endCall_idempotent_teardown answeredCall) as H.
  cbv zeta in H.
  destruct H as (_ & _ & _ & _ & _ & _ & _ & _ & _ & _ & Hp & Hl & Hm).
  split; [|split].
  - exact (Hp _ eq_refl).
  - exact (Hl _ eq_refl).
  - exact (Hm _ eq_refl).
Defined.

(** C10: after [endCall], from any state, [getCallState] reports [idle]
    with no caller name and no call id, [getActiveCallInfo] reports an
    inactive call with no start time, the candidate queue is empty, and
    the callbacks fired during the call are exactly the registered ones,
    with the reset values [(idle, null)] and [(false, null)]. *)
Theorem endCall_resets_observable_state (s : Service) :
  let r := endCall s in
  result_of r = Normal tt /\
  info_state (getCallState (state_of r)) = idle /\
  info_callerName (getCallState (state_of r)) = None /\
  info_callUUID (getCallState (state_of r)) = None /\
  info_isActive (getActiveCallInfo (state_of r)) = false /\
  info_startedAt (getActiveCallInfo (state_of r)) = None /\
  queuedIceCandidates (state_of r) = [] /\
  filter isCallback (effects_of r) =
    (if onCallStateChange s then [CbCallStateChange idle None] else []) ++
    (if onCallActiveChange s then [CbCallActiveChange false None] else []).
Proof.
  intros r. subst r. unfold endCall. rewrite (endVoiceCall_run s).
  unfold state_of, result_of, effects_of. cbn [fst snd].
  repeat split.
  unfold teardownEffects.
  destruct (pc s), (localStream s), (remoteStream s),
    (activeCallUUID s) as [[|? ?]|], (currentDeviceId s) as [[|? ?]|],
    (onCallStateChange s), (onCallActiveChange s); reflexivity.
Qed.

(* ================================================================== *)
(** ** Building blocks of the answer paths *)

Lemma bind_normal {A B : Type} (m : M A) (k : A -> M B) (s s1 : Service)
  (a : A) (t1 : list Effect) :
  m s = (Normal a, s1, t1) ->
  bind m k s = (let '(r, s2, t2) := k a s1 in (r, s2, t1 ++ t2)).
Proof. intros H. unfold bind. rewrite H. reflexivity. Qed.

Lemma bind_throw {A B : Type} (m : M A) (k : A -> M B) (s s1 : Service)
  (e : JsError) (t1 : list Effect) :
  m s = (Throw e, s1, t1) -> bind m k s = (Throw e, s1, t1).
Proof. intros H. unfold bind. now rewrite H. Qed.

Lemma answeredStartTimer_run (now : Z) (s : Service) :
  answeredStartTimer now s
  = (Normal tt,
     set_activeCallStartedAt (Some now) (set_currentCallState answered s),
     cbState s answered (callerName s) ++ cbActive s true (Some now)).
Proof.
  unfold answeredStartTimer, callOnCallStateChange, callOnCallActiveChange,
    cbState, cbActive.
  destruct s as [? ? ? ? ? ? ? ? ? ? ? ? ? ? cb1 cb2].
  destruct cb1, cb2; reflexivity.
Qed.

Lemma answeredBackfillTimer_run (now : Z) (s : Service) :
  answeredBackfillTimer now s
  = (Normal tt,
     set_activeCallStartedAt (backfilled now s)
       (set_currentCallState answered s),
     cbState s answered (callerName s) ++ cbActive s true (backfilled now s)).
Proof.
  unfold answeredBackfillTimer, callOnCallStateChange, callOnCallActiveChange,
    cbState, cbActive, backfilled.
  destruct s as [? ? ? ? ? ? ? started ? ? ? ? ? ? cb1 cb2].
  destruct started as [z|]; [destruct (Z.eqb_spec z 0)|];
    destruct cb1, cb2; run;
    try (destruct (Z.eqb_spec z 0); [contradiction|]);
    try (subst; cbn); reflexivity.
Qed.

(** While the call is [answered] with a started timer, the backfill
    block leaves the service as it is. *)
Lemma backfill_noop (now : Z) (s : Service) :
  currentCallState s = answered ->
  truthy_num (activeCallStartedAt s) = true ->
  set_activeCallStartedAt (backfilled now s) (set_currentCallState answered s)
  = s.
Proof.
  intros Hst Ht. unfold backfilled. rewrite Ht.
  destruct s; cbn in *. now subst.
Qed.

Section AnswerBlocks.

Context (E : Engine).

Lemma setRemoteDescription_ok (p : PeerConnection) (d : SessionDescription)
  (s : Service) :
  setRemoteDescription_error E p d = None ->
  setRemoteDescription E p d s
  = (Normal tt, set_pc (Some (applyRemoteDescription p d)) s,
     [EngineSetRemoteDescription (pc_id p) d]).
Proof. intros H. unfold setRemoteDescription. run. now rewrite H. Qed.

Lemma setRemoteDescription_rejected (p : PeerConnection)
  (d : SessionDescription) (s : Service) (msg : string) :
  setRemoteDescription_error E p d = Some msg ->
  setRemoteDescription E p d s
  = (Throw (Error msg), s, [EngineSetRemoteDescription (pc_id p) d]).
Proof. intros H. unfold setRemoteDescription. run. now rewrite H. Qed.

(** The drain never fails, never touches anything but the queue, and
    only ever hands candidates to the engine. *)
Lemma drain_shape (callId : string) (s : Service) :
  exists q cs,
    processQueuedIceCandidates E callId s
    = (Normal tt, set_queuedIceCandidates q s, cs) /\
    filter isSetRemoteDescription cs = [] /\
    filter isRelayRequest cs = [] /\
    filter isCallback cs = [] /\
    filter isPacing cs = [].
Proof.
  destruct (pcHasRemoteDescription s) eqn:H.
  - unfold pcHasRemoteDescription in H.
    destruct (pc s) as [p|] eqn:Hpc; [|discriminate].
    destruct (remoteDescription p) as [rd|] eqn:Hrd; [|discriminate].
    eexists. eexists. split; [apply (drain_run E callId s p rd Hpc Hrd)|].
    generalize (candidatesOf (matching callId (queuedIceCandidates s))).
    intros l. repeat split; induction l; cbn; auto.
  - exists (queuedIceCandidates s), []. rewrite drain_not_ready by exact H.
    now rewrite set_queuedIceCandidates_same.
Qed.

End AnswerBlocks.

(* ================================================================== *)
(** ** The two deliveries of an answer *)

Section AnswerPaths.
Context (E : Engine).

(** The push handler applies an answer that arrives after the local
    offer while the call is [calling]. *)
Lemma onAnswer_applies (now : Z) (data : AnswerMsg) (s : Service)
  (p : PeerConnection) :
  pc s = Some p ->
  strict_eq (activeCallUUID s) (ans_callId data) = true ->
  signalingState p = have_local_offer ->
  currentCallState s = calling ->
  setRemoteDescription_error E p (ans_answer data) = None ->
  exists q cs,
  onAnswer E now data s
  = (Normal tt,
     set_activeCallStartedAt (Some now)
       (set_currentCallState answered
          (set_queuedIceCandidates q
             (set_pc (Some (applyRemoteDescription p (ans_answer data))) s))),
     EngineSetRemoteDescription (pc_id p) (ans_answer data) :: cs ++
     cbState s answered (callerName s) ++ cbActive s true (Some now))
  /\ filter isSetRemoteDescription cs = [].
Proof.
  intros Hpc Hact Hsig Hst Hok.
  destruct (drain_shape E (ans_callId data)
              (set_pc (Some (applyRemoteDescription p (ans_answer data))) s))
    as (q & cs & Hdrain & Hsrd & _ & _).
  exists q, cs. split; [|exact Hsrd].
  unfold onAnswer. unfold bind at 1. unfold get at 1.
  rewrite Hpc, Hact, Hsig, Hst. cbn [CallState_eqb orb negb].
  unfold try_catch.
  rewrite (bind_normal _ _ _ _ _ _ (setRemoteDescription_ok E p _ s Hok)).
  rewrite (bind_normal _ _ _ _ _ _ Hdrain).
  rewrite answeredStartTimer_run.
  destruct s; reflexivity.
Qed.

(** The push handler ignores an answer for a call that is [answered]
    when the engine already has one. *)
Lemma onAnswer_already_set (now : Z) (data : AnswerMsg) (s : Service)
  (p : PeerConnection) :
  pc s = Some p ->
  answerAlreadySet (signalingState p) = true ->
  currentCallState s = answered ->
  onAnswer E now data s = (Normal tt, s, []).
Proof.
  intros Hpc Hset Hst.
  unfold onAnswer. unfold bind at 1. unfold get at 1.
  rewrite Hpc, Hset, Hst.
  destruct (strict_eq _ _); reflexivity.
Qed.

(** The poll applies an answer it finds after the local offer. *)
Lemma pollBody_applies (callId : string) (now : Z) (a : SessionDescription)
  (s : Service) (p : PeerConnection) :
  pc s = Some p ->
  truthy_str (activeCallUUID s) = true ->
  signalingState p = have_local_offer ->
  truthy_str (sd_sdp a) = true ->
  setRemoteDescription_error E p a = None ->
  exists q cs,
  pollBody E callId (pc_id p) (quietTick (RespJson (Some a)) now) s
  = (Normal LoopReturn,
     set_activeCallStartedAt (Some now)
       (set_currentCallState answered
          (set_queuedIceCandidates q
             (set_pc (Some (applyRemoteDescription p a)) s))),
     RelayPoll callId :: EngineSetRemoteDescription (pc_id p) a :: cs ++
     cbState s answered (callerName s) ++ cbActive s true (Some now))
  /\ filter isSetRemoteDescription cs = [].
Proof.
  intros Hpc Hact Hsig Hsdp Hok.
  destruct (drain_shape E callId (set_pc (Some (applyRemoteDescription p a)) s))
    as (q & cs & Hdrain & Hsrd & _ & _).
  exists q, cs. split; [|exact Hsrd].
  unfold pollBody. unfold bind at 1. unfold get at 1.
  unfold pollCancelled, samePc. rewrite Hpc, Hact, Nat.eqb_refl.
  cbn [negb orb]. unfold try_catch at 1.
  unfold bind at 1. unfold emit at 1.
  unfold bind at 1. unfold modify at 1. cbn [quietTick duringFetch response].
  unfold bind at 1. unfold get at 1.
  rewrite Hpc, Hsdp, Nat.eqb_refl, Hsig. cbn [andb].
  unfold try_catch.
  rewrite (bind_normal _ _ _ _ _ _ (setRemoteDescription_ok E p _ s Hok)).
  rewrite (bind_normal _ _ _ _ _ _ Hdrain).
  rewrite (bind_normal _ _ _ _ _ _ (answeredStartTimer_run _ _)).
  cbn [tickNow]. destruct s; cbn.
  rewrite <- !app_assoc. rewrite app_nil_r. reflexivity.
Qed.

(** The poll, finding the answer already set, only reconciles. *)
Lemma pollBody_already_set (callId : string) (now : Z) (a : SessionDescription)
  (s : Service) (p : PeerConnection) :
  pc s = Some p ->
  truthy_str (activeCallUUID s) = true ->
  answerAlreadySet (signalingState p) = true ->
  truthy_str (sd_sdp a) = true ->
  pollBody E callId (pc_id p) (quietTick (RespJson (Some a)) now) s
  = (Normal LoopReturn,
     set_activeCallStartedAt (backfilled now s)
       (set_currentCallState answered s),
     RelayPoll callId ::
     cbState s answered (callerName s) ++ cbActive s true (backfilled now s)).
Proof.
  intros Hpc Hact Hset Hsdp.
  unfold pollBody. unfold bind at 1. unfold get at 1.
  unfold pollCancelled, samePc. rewrite Hpc, Hact, Nat.eqb_refl.
  cbn [negb orb]. unfold try_catch at 1.
  unfold bind at 1. unfold emit at 1.
  unfold bind at 1. unfold modify at 1. cbn [quietTick duringFetch response].
  unfold bind at 1. unfold get at 1.
  rewrite Hpc, Hsdp, Nat.eqb_refl. cbn [andb tickNow quietTick].
  assert (Hrun :
    (answeredBackfillTimer now ;; ret LoopReturn) s
    = (Normal LoopReturn,
       set_activeCallStartedAt (backfilled now s)
         (set_currentCallState answered s),
       cbState s answered (callerName s) ++
       cbActive s true (backfilled now s))).
  { rewrite (bind_normal _ _ _ _ _ _ (answeredBackfillTimer_run _ _)).
    cbn. now rewrite app_nil_r. }
  destruct (signalingState p); try discriminate Hset; rewrite Hrun; reflexivity.
Qed.

End AnswerPaths.

Lemma filter_srd_callbacks (s : Service) (st : CallState) (n : option string)
  (b : bool) (t : option Z) :
  filter isSetRemoteDescription (cbState s st n ++ cbActive s b t) = [].
Proof.
  unfold cbState, cbActive.
  destruct (onCallStateChange s), (onCallActiveChange s); reflexivity.
Qed.

Lemma filter_pacing_callbacks (s : Service) (st : CallState) (n : option string)
  (b : bool) (t : option Z) :
  filter isPacing (cbState s st n ++ cbActive s b t) = [].
Proof.
  unfold cbState, cbActive.
  destruct (onCallStateChange s), (onCallActiveChange s); reflexivity.
Qed.

Section Phases.
Context (E : Engine).

(** Setting the description, draining and marking the call answered:
    one call to the engine, whether it accepts or not; a rejection
    leaves the service as it was. *)
Lemma apply_then_mark (p : PeerConnection) (d : SessionDescription)
  (callId : string) (mark : M unit) (s : Service) :
  (forall s0, exists s1 , mark s0 = (Normal tt, s1,
      cbState s0 answered (callerName s0)
      ++ cbActive s0 true (activeCallStartedAt s1))) ->
  exists res s1 cs,
    (setRemoteDescription E p d ;;
     processQueuedIceCandidates E callId ;; mark) s
    = (res, s1, EngineSetRemoteDescription (pc_id p) d :: cs) /\
    filter isSetRemoteDescription cs = [] /\
    filter isPacing cs = [] /\
    (forall e, res = Throw e -> s1 = s /\ cs = []).
Proof.
  intros Hmark.
  destruct (setRemoteDescription_error E p d) as [msg|] eqn:Herr.
  - rewrite (bind_throw _ _ _ _ _ _ (setRemoteDescription_rejected E p d s msg Herr)).
    exists (Throw (Error msg)), s, []. repeat split; reflexivity.
  - rewrite (bind_normal _ _ _ _ _ _ (setRemoteDescription_ok E p d s Herr)).
    destruct (drain_shape E callId (set_pc (Some (applyRemoteDescription p d)) s))
      as (q & cs & Hdrain & Hcs & _ & _ & Hpace).
    rewrite (bind_normal _ _ _ _ _ _ Hdrain).
    destruct (Hmark (set_queuedIceCandidates q
                (set_pc (Some (applyRemoteDescription p d)) s))) as (s1 & Hm).
    rewrite Hm. eexists. eexists. eexists.
    split; [reflexivity|].
    split; [|split].
    + now rewrite filter_app, Hcs, filter_srd_callbacks.
    + now rewrite filter_app, Hpace, filter_pacing_callbacks.
    + discriminate.
Qed.

Lemma start_mark (now : Z) (s0 : Service) :
  exists s1, answeredStartTimer now s0 = (Normal tt, s1,
      cbState s0 answered (callerName s0)
      ++ cbActive s0 true (activeCallStartedAt s1)).
Proof.
  exists (set_activeCallStartedAt (Some now) (set_currentCallState answered s0)).
  rewrite answeredStartTimer_run. destruct s0; reflexivity.
Qed.

Lemma backfill_mark (now : Z) (s0 : Service) :
  exists s1, answeredBackfillTimer now s0 = (Normal tt, s1,
      cbState s0 answered (callerName s0)
      ++ cbActive s0 true (activeCallStartedAt s1)).
Proof.
  exists (set_activeCallStartedAt (backfilled now s0)
            (set_currentCallState answered s0)).
  rewrite answeredBackfillTimer_run. destruct s0; reflexivity.
Qed.

(** Push handler, engine already holding the answer: no call to
    [setRemoteDescription]. *)
Lemma onAnswer_already_set_no_srd (now : Z) (data : AnswerMsg) (s : Service)
  (p : PeerConnection) :
  pc s = Some p ->
  answerAlreadySet (signalingState p) = true ->
  filter isSetRemoteDescription (effects_of (onAnswer E now data s)) = [].
Proof.
  intros Hpc Hset.
  unfold onAnswer. unfold bind at 1. unfold get at 1. rewrite Hpc.
  destruct (strict_eq _ _); [|reflexivity].
  match goal with |- context [if negb ?b then _ else _] => destruct b end;
    [|reflexivity].
  cbn [negb].
  destruct (drain_shape E (ans_callId data) s) as (q & cs & Hdrain & Hcs & _ & _).
  assert (Hrun : (processQueuedIceCandidates E (ans_callId data) ;;
                  answeredBackfillTimer now) s
                 = (Normal tt,
                    set_activeCallStartedAt
                      (backfilled now (set_queuedIceCandidates q s))
                      (set_currentCallState answered
                         (set_queuedIceCandidates q s)),
                    cs ++ cbState s answered (callerName s)
                       ++ cbActive s true
                            (backfilled now (set_queuedIceCandidates q s)))).
  { rewrite (bind_normal _ _ _ _ _ _ Hdrain), answeredBackfillTimer_run.
    destruct s; reflexivity. }
  unfold try_catch.
  destruct (signalingState p); try discriminate Hset; rewrite Hrun;
    unfold effects_of; cbn [fst snd app];
    now rewrite filter_app, Hcs, filter_srd_callbacks.
Qed.

(** Push handler, after the local offer: one call, whatever the engine
    answers. *)
Lemma onAnswer_local_offer_one_srd (now : Z) (data : AnswerMsg) (s : Service)
  (p : PeerConnection) :
  pc s = Some p ->
  strict_eq (activeCallUUID s) (ans_callId data) = true ->
  shouldProcess s (signalingState p) = true ->
  signalingState p = have_local_offer ->
  filter isSetRemoteDescription (effects_of (onAnswer E now data s))
  = [EngineSetRemoteDescription (pc_id p) (ans_answer data)].
Proof.
  intros Hpc Hact Hshould Hsig. unfold shouldProcess in Hshould.
  unfold onAnswer. unfold bind at 1. unfold get at 1.
  rewrite Hpc, Hact, Hshould. cbn [negb]. rewrite Hsig.
  destruct (apply_then_mark p (ans_answer data) (ans_callId data)
              (answeredStartTimer now) s (start_mark now))
    as (res & s1 & cs & Hblock & Hf & _ & Hthrow).
  unfold try_catch. rewrite Hblock.
  unfold effects_of. cbn [fst snd].
  destruct res as [[]|e]; [cbn; now rewrite Hf|].
  destruct (Hthrow e eq_refl) as [-> ->].
  destruct (isWrongStateError e) eqn:Hw.
  - unfold bind at 1. unfold get at 1. rewrite Hpc, Hsig. reflexivity.
  - unfold throw. rewrite Hw. reflexivity.
Qed.

(** Push handler, any other phase: the retry calls the engine once and
    absorbs its answer. *)
Lemma onAnswer_retry_one_srd (now : Z) (data : AnswerMsg) (s : Service)
  (p : PeerConnection) :
  pc s = Some p ->
  strict_eq (activeCallUUID s) (ans_callId data) = true ->
  shouldProcess s (signalingState p) = true ->
  signalingState p <> have_local_offer ->
  answerAlreadySet (signalingState p) = false ->
  filter isSetRemoteDescription (effects_of (onAnswer E now data s))
  = [EngineSetRemoteDescription (pc_id p) (ans_answer data)].
Proof.
  intros Hpc Hact Hshould Hsig Hset. unfold shouldProcess in Hshould.
  unfold onAnswer. unfold bind at 1. unfold get at 1.
  rewrite Hpc, Hact, Hshould. cbn [negb].
  destruct (apply_then_mark p (ans_answer data) (ans_callId data)
              (answeredBackfillTimer now) s (backfill_mark now))
    as (res & s1 & cs & Hblock & Hf & _ & Hthrow).
  unfold try_catch.
  destruct (signalingState p); try contradiction; try discriminate Hset;
    rewrite Hblock; unfold effects_of; cbn [fst snd];
    (destruct res as [[]|e]; [cbn; now rewrite Hf|]);
    destruct (Hthrow e eq_refl) as [-> ->]; reflexivity.
Qed.

(** Poll, any phase but the one after the local offer: no call. *)
Lemma pollBody_other_phase_no_srd (callId : string) (t : Tick) (s : Service)
  (p : PeerConnection) :
  pc (duringFetch t s) = Some p ->
  signalingState p <> have_local_offer ->
  filter isSetRemoteDescription
    (effects_of (pollBody E callId (pc_id p) t s)) = [].
Proof.
  intros Hpc Hsig.
  unfold pollBody. unfold bind at 1. unfold get at 1.
  destruct (pollCancelled (pc_id p) s); [reflexivity|].
  unfold try_catch at 1.
  unfold bind at 1. unfold emit at 1.
  unfold bind at 1. unfold modify at 1.
  destruct (response t) as [e| |[a|]]; try reflexivity.
  unfold bind at 1. unfold get at 1. rewrite Hpc.
  destruct (truthy_str (sd_sdp a) && samePc (pc_id p) (duringFetch t s));
    [|reflexivity].
  destruct (signalingState p); try contradiction; try reflexivity;
    rewrite (bind_normal _ _ _ _ _ _ (answeredBackfillTimer_run _ _));
    unfold effects_of; cbn; now rewrite app_nil_r, filter_srd_callbacks.
Qed.

(** Poll, after the local offer, on finding the answer: one call. *)
Lemma pollBody_local_offer_one_srd (callId : string) (now : Z)
  (a : SessionDescription) (s : Service) (p : PeerConnection) :
  pc s = Some p ->
  truthy_str (activeCallUUID s) = true ->
  truthy_str (sd_sdp a) = true ->
  signalingState p = have_local_offer ->
  filter isSetRemoteDescription
    (effects_of (pollBody E callId (pc_id p)
                   (quietTick (RespJson (Some a)) now) s))
  = [EngineSetRemoteDescription (pc_id p) a].
Proof.
  intros Hpc Hact Hsdp Hsig.
  unfold pollBody. unfold bind at 1. unfold get at 1.
  unfold pollCancelled, samePc. rewrite Hpc, Hact, Nat.eqb_refl.
  cbn [negb orb]. unfold try_catch at 1.
  unfold bind at 1. unfold emit at 1.
  unfold bind at 1. unfold modify at 1. cbn [quietTick duringFetch response].
  unfold bind at 1. unfold get at 1.
  rewrite Hpc, Hsdp, Nat.eqb_refl, Hsig. cbn [andb tickNow quietTick].
  destruct (apply_then_mark p a callId
              (answeredStartTimer now) s (start_mark now))
    as (res & s1 & cs & Hblock & Hf & _ & Hthrow).
  assert (Hassoc :
    (setRemoteDescription E p a ;; processQueuedIceCandidates E callId ;;
     answeredStartTimer now ;; ret LoopReturn) s
    = let '(r, s1, t1) :=
        (setRemoteDescription E p a ;; processQueuedIceCandidates E callId ;;
         answeredStartTimer now) s in
      (match r with Normal _ => Normal LoopReturn | Throw e => Throw e end,
       s1, t1)).
  { unfold bind, ret.
    destruct (setRemoteDescription E p a s) as [[[[]|e] u1] t1]; [|reflexivity].
    destruct (processQueuedIceCandidates E callId u1) as [[[[]|e] u2] t2];
      [|reflexivity].
    destruct (answeredStartTimer now u2) as [[[[]|e] u3] t3]; [|reflexivity].
    now rewrite !app_nil_r. }
  unfold try_catch. rewrite Hassoc, Hblock.
  unfold effects_of. cbn [fst snd].
  destruct res as [[]|e].
  - cbn. now rewrite Hf.
  - destruct (Hthrow e eq_refl) as [-> ->].
    destruct (isWrongStateError e) eqn:Hw.
    + rewrite (bind_normal _ _ _ _ _ _ (answeredBackfillTimer_run _ _)).
      cbn. now rewrite app_nil_r, filter_srd_callbacks.
    + unfold throw. reflexivity.
Qed.

End Phases.

Lemma truthy_str_strict_eq (v : option string) (str : string) :
  v = Some str -> str <> "" ->
  strict_eq v str = true /\ truthy_str v = true.
Proof.
  intros -> Hne. cbn. rewrite String.eqb_refl. split; [reflexivity|].
  destruct (String.eqb_spec str ""); [contradiction|reflexivity].
Qed.

(** An outbound call waits for its answer ([calling], local offer set)
    and the same answer reaches the global push handler and the poll,
    each run to its end, one after the other.  In either order, if the
    engine accepts the answer, [setRemoteDescription] is invoked exactly
    once over the two, the call state enters [answered] exactly once,
    and the second invokes no [setRemoteDescription] and leaves the
    service as the first left it (when the push handler comes second it
    does nothing at all). *)
Lemma handler_and_poll_apply_once
  (E : Engine) (s : Service) (p : PeerConnection) (callId from : string)
  (a : SessionDescription) (now1 now2 : Z) :
  pc s = Some p ->
  signalingState p = have_local_offer ->
  activeCallUUID s = Some callId -> callId <> "" ->
  currentCallState s = calling ->
  sd_type a = sdp_answer -> truthy_str (sd_sdp a) = true ->
  setRemoteDescription_error E p a = None ->
  0 < now1 ->
  let push now := onAnswer E now (mkAnswer callId a from) in
  let poll now :=
    pollBody E callId (pc_id p) (quietTick (RespJson (Some a)) now) in
  (let r1 := push now1 s in
   let r2 := poll now2 (state_of r1) in
   length (filter isSetRemoteDescription (effects_of r1 ++ effects_of r2)) = 1%nat /\
   filter isSetRemoteDescription (effects_of r2) = [] /\
   (entersAnswered s (state_of r1)
    + entersAnswered (state_of r1) (state_of r2) = 1)%nat /\
   state_of r2 = state_of r1 /\
   currentCallState (state_of r2) = answered) /\
  (let r1 := poll now1 s in
   let r2 := push now2 (state_of r1) in
   length (filter isSetRemoteDescription (effects_of r1 ++ effects_of r2)) = 1%nat /\
   filter isSetRemoteDescription (effects_of r2) = [] /\
   (entersAnswered s (state_of r1)
    + entersAnswered (state_of r1) (state_of r2) = 1)%nat /\
   state_of r2 = state_of r1 /\
   currentCallState (state_of r2) = answered /\
   effects_of r2 = []).
Proof.
  intros Hpc Hsig Hact Hne Hst Hty Hsdp Hok Hnow push poll.
  destruct (truthy_str_strict_eq _ _ Hact Hne) as [Heq Htr].
  assert (Hnow' : truthy_num (Some now1) = true).
  { cbn. destruct (Z.eqb_spec now1 0); [lia|reflexivity]. }
  set (p' := applyRemoteDescription p a).
  assert (Hp' : answerAlreadySet (signalingState p') = true).
  { unfold p', applyRemoteDescription. now rewrite Hty. }
  assert (Hid : pc_id p' = pc_id p).
  { unfold p', applyRemoteDescription. now rewrite Hty. }
  split.
  - destruct (onAnswer_applies E now1 (mkAnswer callId a from) s p
                Hpc Heq Hsig Hst Hok) as (q & cs & Hrun & Hcs).
    cbn [ans_answer ans_callId] in Hrun. fold p' in Hrun.
    subst push poll. cbv beta zeta. rewrite Hrun.
    unfold state_of, effects_of. cbn [fst snd].
    set (s1 := set_activeCallStartedAt _ _).
    assert (Hpc1 : pc s1 = Some p') by (destruct s; reflexivity).
    assert (Hact1 : truthy_str (activeCallUUID s1) = true)
      by (destruct s; exact Htr).
    assert (Hst1 : currentCallState s1 = answered) by (destruct s; reflexivity).
    assert (Ht1 : truthy_num (activeCallStartedAt s1) = true)
      by (destruct s; exact Hnow').
    rewrite <- Hid.
    rewrite (pollBody_already_set E callId now2 a s1 p' Hpc1 Hact1 Hp' Hsdp).
    cbn [fst snd]. rewrite (backfill_noop now2 s1 Hst1 Ht1).
    repeat split.
    + cbn [filter isSetRemoteDescription app]. rewrite !filter_app.
      rewrite Hcs. cbn [filter isSetRemoteDescription].
      rewrite <- !filter_app, !filter_srd_callbacks. reflexivity.
    + cbn [filter isSetRemoteDescription]. apply filter_srd_callbacks.
    + unfold entersAnswered. rewrite Hst, Hst1. reflexivity.
  - destruct (pollBody_applies E callId now1 a s p Hpc Htr Hsig Hsdp Hok)
      as (q & cs & Hrun & Hcs).
    fold p' in Hrun. subst push poll. cbv beta zeta. rewrite Hrun.
    unfold state_of, effects_of. cbn [fst snd].
    set (s1 := set_activeCallStartedAt _ _).
    assert (Hpc1 : pc s1 = Some p') by (destruct s; reflexivity).
    assert (Hst1 : currentCallState s1 = answered) by (destruct s; reflexivity).
    rewrite (onAnswer_already_set E now2 _ s1 p' Hpc1 Hp' Hst1).
    cbn [fst snd]. rewrite app_nil_r.
    repeat split.
    + cbn [filter isSetRemoteDescription app]. rewrite !filter_app.
      rewrite Hcs. cbn [filter isSetRemoteDescription].
      rewrite <- !filter_app, !filter_srd_callbacks. reflexivity.
    + unfold entersAnswered. rewrite Hst, Hst1. reflexivity.
Qed.

(* ================================================================== *)
(** ** In which phases the engine is asked to set the description *)

(** C2 (as the code has it): with a peer connection whose observed
    signaling state is [stable] or [have-remote-pranswer], neither
    answer path invokes [setRemoteDescription]; the poll invokes it only
    in [have-local-offer]; the push handler, when it processes the answer
    at all, invokes it exactly once in every other phase: after the local
    offer, and as a retry in the remaining phases. *)
Theorem setRemoteDescription_by_phase
  (E : Engine) (now : Z) (data : AnswerMsg) (resp : PollResponse)
  (a : SessionDescription) (s : Service) (p : PeerConnection) :
  pc s = Some p ->
  (answerAlreadySet (signalingState p) = true ->
   filter isSetRemoteDescription (effects_of (onAnswer E now data s)) = []) /\
  (strict_eq (activeCallUUID s) (ans_callId data) = true ->
   shouldProcess s (signalingState p) = true ->
   answerAlreadySet (signalingState p) = false ->
   filter isSetRemoteDescription (effects_of (onAnswer E now data s))
   = [EngineSetRemoteDescription (pc_id p) (ans_answer data)]) /\
  (signalingState p <> have_local_offer ->
   filter isSetRemoteDescription
     (effects_of (pollBody E (ans_callId data) (pc_id p)
                    (quietTick resp now) s)) = []) /\
  (signalingState p = have_local_offer ->
   truthy_str (activeCallUUID s) = true -> truthy_str (sd_sdp a) = true ->
   filter isSetRemoteDescription
     (effects_of (pollBody E (ans_callId data) (pc_id p)
                    (quietTick (RespJson (Some a)) now) s))
   = [EngineSetRemoteDescription (pc_id p) a]).
Proof.
  intros Hpc. repeat split.
  - intros Hset. exact (onAnswer_already_set_no_srd E now data s p Hpc Hset).
  - intros Hact Hshould Hset.
    destruct (signalingState p) eqn:Hsig; try discriminate Hset.
    + apply onAnswer_local_offer_one_srd; try assumption. now rewrite Hsig.
    + apply onAnswer_retry_one_srd; try assumption;
        rewrite Hsig; [assumption|discriminate|reflexivity].
    + apply onAnswer_retry_one_srd; try assumption;
        rewrite Hsig; [assumption|discriminate|reflexivity].
    + apply onAnswer_retry_one_srd; try assumption;
        rewrite Hsig; [assumption|discriminate|reflexivity].
  - intros Hsig. apply pollBody_other_phase_no_srd; assumption.
  - intros Hsig Hact Hsdp. apply pollBody_local_offer_one_srd; assumption.
Qed.

Lemma setRemoteDescription_by_phase_witness :
  filter isSetRemoteDescription
    (effects_of (onAnswer jsepEngine 1000
                   (mkAnswer "call-A" sampleAnswer "dev-2") answeredCall)) = [] /\
  filter isSetRemoteDescription
    (effects_of (onAnswer jsepEngine 1000
                   (mkAnswer "call-A" sampleAnswer "dev-2") awaitingAnswer))
  = [EngineSetRemoteDescription 1 sampleAnswer] /\
  filter isSetRemoteDescription
    (effects_of (pollBody jsepEngine "call-A" 1
                   (quietTick (RespJson (Some sampleAnswer)) 1000)
                   ringingInbound)) = [] /\
  filter isSetRemoteDescription
    (effects_of (pollBody jsepEngine "call-A" 1
                   (quietTick (RespJson (Some sampleAnswer)) 1000)
                   awaitingAnswer))
  = [EngineSetRemoteDescription 1 sampleAnswer].
Proof.
  split; [|split; [|split]].
  - exact (proj1 (setRemoteDescription_by_phase jsepEngine 1000
             (mkAnswer "call-A" sampleAnswer "dev-2") RespNotOk sampleAnswer
             answeredCall _ eq_refl) eq_refl).
  - exact (proj1 (proj2 (setRemoteDescription_by_phase jsepEngine 1000
             (mkAnswer "call-A" sampleAnswer "dev-2") RespNotOk sampleAnswer
             awaitingAnswer _ eq_refl)) eq_refl eq_refl eq_refl).
  - refine (proj1 (proj2 (proj2 (setRemoteDescription_by_phase jsepEngine 1000
             (mkAnswer "call-A" sampleAnswer "dev-2")
             (RespJson (Some sampleAnswer)) sampleAnswer
             ringingInbound _ eq_refl))) _).
    cbn. discriminate.
  - exact (proj2 (proj2 (proj2 (setRemoteDescription_by_phase jsepEngine 1000
             (mkAnswer "call-A" sampleAnswer "dev-2") RespNotOk sampleAnswer
             awaitingAnswer _ eq_refl))) eq_refl eq_refl eq_refl).
Defined.

(** C2 as stated fails: a callee whose engine is in [have-remote-offer]
    receives an answer for its ringing call on the push channel; the
    handler observes the phase, and calls [setRemoteDescription] all the
    same; the engine rejects it and the service is left as it was. *)
Lemma answer_retried_outside_local_offer :
  option_map signalingState (pc ringingInbound) = Some have_remote_offer /\
  onAnswer jsepEngine 1000 (mkAnswer "call-A" sampleAnswer "dev-2")
           ringingInbound
  = (Normal tt, ringingInbound, [EngineSetRemoteDescription 1 sampleAnswer]).
Proof. split; reflexivity. Qed.

(* ================================================================== *)
(** ** Re-delivery of an answered event *)

Lemma set_currentCallState_same (s : Service) :
  set_currentCallState (currentCallState s) s = s.
Proof. destruct s; reflexivity. Qed.

Lemma set_activeCallStartedAt_same (s : Service) :
  set_activeCallStartedAt (activeCallStartedAt s) s = s.
Proof. destruct s; reflexivity. Qed.

(** The ['call-state'] handler on an [answered] update for the active
    call. *)
Lemma onCallState_answered_active (now : Z) (data : CallStateMsg) (s : Service) :
  cs_state data = "answered" ->
  strict_eq (activeCallUUID s) (cs_callId data) = true ->
  truthy_str (activeCallUUID s) = true ->
  onCallState now data s
  = (Normal tt,
     set_activeCallStartedAt (backfilled now s)
       (set_currentCallState answered s),
     cbState s answered (callerName s) ++ cbActive s true (backfilled now s)).
Proof.
  intros Hstate Hact Htr. unfold onCallState. rewrite Hstate.
  cbn [String.eqb Ascii.eqb Bool.eqb andb].
  unfold bind at 1. unfold get at 1. rewrite Hact, Htr. cbn [orb negb].
  unfold bind at 1. unfold ret at 1.
  rewrite answeredBackfillTimer_run. reflexivity.
Qed.

(** C4 (as the code has it): while the call is [answered], a re-delivered
    ['call-state'] update [answered] for the active call, or a duplicate
    answer that finds the engine already holding the answer, never resets
    a started timer (a missing start is backfilled with the current
    time), sends nothing to the relay and leaves the rest of the service
    as it is.  The duplicate answer on the push channel does nothing at
    all; the ['call-state'] update and the poll invoke each registered UI
    callback once more, with the unchanged values. *)
Theorem answered_redelivery (E : Engine) (now : Z) (s : Service) :
  currentCallState s = answered ->
  (forall data,
      cs_state data = "answered" ->
      strict_eq (activeCallUUID s) (cs_callId data) = true ->
      truthy_str (activeCallUUID s) = true ->
      onCallState now data s
      = (Normal tt, set_activeCallStartedAt (backfilled now s) s,
         cbState s answered (callerName s)
         ++ cbActive s true (backfilled now s))) /\
  (forall data p,
      pc s = Some p -> answerAlreadySet (signalingState p) = true ->
      onAnswer E now data s = (Normal tt, s, [])) /\
  (forall callId a p,
      pc s = Some p -> answerAlreadySet (signalingState p) = true ->
      truthy_str (activeCallUUID s) = true -> truthy_str (sd_sdp a) = true ->
      pollBody E callId (pc_id p) (quietTick (RespJson (Some a)) now) s
      = (Normal LoopReturn, set_activeCallStartedAt (backfilled now s) s,
         RelayPoll callId :: cbState s answered (callerName s)
         ++ cbActive s true (backfilled now s))) /\
  (truthy_num (activeCallStartedAt s) = true ->
   backfilled now s = activeCallStartedAt s /\
   set_activeCallStartedAt (backfilled now s) s = s) /\
  (truthy_num (activeCallStartedAt s) = false -> backfilled now s = Some now).
Proof.
  intros Hst.
  assert (Hsame : set_currentCallState answered s = s).
  { rewrite <- Hst. apply set_currentCallState_same. }
  repeat split.
  - intros data Hstate Hact Htr.
    rewrite (onCallState_answered_active now data s Hstate Hact Htr).
    now rewrite Hsame.
  - intros data p Hpc Hset.
    exact (onAnswer_already_set E now data s p Hpc Hset Hst).
  - intros callId a p Hpc Hset Htr Hsdp.
    rewrite (pollBody_already_set E callId now a s p Hpc Htr Hset Hsdp).
    now rewrite Hsame.
  - unfold backfilled. now rewrite H.
  - unfold backfilled. rewrite H. apply set_activeCallStartedAt_same.
  - intros H. unfold backfilled. now rewrite H.
Qed.

Lemma answered_redelivery_witness :
  onCallState 9000 (mkCallStateMsg "call-A" "answered" "outgoing" None None None)
              answeredCall
  = (Normal tt, answeredCall,
     [CbCallStateChange answered (Some "Bob");
      CbCallActiveChange true (Some 5000)]) /\
  onAnswer jsepEngine 9000 (mkAnswer "call-A" sampleAnswer "dev-2") answeredCall
  = (Normal tt, answeredCall, []).
Proof.
  pose proof (answered_redelivery jsepEngine 9000 answeredCall eq_refl)
    as (Hcs & Hpush & _ & _ & _).
  split.
  - exact (Hcs (mkCallStateMsg "call-A" "answered" "outgoing" None None None)
               eq_refl eq_refl eq_refl).
  - exact (Hpush (mkAnswer "call-A" sampleAnswer "dev-2") _ eq_refl eq_refl).
Defined.

(** C4 as stated fails: the call is [answered] with its timer running, a
    second ['call-state'] update [answered] arrives; nothing changes in
    the service, and [onCallStateChange] and [onCallActiveChange] are
    both invoked again. *)
Lemma answered_redelivery_fires_callbacks :
  let r := onCallState 9000
             (mkCallStateMsg "call-A" "answered" "outgoing" None None None)
             answeredCall in
  state_of r = answeredCall /\
  (entersAnswered answeredCall (state_of r) = 0)%nat /\
  filter isCallback (effects_of r)
  = [CbCallStateChange answered (Some "Bob");
     CbCallActiveChange true (Some 5000)].
Proof. cbv zeta. repeat split. Qed.

(** Outside the cases above: when the ['call-state'] update has made the
    call [answered] before the answer itself arrives, the push handler
    applies the answer after the local offer and starts the timer
    anew. *)
Example answer_after_answered_update_restarts_timer :
  let s1 := state_of (onCallState 5000
                        (mkCallStateMsg "call-A" "answered" "outgoing"
                                        None None None) awaitingAnswer) in
  let s2 := state_of (onAnswer jsepEngine 7000
                        (mkAnswer "call-A" sampleAnswer "dev-2") s1) in
  currentCallState s1 = answered /\
  activeCallStartedAt s1 = Some 5000 /\
  currentCallState s2 = answered /\
  activeCallStartedAt s2 = Some 7000.
Proof. cbv zeta. repeat split. Qed.

(* ================================================================== *)
(** ** Rejecting an inbound call *)

(** What [rejectCall] does, from any service. *)
Lemma rejectCall_run (callUUID : string) (notifyError : option JsError)
  (s : Service) :
  rejectCall callUUID notifyError s
  = (Normal tt, tornDown s,
     cbState s rejected (callerName s) ++
     match currentDeviceId s with
     | Some d => if truthy_str (Some d)
                 then [RelayEnd callUUID d (Some "rejected")] else []
     | None => []
     end ++
     teardownEffects s ++ [SetTimeout 2000 ResetAfterReject]).
Proof.
  unfold rejectCall.
  unfold bind at 1. unfold modify at 1.
  assert (Hcb : (s0 <- get ;;
                 callOnCallStateChange (currentCallState s0) (callerName s0))
                  (set_currentCallState rejected s)
                = (Normal tt, set_currentCallState rejected s,
                   cbState s rejected (callerName s))).
  { unfold callOnCallStateChange, cbState.
    destruct s as [? ? ? ? ? ? ? ? ? ? ? ? ? ? cb1 cb2]. destruct cb1; reflexivity. }
  rewrite (bind_normal _ _ _ _ _ _ Hcb).
  assert (Hnotify :
    (s0 <- get ;;
     match currentDeviceId s0 with
     | Some d =>
         if truthy_str (Some d) then
           try_catch
             (emit (RelayEnd callUUID d (Some "rejected")) ;;
              match notifyError with
              | Some e => throw e
              | None => ret tt
              end)
             (fun _ => ret tt)
         else ret tt
     | None => ret tt
     end) (set_currentCallState rejected s)
    = (Normal tt, set_currentCallState rejected s,
       match currentDeviceId s with
       | Some d => if truthy_str (Some d)
                   then [RelayEnd callUUID d (Some "rejected")] else []
       | None => []
       end)).
  { destruct s as [? ? ? ? ? dev ? ? ? ? ? ? ? ? ? ?].
    destruct dev as [[|c d]|]; try reflexivity.
    destruct notifyError; reflexivity. }
  rewrite (bind_normal _ _ _ _ _ _ Hnotify).
  rewrite (bind_normal _ _ _ _ _ _ (endVoiceCall_run _)).
  unfold emit. destruct s; reflexivity.
Qed.

(** C8, the code at the claim's scenario: Alice's call rings, the user
    rejects it.  The relay is told the call ended with reason
    [rejected] and [onCallStateChange] shows [rejected]; but the teardown
    that follows resets the state to [idle] and clears the caller name
    at once, so when [rejectCall] returns, with the 2000 ms timer only
    scheduled, [getCallState] already reports [idle]. *)
Theorem rejectCall_is_idle_before_grace_period :
  let r := rejectCall "call-A" None ringingInbound in
  effects_of r
  = [CbCallStateChange rejected (Some "Alice");
     RelayEnd "call-A" "dev-1" (Some "rejected");
     EngineClose 1; MediaStop 10;
     RelayEnd "call-A" "dev-1" None;
     CbCallStateChange idle None;
     CbCallActiveChange false None;
     SetTimeout 2000 ResetAfterReject] /\
  info_state (getCallState (state_of r)) = idle /\
  info_callerName (getCallState (state_of r)) = None /\
  (forall callUUID notifyError s,
      currentCallState (state_of (rejectCall callUUID notifyError s)) = idle).
Proof.
  cbv zeta. repeat split.
  intros callUUID notifyError s. now rewrite rejectCall_run.
Qed.

(* ================================================================== *)
(** ** The poll loop *)

Lemma quiet_no_poll (l : list Effect) :
  filter isPacing l = [] -> filter isRelayPoll l = [].
Proof.
  induction l as [|e l IH]; [reflexivity|].
  destruct e; cbn; try discriminate; exact IH.
Qed.

Lemma quiet_no_sleep (l : list Effect) :
  filter isPacing l = [] -> filter isSleep l = [].
Proof.
  induction l as [|e l IH]; [reflexivity|].
  destruct e; cbn; try discriminate; exact IH.
Qed.

Lemma paced_quiet_app (l rest : list Effect) (b : bool) :
  filter isPacing l = [] -> paced b (l ++ rest) = paced b rest.
Proof.
  induction l as [|e l IH]; [reflexivity|].
  destruct e; cbn; try discriminate; exact IH.
Qed.

Section PollLoop.
Context (E : Engine).

(** Returning from the loop after the block changes neither its state
    nor its effects. *)
Lemma block_then_return (p : PeerConnection) (a : SessionDescription)
  (callId : string) (now : Z) (s : Service) :
  (setRemoteDescription E p a ;; processQueuedIceCandidates E callId ;;
   answeredStartTimer now ;; ret LoopReturn) s
  = let '(r, s1, t1) :=
      (setRemoteDescription E p a ;; processQueuedIceCandidates E callId ;;
       answeredStartTimer now) s in
    (match r with Normal _ => Normal LoopReturn | Throw e => Throw e end,
     s1, t1).
Proof.
  unfold bind, ret.
  destruct (setRemoteDescription E p a s) as [[[[]|e] u1] t1]; [|reflexivity].
  destruct (processQueuedIceCandidates E callId u1) as [[[[]|e] u2] t2];
    [|reflexivity].
  destruct (answeredStartTimer now u2) as [[[[]|e] u3] t3]; [|reflexivity].
  now rewrite !app_nil_r.
Qed.

(** One turn of the loop body never fails.  Either the call has ceased
    to be active and the body returns without doing anything, or it
    sends exactly one request to the relay, followed by effects that are
    neither requests nor sleeps. *)
Lemma pollBody_shape (callId : string) (cur : nat) (t : Tick) (s : Service) :
  exists step s' l,
    pollBody E callId cur t s = (Normal step, s', l) /\
    ((pollCancelled cur s = true /\ step = LoopReturn /\ s' = s /\ l = []) \/
     (pollCancelled cur s = false /\
      exists l', l = RelayPoll callId :: l' /\ filter isPacing l' = [])).
Proof.
  unfold pollBody. unfold bind at 1. unfold get at 1.
  destruct (pollCancelled cur s) eqn:Hc.
  { exists LoopReturn, s, []. split; [reflexivity|]. left. auto. }
  unfold try_catch at 1.
  unfold bind at 1. unfold emit at 1.
  unfold bind at 1. unfold modify at 1.
  assert (Hdone : forall step s' l',
            filter isPacing l' = [] ->
            exists step0 s0 l,
              (Normal step, s', [RelayPoll callId] ++ [] ++ l') = (Normal step0, s0, l) /\
              (false = true /\ step0 = LoopReturn /\ s0 = s /\ l = [] \/
               false = false /\
               (exists l0, l = RelayPoll callId :: l0 /\ filter isPacing l0 = []))).
  { intros step s' l' Hq. exists step, s', (RelayPoll callId :: l').
    split; [reflexivity|]. right. split; [reflexivity|]. now exists l'. }
  destruct (response t) as [e| |[a|]];
    try (apply (Hdone LoopContinue (duringFetch t s) []); reflexivity).
  unfold bind at 1. unfold get at 1.
  destruct (pc (duringFetch t s)) as [p|] eqn:Hpc;
    [|apply (Hdone LoopContinue (duringFetch t s) []); reflexivity].
  destruct (truthy_str (sd_sdp a) && samePc cur (duringFetch t s));
    [|apply (Hdone LoopContinue (duringFetch t s) []); reflexivity].
  destruct (signalingState p);
    try (apply (Hdone LoopContinue (duringFetch t s) []); reflexivity);
    try (rewrite (bind_normal _ _ _ _ _ _ (answeredBackfillTimer_run _ _));
         cbn [ret]; rewrite app_nil_r;
         apply Hdone; apply filter_pacing_callbacks).
  destruct (apply_then_mark E p a callId (answeredStartTimer (tickNow t))
              (duringFetch t s) (start_mark (tickNow t)))
    as (res & s1 & cs & Hblock & _ & Hq & Hthrow).
  unfold try_catch. rewrite block_then_return, Hblock.
  destruct res as [[]|e].
  - apply Hdone. cbn. exact Hq.
  - destruct (Hthrow e eq_refl) as [-> ->].
    destruct (isWrongStateError e).
    + rewrite (bind_normal _ _ _ _ _ _ (answeredBackfillTimer_run _ _)).
      cbn [ret]. rewrite app_nil_r.
      apply (Hdone LoopReturn _
               (EngineSetRemoteDescription (pc_id p) a ::
                cbState (duringFetch t s) answered (callerName (duringFetch t s)) ++
                cbActive (duringFetch t s) true
                  (backfilled (tickNow t) (duringFetch t s)))).
      cbn. apply filter_pacing_callbacks.
    + apply (Hdone LoopContinue (duringFetch t s)
               [EngineSetRemoteDescription (pc_id p) a]). reflexivity.
Qed.

(** One iteration of the loop, unfolded. *)
Lemma pollLoop_step (r i : nat) (callId : string) (cur : nat)
  (env : nat -> Tick) (s : Service) :
  pollLoop E (S r) i callId cur env s
  = let '(res, s1, l) :=
      pollBody E callId cur (env i) (duringSleep (env i) s) in
    match res with
    | Normal LoopReturn => (Normal tt, s1, Sleep 1000 :: l)
    | Normal LoopContinue =>
        let '(res2, s2, l2) := pollLoop E r (S i) callId cur env s1 in
        (res2, s2, Sleep 1000 :: l ++ l2)
    | Throw e => (Throw e, s1, Sleep 1000 :: l)
    end.
Proof.
  cbn [pollLoop]. unfold bind at 1. unfold emit at 1.
  unfold bind at 1. unfold modify at 1.
  unfold bind at 1.
  destruct (pollBody E callId cur (env i) (duringSleep (env i) s))
    as [[[[|]|e] s1] l]; cbn.
  - destruct (pollLoop E r (S i) callId cur env s1) as [[res2 s2] l2].
    reflexivity.
  - now rewrite app_nil_r.
  - reflexivity.
Qed.

(** The loop always completes, with at most [remaining] requests and
    sleeps, each request after a sleep of its own. *)
Lemma pollLoop_bounded (callId : string) (cur : nat) (env : nat -> Tick) :
  forall remaining i s,
  exists s' l,
    pollLoop E remaining i callId cur env s = (Normal tt, s', l) /\
    (length (filter isRelayPoll l) <= remaining)%nat /\
    (length (filter isSleep l) <= remaining)%nat /\
    paced false l = true.
Proof.
  induction remaining as [|r IH]; intros i s.
  { exists s, []. repeat split; cbn; lia. }
  rewrite pollLoop_step.
  destruct (pollBody_shape callId cur (env i) (duringSleep (env i) s))
    as (step & s1 & l & Hrun & [(_ & -> & -> & ->) | (_ & l' & -> & Hq)]);
    rewrite Hrun.
  - eexists. eexists. split; [reflexivity|]. cbn. repeat split; lia.
  - destruct step.
    + destruct (IH (S i) s1) as (s2 & l2 & Hrest & Hp & Hs & Hpaced).
      rewrite Hrest. eexists. eexists. split; [reflexivity|].
      cbn [filter isRelayPoll isSleep app length paced Z.eqb Pos.eqb andb].
      rewrite !filter_app, !length_app.
      rewrite (quiet_no_poll _ Hq), (quiet_no_sleep _ Hq).
      rewrite (paced_quiet_app _ _ _ Hq). cbn [length]. repeat split; try lia.
      exact Hpaced.
    + eexists. eexists. split; [reflexivity|].
      cbn [filter isRelayPoll isSleep app length paced Z.eqb Pos.eqb andb].
      rewrite (quiet_no_poll _ Hq), (quiet_no_sleep _ Hq).
      rewrite <- (app_nil_r l'), (paced_quiet_app _ _ _ Hq).
      cbn. repeat split; lia.
Qed.


(** At an iteration that finds the answer, with the call still active,
    the loop stops there with the call [answered]. *)
Lemma pollLoop_stops_on_answer (callId : string) (env : nat -> Tick)
  (remaining i : nat) (now : Z) (a : SessionDescription)
  (p : PeerConnection) (s : Service) :
  env i = quietTick (RespJson (Some a)) now ->
  pc s = Some p ->
  truthy_str (activeCallUUID s) = true ->
  truthy_str (sd_sdp a) = true ->
  (signalingState p = have_local_offer /\
   setRemoteDescription_error E p a = None) \/
  answerAlreadySet (signalingState p) = true ->
  exists s' l,
    pollLoop E (S remaining) i callId (pc_id p) env s
    = (Normal tt, s', Sleep 1000 :: RelayPoll callId :: l) /\
    filter isPacing l = [] /\
    currentCallState s' = answered.
Proof.
  intros Henv Hpc Hact Hsdp Hphase.
  rewrite pollLoop_step, Henv. cbn [quietTick duringSleep].
  fold (quietTick (RespJson (Some a)) now).
  destruct (pollBody_shape callId (pc_id p) (quietTick (RespJson (Some a)) now) s)
    as (step & s1 & l & Hrun & Hshape).
  assert (Hnc : pollCancelled (pc_id p) s = false).
  { unfold pollCancelled, samePc. now rewrite Hpc, Hact, Nat.eqb_refl. }
  destruct Hshape as [(Hc & _) | (_ & l' & -> & Hq)]; [congruence|].
  assert (Hres : step = LoopReturn /\ currentCallState s1 = answered).
  { destruct Hphase as [[Hsig Hok] | Hset].
    - destruct (pollBody_applies E callId now a s p Hpc Hact Hsig Hsdp Hok)
        as (q & cs & Happ & _).
      rewrite Happ in Hrun. inversion Hrun. split; [reflexivity|].
      destruct s; reflexivity.
    - rewrite (pollBody_already_set E callId now a s p Hpc Hact Hset Hsdp) in Hrun.
      inversion Hrun. split; [reflexivity|]. destruct s; reflexivity. }
  destruct Hres as [-> Hst]. rewrite Hrun.
  exists s1, l'. auto.
Qed.

(** When the call has ceased to be active after the sleep, the loop
    stops without a request and without touching the service. *)
Lemma pollLoop_cancelled (callId : string) (cur : nat) (env : nat -> Tick)
  (remaining i : nat) (s : Service) :
  pollCancelled cur (duringSleep (env i) s) = true ->
  pollLoop E (S remaining) i callId cur env s
  = (Normal tt, duringSleep (env i) s, [Sleep 1000]).
Proof.
  intros Hc. rewrite pollLoop_step.
  unfold pollBody. unfold bind at 1. unfold get at 1. now rewrite Hc.
Qed.

End PollLoop.

(** C9: [waitForAnswerHTTP] always completes; it sends at most 30 poll
    requests and sleeps at most 30 times, every sleep lasting 1000 ms and
    every request coming after a sleep of its own; at an iteration that
    finds the answer, applied now or observed already set, it stops with
    the call [answered] and polls no more; and at an iteration where the
    peer connection was replaced or no call id is active it stops
    without a request and without touching the service. *)
Theorem waitForAnswerHTTP_bounded_cooperative
  (E : Engine) (callId : string) (env : nat -> Tick) (s : Service) :
  let r := waitForAnswerHTTP E callId env s in
  result_of r = Normal tt /\
  (length (filter isRelayPoll (effects_of r)) <= 30)%nat /\
  (length (filter isSleep (effects_of r)) <= 30)%nat /\
  paced false (effects_of r) = true /\
  (forall remaining i now a p s1,
      env i = quietTick (RespJson (Some a)) now ->
      pc s1 = Some p ->
      truthy_str (activeCallUUID s1) = true ->
      truthy_str (sd_sdp a) = true ->
      (signalingState p = have_local_offer /\
       setRemoteDescription_error E p a = None) \/
      answerAlreadySet (signalingState p) = true ->
      exists s' l,
        pollLoop E (S remaining) i callId (pc_id p) env s1
        = (Normal tt, s', Sleep 1000 :: RelayPoll callId :: l) /\
        filter isPacing l = [] /\
        currentCallState s' = answered) /\
  (forall remaining i cur s1,
      pollCancelled cur (duringSleep (env i) s1) = true ->
      pollLoop E (S remaining) i callId cur env s1
      = (Normal tt, duringSleep (env i) s1, [Sleep 1000])).
Proof.
  intros r. subst r.
  assert (Hbound :
    exists s' l, waitForAnswerHTTP E callId env s = (Normal tt, s', l) /\
      (length (filter isRelayPoll l) <= 30)%nat /\
      (length (filter isSleep l) <= 30)%nat /\ paced false l = true).
  { unfold waitForAnswerHTTP. unfold bind at 1. unfold get at 1.
    destruct (pc s) as [p|].
    - destruct (pollLoop_bounded E callId (pc_id p) env 30 0 s)
        as (s' & l & Hrun & Hb).
      rewrite Hrun. exists s', l. split; [reflexivity|exact Hb].
    - exists s, []. cbn. repeat split; lia. }
  destruct Hbound as (s' & l & Hrun & Hp & Hs & Hpaced).
  rewrite Hrun. unfold result_of, effects_of. cbn [fst snd].
  repeat split; try assumption.
  - intros. eapply pollLoop_stops_on_answer; eassumption.
  - intros. now apply pollLoop_cancelled.
Qed.

Lemma waitForAnswerHTTP_bounded_cooperative_witness :
  (exists s' l,
     pollLoop jsepEngine 28 2 "call-A" 1 answerAtThirdPoll awaitingAnswer
     = (Normal tt, s', Sleep 1000 :: RelayPoll "call-A" :: l) /\
     filter isPacing l = [] /\ currentCallState s' = answered) /\
  pollLoop jsepEngine 30 0 "call-A" 1 answerAtThirdPoll initializedIdle
  = (Normal tt, initializedIdle, [Sleep 1000]).
Proof.
  pose proof (waitForAnswerHTTP_bounded_cooperative jsepEngine "call-A"
                answerAtThirdPoll awaitingAnswer) as H.
  cbv zeta in H. destruct H as (_ & _ & _ & _ & Hstop & Hcancel).
  split.
  - exact (Hstop 27%nat 2%nat 3000 sampleAnswer
             (mkPC 1 have_local_offer None (Some sampleOffer)) awaitingAnswer
             eq_refl eq_refl eq_refl eq_refl
             (or_introl (conj eq_refl eq_refl))).
  - exact (Hcancel 29%nat 0%nat 1%nat initializedIdle eq_refl).
Defined.

Example waitForAnswerHTTP_third_poll :
  effects_of (waitForAnswerHTTP jsepEngine "call-A" answerAtThirdPoll
                awaitingAnswer)
  = [Sleep 1000; RelayPoll "call-A";
     Sleep 1000; RelayPoll "call-A";
     Sleep 1000; RelayPoll "call-A";
     EngineSetRemoteDescription 1 sampleAnswer;
     CbCallStateChange answered (Some "Bob");
     CbCallActiveChange true (Some 3000)].
Proof. reflexivity. Qed.

(* ================================================================== *)
(** ** Dialing *)

Lemma sameUpToTarget_refl {A : Type} (r : Completion A * Service * list Effect) :
  sameUpToTarget r r.
Proof. repeat split. Qed.

Lemma sameUpToTarget_bind {A B : Type} (m1 m2 : M A) (k1 k2 : A -> M B)
  (s : Service) :
  sameUpToTarget (m1 s) (m2 s) ->
  (forall a s1, sameUpToTarget (k1 a s1) (k2 a s1)) ->
  sameUpToTarget (bind m1 k1 s) (bind m2 k2 s).
Proof.
  unfold sameUpToTarget, result_of, state_of, effects_of, bind.
  destruct (m1 s) as [[r1 s1] l1], (m2 s) as [[r2 s2] l2]. cbn [fst snd].
  intros (-> & -> & Hl) Hk.
  destruct r2 as [a|e]; [|auto].
  specialize (Hk a s2).
  destruct (k1 a s2) as [[r1' s1'] l1'], (k2 a s2) as [[r2' s2'] l2'].
  cbn [fst snd] in *. destruct Hk as (-> & -> & Hl').
  rewrite !map_app, Hl, Hl'. auto.
Qed.

Lemma sameUpToTarget_try_catch {A : Type} (m1 m2 : M A)
  (h : JsError -> M A) (s : Service) :
  sameUpToTarget (m1 s) (m2 s) ->
  sameUpToTarget (try_catch m1 h s) (try_catch m2 h s).
Proof.
  unfold sameUpToTarget, result_of, state_of, effects_of, try_catch.
  destruct (m1 s) as [[r1 s1] l1], (m2 s) as [[r2 s2] l2]. cbn [fst snd].
  intros (-> & -> & Hl).
  destruct r2 as [a|e]; [auto|].
  destruct (h e s2) as [[r' s'] l']. cbn [fst snd].
  rewrite !map_app, Hl. auto.
Qed.

Section Dial.
Context (E : Engine).

(** The service's dial never looks at its target: two targets give the
    same completion, the same service and the same effects, but for the
    target written in the request to the relay. *)
Lemma dial_ignores_target (w : string -> M unit) (env : DialEnv)
  (t1 t2 name : string) (s : Service) :
  sameUpToTarget
    (startOutgoingVoiceCallByLoyaltyId E w env t1 name s)
    (startOutgoingVoiceCallByLoyaltyId E w env t2 name s).
Proof.
  unfold startOutgoingVoiceCallByLoyaltyId.
  apply sameUpToTarget_bind; [apply sameUpToTarget_refl|].
  intros s0 s1.
  destruct (currentDeviceId s0), (currentLoyaltyId s0);
    try apply sameUpToTarget_refl.
  match goal with |- context [if ?b then _ else _] => destruct b end;
    [apply sameUpToTarget_refl|].
  repeat (apply sameUpToTarget_bind; [apply sameUpToTarget_refl|]; intros).
  apply sameUpToTarget_try_catch.
  apply sameUpToTarget_bind; [repeat split|].
  intros. apply sameUpToTarget_refl.
Qed.


(** The page's guard: when the chosen user is the stored user, the
    handler alerts and returns; the service's dial is not invoked. *)
Lemma handleCallUser_self (w : string -> M unit) (env : DialEnv)
  (su : StoredUser) (my page dev : string) (user : User) (s : Service) :
  or_str (su_loyaltyId su) (su_loyalty_id su) = Some my ->
  my <> "" ->
  u_loyaltyId user = my ->
  let r := handleCallUser E w env (Some su) page dev user s in
  result_of r = Normal tt /\
  In (UiAlert AlertSelfCall) (effects_of r) /\
  filter isRelayCreateCall (effects_of r) = [] /\
  filter isCallback (effects_of r) = [] /\
  currentCallState (state_of r) = currentCallState s /\
  activeCallUUID (state_of r) = activeCallUUID s /\
  pc (state_of r) = pc s /\
  (truthy_str (Some page) = true ->
   r = (Normal tt, s, [UiAlert AlertSelfCall])).
Proof.
  intros Hor Hne Huser r. subst r.
  assert (Hmy : truthy_str (Some my) = true).
  { cbn. destruct (String.eqb_spec my ""); [contradiction|reflexivity]. }
  unfold handleCallUser. rewrite Hor, Hmy. cbn [negb].
  rewrite Huser, String.eqb_refl.
  destruct (truthy_str (Some page)) eqn:Hpage; cbn [negb].
  - run. repeat split; auto.
  - unfold initWebRTCWithLoyaltyId. rewrite Hmy. cbn [negb].
    unfold ensureSocketConnected.
    destruct s as [? ? ? ? loy ? sock ? ini ? ? ? ? ? ? ?].
    destruct ini, loy as [l|], sock as [[|]|]; run;
      try destruct (l =? my)%string; cbn;
      repeat split; auto; try discriminate; cbn; tauto.
Qed.

End Dial.

(** C7 (as the code has it): the service's dial performs no self-call
    check: its completion, the service it leaves and its effects are the
    same for every target, the local identity included, but for the
    target named in the request that creates the call.  The check is in
    the page's call handler: when the chosen user's loyalty id is the
    stored user's, the handler shows the self-call alert and returns
    normally; no call is created, no callback fires and the call state,
    the active call id and the peer connection stay as they were. *)
Theorem self_call_guard_is_in_the_page
  (E : Engine) (w : string -> M unit) (env : DialEnv) (s : Service) :
  (forall t1 t2 name,
      sameUpToTarget
        (startOutgoingVoiceCallByLoyaltyId E w env t1 name s)
        (startOutgoingVoiceCallByLoyaltyId E w env t2 name s)) /\
  (forall su my page dev user,
      or_str (su_loyaltyId su) (su_loyalty_id su) = Some my ->
      my <> "" ->
      u_loyaltyId user = my ->
      let r := handleCallUser E w env (Some su) page dev user s in
      result_of r = Normal tt /\
      In (UiAlert AlertSelfCall) (effects_of r) /\
      filter isRelayCreateCall (effects_of r) = [] /\
      filter isCallback (effects_of r) = [] /\
      currentCallState (state_of r) = currentCallState s /\
      activeCallUUID (state_of r) = activeCallUUID s /\
      pc (state_of r) = pc s /\
      (truthy_str (Some page) = true ->
       r = (Normal tt, s, [UiAlert AlertSelfCall]))).
Proof.
  split.
  - intros. apply dial_ignores_target.
  - intros su my page dev user Hor Hne Hu.
    exact (handleCallUser_self E w env su my page dev user s Hor Hne Hu).
Qed.

Lemma self_call_guard_is_in_the_page_witness :
  handleCallUser jsepEngine (fun _ => ret tt) dialEnvOk
    (Some (mkStoredUser (Some "agent-1") None)) "agent-1" "dev-9"
    (mkUser "agent-1" true false "Me") initializedIdle
  = (Normal tt, initializedIdle, [UiAlert AlertSelfCall]).
Proof.
  pose proof (proj2 (self_call_guard_is_in_the_page jsepEngine
                       (fun _ => ret tt) dialEnvOk initializedIdle)
                (mkStoredUser (Some "agent-1") None) "agent-1" "agent-1"
                "dev-9" (mkUser "agent-1" true false "Me")
                eq_refl
                (fun H : "agent-1" = "" => eq_ind "agent-1"
                   (fun x => match x with "" => False | _ => True end)
                   I "" H)
                eq_refl) as H.
  cbv zeta in H.
  exact (proj2 (proj2 (proj2 (proj2 (proj2 (proj2 (proj2 H)))))) eq_refl).
Defined.

(** C7 as stated fails: the service is initialized for ["agent-1"] and
    is asked to dial ["agent-1"].  No error is raised; the call state
    becomes [calling], a peer connection is created and the offer is
    posted to the relay with the local identity as its target. *)
Lemma dial_to_self_starts_a_call :
  let r := startOutgoingVoiceCallByLoyaltyId jsepEngine (fun _ => ret tt)
             dialEnvOk "agent-1" "Me" initializedIdle in
  currentLoyaltyId initializedIdle = Some "agent-1" /\
  result_of r = Normal tt /\
  currentCallState (state_of r) = calling /\
  activeCallUUID (state_of r) = Some "call-S" /\
  effects_of r
  = [CbCallStateChange calling (Some "Me");
     MediaAcquire 20; EngineNew 2; EngineCreateOffer 2;
     EngineSetLocalDescription 2 sampleOffer;
     RelayCreateCall "call-S" "dev-1" "agent-1" "agent-1"].
Proof. cbv zeta. repeat split. Qed.

(* ================================================================== *)
(** ** The ['call-state'] updates *)

Lemma tornDown_set_currentCallState (st : CallState) (s : Service) :
  tornDown (set_currentCallState st s) = tornDown s /\
  teardownEffects (set_currentCallState st s) = teardownEffects s.
Proof. destruct s; split; reflexivity. Qed.

(** An [ended] or [rejected] update tears the current call down,
    whatever call id the update carries: the handler reports the final
    state to the UI and runs the whole teardown. *)
Theorem onCallState_ended_tears_down (now : Z) (data : CallStateMsg)
  (s : Service) :
  cs_state data = "ended" \/ cs_state data = "rejected" ->
  onCallState now data s
  = (Normal tt, tornDown s,
     cbState s (if (cs_state data =? "ended")%string then ended else rejected)
             (callerName s)
     ++ teardownEffects s).
Proof.
  intros Hst. unfold onCallState.
  assert (Hbr : ((cs_state data =? "ringing") && (cs_direction data =? "incoming")
                 = false)%string /\ (cs_state data =? "answered")%string = false
                /\ ((cs_state data =? "ended") || (cs_state data =? "rejected")
                    = true)%string).
  { destruct Hst as [-> | ->]; repeat split. }
  destruct Hbr as (-> & -> & ->).
  set (st := if (cs_state data =? "ended")%string then ended else rejected).
  unfold bind at 1. unfold modify at 1.
  assert (Hcb : (s0 <- get ;;
                 callOnCallStateChange (currentCallState s0) (callerName s0))
                  (set_currentCallState st s)
                = (Normal tt, set_currentCallState st s,
                   cbState s st (callerName s))).
  { unfold callOnCallStateChange, cbState.
    destruct s as [? ? ? ? ? ? ? ? ? ? ? ? ? ? cb1 cb2]. destruct cb1; reflexivity. }
  rewrite (bind_normal _ _ _ _ _ _ Hcb), endVoiceCall_run.
  destruct (tornDown_set_currentCallState st s) as [-> ->]. reflexivity.
Qed.

Lemma onCallState_ended_tears_down_witness :
  onCallState 9000 (mkCallStateMsg "call-Z" "ended" "incoming" None None None)
              answeredCall
  = (Normal tt, tornDown answeredCall,
     [CbCallStateChange ended (Some "Bob"); EngineClose 1; MediaStop 10;
      MediaStop 11; RelayEnd "call-A" "dev-1" None;
      CbCallStateChange idle None; CbCallActiveChange false None]).
Proof.
  exact (onCallState_ended_tears_down 9000
           (mkCallStateMsg "call-Z" "ended" "incoming" None None None)
           answeredCall (or_introl eq_refl)).
Defined.

(** An [answered] update is adopted, call id included, when the
    service has no active call; it is ignored altogether when another
    call is active. *)
Theorem onCallState_answered_adopts_or_ignores (now : Z) (data : CallStateMsg)
  (s : Service) :
  cs_state data = "answered" ->
  (truthy_str (activeCallUUID s) = false ->
   onCallState now data s
   = (Normal tt,
      set_activeCallStartedAt (backfilled now s)
        (set_currentCallState answered
           (set_activeCallUUID (Some (cs_callId data)) s)),
      cbState s answered (callerName s)
      ++ cbActive s true (backfilled now s))) /\
  (truthy_str (activeCallUUID s) = true ->
   strict_eq (activeCallUUID s) (cs_callId data) = false ->
   onCallState now data s = (Normal tt, s, [])).
Proof.
  intros Hstate. unfold onCallState. rewrite Hstate.
  cbn [String.eqb Ascii.eqb Bool.eqb andb].
  split.
  - intros Hno. unfold bind at 1. unfold get at 1.
    rewrite Hno. rewrite orb_true_r. cbn [negb].
    unfold bind at 1. unfold modify at 1.
    rewrite answeredBackfillTimer_run. destruct s; reflexivity.
  - intros Hyes Hne. unfold bind at 1. unfold get at 1.
    rewrite Hyes, Hne. reflexivity.
Qed.

Lemma onCallState_answered_adopts_or_ignores_witness :
  onCallState 9000 (mkCallStateMsg "call-Q" "answered" "outgoing" None None None)
              initializedIdle
  = (Normal tt,
     set_activeCallStartedAt (Some 9000)
       (set_currentCallState answered
          (set_activeCallUUID (Some "call-Q") initializedIdle)),
     [CbCallStateChange answered None; CbCallActiveChange true (Some 9000)]) /\
  onCallState 9000 (mkCallStateMsg "call-Q" "answered" "outgoing" None None None)
              awaitingAnswer
  = (Normal tt, awaitingAnswer, []).
Proof.
  pose proof (onCallState_answered_adopts_or_ignores 9000
                (mkCallStateMsg "call-Q" "answered" "outgoing" None None None)) as H.
  split.
  - exact (proj1 (H initializedIdle eq_refl) eq_refl).
  - exact (proj2 (H awaitingAnswer eq_refl) eq_refl eq_refl).
Defined.

Lemma or_str_truthy (a b : option string) :
  truthy_str b = true -> truthy_str (or_str a b) = true.
Proof. intros Hb. unfold or_str. destruct (truthy_str a) eqn:Ha; assumption. Qed.

(** An incoming [ringing] update makes its call the active one and
    always gives the UI a caller name that is not empty; it does not tear
    anything down: connection, streams, queue and timer of a call in
    progress stay as they are. *)
Theorem onCallState_ringing_names_the_caller (now : Z) (data : CallStateMsg)
  (s : Service) :
  cs_state data = "ringing" -> cs_direction data = "incoming" ->
  let r := onCallState now data s in
  result_of r = Normal tt /\
  activeCallUUID (state_of r) = Some (cs_callId data) /\
  currentCallState (state_of r) = ringing /\
  truthy_str (callerName (state_of r)) = true /\
  effects_of r = cbState s ringing (callerName (state_of r)) /\
  pc (state_of r) = pc s /\
  localStream (state_of r) = localStream s /\
  queuedIceCandidates (state_of r) = queuedIceCandidates s /\
  activeCallStartedAt (state_of r) = activeCallStartedAt s.
Proof.
  intros Hst Hdir r. subst r. unfold onCallState. rewrite Hst, Hdir.
  cbn [String.eqb Ascii.eqb Bool.eqb andb].
  set (name := or_str (cs_callerName data)
                 (or_str (cs_fromLoyaltyId data)
                    (or_str (cs_peerDeviceId data) (Some "Incoming call")))).
  assert (Hname : truthy_str name = true).
  { unfold name. repeat apply or_str_truthy. reflexivity. }
  unfold callOnCallStateChange, cbState.
  destruct s as [? ? ? ? ? ? ? ? ? ? ? ? ? ? cb1 cb2].
  destruct cb1; run; repeat split; assumption.
Qed.

Lemma onCallState_ringing_names_the_caller_witness :
  callerName (state_of (onCallState 9000
     (mkCallStateMsg "call-R" "ringing" "incoming" (Some "dev-7") (Some "")
                     None) answeredCall)) = Some "dev-7" /\
  pc (state_of (onCallState 9000
     (mkCallStateMsg "call-R" "ringing" "incoming" (Some "dev-7") (Some "")
                     None) answeredCall)) = pc answeredCall.
Proof.
  pose proof (onCallState_ringing_names_the_caller 9000
     (mkCallStateMsg "call-R" "ringing" "incoming" (Some "dev-7") (Some "")
                     None) answeredCall eq_refl eq_refl) as H.
  cbv zeta in H. destruct H as (_ & _ & _ & _ & _ & Hpc & _).
  split; [reflexivity|exact Hpc].
Defined.

(* ================================================================== *)
(** ** Reasoning about computations piece by piece *)

Section Total.

Lemma total_ret {A : Type} (a : A) : total (ret a).
Proof. intros s. now exists a. Qed.

Lemma total_get : total get.
Proof. intros s. now exists s. Qed.

Lemma total_modify (f : Service -> Service) : total (modify f).
Proof. intros s. now exists tt. Qed.

Lemma total_emit (e : Effect) : total (emit e).
Proof. intros s. now exists tt. Qed.

Lemma total_bind {A B : Type} (m : M A) (k : A -> M B) :
  total m -> (forall a, total (k a)) -> total (bind m k).
Proof.
  intros Hm Hk s. destruct (Hm s) as [a Ha].
  unfold result_of, bind in *.
  destruct (m s) as [[r s1] t1]. cbn in Ha. subst r.
  destruct (Hk a s1) as [b Hb]. unfold result_of in Hb.
  destruct (k a s1) as [[r2 s2] t2]. now exists b.
Qed.

Lemma total_try_catch {A : Type} (m : M A) (h : JsError -> M A) :
  (forall e, total (h e)) -> total (try_catch m h).
Proof.
  intros Hh s. unfold result_of, try_catch.
  destruct (m s) as [[[a|e] s1] t1]; [now exists a|].
  destruct (Hh e s1) as [b Hb]. unfold result_of in Hb.
  destruct (h e s1) as [[r2 s2] t2]. now exists b.
Qed.

Lemma total_for_each {A : Type} (xs : list A) (body : A -> M unit) :
  (forall x, total (body x)) -> total (for_each xs body).
Proof.
  intros Hb. induction xs as [|x xs IH]; [apply total_ret|].
  cbn [for_each]. apply total_bind; [apply Hb|intros _; exact IH].
Qed.

End Total.

Section EmitsOnly.
Context (p : Effect -> bool).

Lemma emitsOnly_ret {A : Type} (a : A) : emitsOnly p (ret a).
Proof. intros s. reflexivity. Qed.

Lemma emitsOnly_throw {A : Type} (e : JsError) : emitsOnly p (@throw A e).
Proof. intros s. reflexivity. Qed.

Lemma emitsOnly_get : emitsOnly p get.
Proof. intros s. reflexivity. Qed.

Lemma emitsOnly_modify (f : Service -> Service) : emitsOnly p (modify f).
Proof. intros s. reflexivity. Qed.

Lemma emitsOnly_emit (e : Effect) : p e = true -> emitsOnly p (emit e).
Proof. intros H s. cbn. now rewrite H. Qed.

Lemma emitsOnly_bind {A B : Type} (m : M A) (k : A -> M B) :
  emitsOnly p m -> (forall a, emitsOnly p (k a)) -> emitsOnly p (bind m k).
Proof.
  intros Hm Hk s. specialize (Hm s). unfold effects_of, bind in *.
  destruct (m s) as [[[a|e] s1] t1]; cbn in *; [|exact Hm].
  specialize (Hk a s1). unfold effects_of in Hk.
  destruct (k a s1) as [[r2 s2] t2]. cbn in *.
  rewrite forallb_app, Hm, Hk. reflexivity.
Qed.

Lemma emitsOnly_try_catch {A : Type} (m : M A) (h : JsError -> M A) :
  emitsOnly p m -> (forall e, emitsOnly p (h e)) -> emitsOnly p (try_catch m h).
Proof.
  intros Hm Hh s. specialize (Hm s). unfold effects_of, try_catch in *.
  destruct (m s) as [[[a|e] s1] t1]; cbn in *; [exact Hm|].
  specialize (Hh e s1). unfold effects_of in Hh.
  destruct (h e s1) as [[r2 s2] t2]. cbn in *.
  rewrite forallb_app, Hm, Hh. reflexivity.
Qed.

Lemma emitsOnly_for_each {A : Type} (xs : list A) (body : A -> M unit) :
  (forall x, emitsOnly p (body x)) -> emitsOnly p (for_each xs body).
Proof.
  intros Hb. induction xs as [|x xs IH]; [apply emitsOnly_ret|].
  cbn [for_each]. apply emitsOnly_bind; [apply Hb|intros _; exact IH].
Qed.

End EmitsOnly.

Section Keeps.
Context (R : Service -> Service -> Prop).
Hypothesis R_refl : forall s, R s s.
Hypothesis R_trans : forall a b c, R a b -> R b c -> R a c.

Lemma keeps_ret {A : Type} (a : A) : keeps R (ret a).
Proof. intros s. apply R_refl. Qed.

Lemma keeps_throw {A : Type} (e : JsError) : keeps R (@throw A e).
Proof. intros s. apply R_refl. Qed.

Lemma keeps_get : keeps R get.
Proof. intros s. apply R_refl. Qed.

Lemma keeps_emit (e : Effect) : keeps R (emit e).
Proof. intros s. apply R_refl. Qed.

Lemma keeps_modify (f : Service -> Service) :
  (forall s, R s (f s)) -> keeps R (modify f).
Proof. intros H s. apply H. Qed.

Lemma keeps_bind {A B : Type} (m : M A) (k : A -> M B) :
  keeps R m -> (forall a, keeps R (k a)) -> keeps R (bind m k).
Proof.
  intros Hm Hk s. specialize (Hm s). unfold state_of, bind in *.
  destruct (m s) as [[[a|e] s1] t1]; cbn in *; [|exact Hm].
  specialize (Hk a s1). unfold state_of in Hk.
  destruct (k a s1) as [[r2 s2] t2]. cbn in *.
  exact (R_trans _ _ _ Hm Hk).
Qed.

Lemma keeps_try_catch {A : Type} (m : M A) (h : JsError -> M A) :
  keeps R m -> (forall e, keeps R (h e)) -> keeps R (try_catch m h).
Proof.
  intros Hm Hh s. specialize (Hm s). unfold state_of, try_catch in *.
  destruct (m s) as [[[a|e] s1] t1]; cbn in *; [exact Hm|].
  specialize (Hh e s1). unfold state_of in Hh.
  destruct (h e s1) as [[r2 s2] t2]. cbn in *.
  exact (R_trans _ _ _ Hm Hh).
Qed.

Lemma keeps_for_each {A : Type} (xs : list A) (body : A -> M unit) :
  (forall x, keeps R (body x)) -> keeps R (for_each xs body).
Proof.
  intros Hb. induction xs as [|x xs IH]; [apply keeps_ret|].
  cbn [for_each]. apply keeps_bind; [apply Hb|intros _; exact IH].
Qed.

End Keeps.

Lemma sameRegistration_refl (s : Service) : sameRegistration s s.
Proof. repeat split. Qed.

Lemma sameRegistration_trans (a b c : Service) :
  sameRegistration a b -> sameRegistration b c -> sameRegistration a c.
Proof.
  unfold sameRegistration.
  intros (H1 & H2 & H3 & H4 & H5 & H6 & H7) (G1 & G2 & G3 & G4 & G5 & G6 & G7).
  repeat split; congruence.
Qed.

(* ================================================================== *)
(** ** What the handlers never do *)

Ltac unfold_blocks :=
  repeat progress unfold endCall, endVoiceCall, answeredStartTimer, answeredBackfillTimer,
    callOnCallStateChange, callOnCallActiveChange,
    processQueuedIceCandidates, addIceCandidate, setRemoteDescription,
    nullDereference, resetAfterReject, ensureSocketConnected,
    createAndSetLocalOffer.

Ltac total_tac :=
  repeat match goal with
  | |- total (ret _) => apply total_ret
  | |- total get => apply total_get
  | |- total (modify _) => apply total_modify
  | |- total (emit _) => apply total_emit
  | |- total (try_catch _ _) => apply total_try_catch
  | |- total (for_each _ _) => apply total_for_each
  | |- total (bind _ _) => apply total_bind
  | |- forall _, _ => intro
  | |- total (match ?x with _ => _ end) => destruct x
  end.

Ltac emits_tac :=
  repeat match goal with
  | |- emitsOnly _ (ret _) => apply emitsOnly_ret
  | |- emitsOnly _ get => apply emitsOnly_get
  | |- emitsOnly _ (modify _) => apply emitsOnly_modify
  | |- emitsOnly _ (throw _) => apply emitsOnly_throw
  | |- emitsOnly _ (emit _) => apply emitsOnly_emit; reflexivity
  | |- emitsOnly _ (try_catch _ _) => apply emitsOnly_try_catch
  | |- emitsOnly _ (for_each _ _) => apply emitsOnly_for_each
  | |- emitsOnly _ (bind _ _) => apply emitsOnly_bind
  | |- forall _, _ => intro
  | |- emitsOnly _ (match ?x with _ => _ end) => destruct x
  end.

Ltac keeps_registration :=
  repeat match goal with
  | |- keeps _ (ret _) => apply (keeps_ret _ sameRegistration_refl)
  | |- keeps _ get => apply (keeps_get _ sameRegistration_refl)
  | |- keeps _ (throw _) => apply (keeps_throw _ sameRegistration_refl)
  | |- keeps _ (emit _) => apply (keeps_emit _ sameRegistration_refl)
  | |- keeps _ (modify _) =>
      apply keeps_modify; intros [? ? ? ? ? ? ? ? ? ? ? ? ? ? ? ?];
      repeat split
  | |- keeps _ (try_catch _ _) =>
      apply (keeps_try_catch _ sameRegistration_trans)
  | |- keeps _ (for_each _ _) =>
      apply (keeps_for_each _ sameRegistration_refl sameRegistration_trans)
  | |- keeps _ (bind _ _) => apply (keeps_bind _ sameRegistration_trans)
  | |- forall _, _ => intro
  | |- keeps _ (match ?x with _ => _ end) => destruct x
  end.

Section Handlers.
Context (E : Engine).

Lemma total_pollBody (callId : string) (cur : nat) (t : Tick) :
  total (pollBody E callId cur t).
Proof. unfold pollBody. unfold_blocks. total_tac. Qed.

Lemma total_pollLoop (callId : string) (cur : nat) (env : nat -> Tick) :
  forall remaining i, total (pollLoop E remaining i callId cur env).
Proof.
  induction remaining as [|r IH]; intros i; cbn [pollLoop].
  - apply total_ret.
  - apply total_bind; [apply total_emit|]. intros _.
    apply total_bind; [apply total_modify|]. intros _.
    apply total_bind; [apply total_pollBody|]. intros step.
    destruct step; [apply IH|apply total_ret].
Qed.

(** Every socket handler, the poll and the two timer-driven resets
    complete normally, whatever the engine and the relay answer: no
    error escapes into the event loop. *)
Theorem handlers_never_throw (now : Z) (env : MediaEnv) :
  (forall data, total (onCallState now data)) /\
  (forall data, total (onOffer E env data)) /\
  (forall data, total (onAnswer E now data)) /\
  (forall data, total (onIceCandidate E data)) /\
  (forall callId ticks, total (waitForAnswerHTTP E callId ticks)) /\
  (forall callUUID notifyError, total (rejectCall callUUID notifyError)) /\
  total resetAfterReject /\
  total endCall.
Proof.
  repeat match goal with |- _ /\ _ => split end; intros.
  - unfold onCallState. unfold_blocks. total_tac.
  - unfold onOffer. unfold_blocks. total_tac.
  - unfold onAnswer. unfold_blocks. total_tac.
  - unfold onIceCandidate. unfold_blocks. total_tac.
  - unfold waitForAnswerHTTP. apply total_bind; [apply total_get|].
    intros s. destruct (pc s); [apply total_pollLoop|apply total_ret].
  - unfold rejectCall. unfold_blocks. total_tac.
  - unfold_blocks. total_tac.
  - unfold_blocks. total_tac.
Qed.


(** The answer handler, the candidate handler and the drain only call
    the engine for the remote description and the candidates, and the
    UI callbacks: they never contact the relay, never close the
    connection, never touch the media and never set a timer. *)
Theorem signaling_handlers_only_signal (now : Z) :
  (forall data, emitsOnly isSignalingEffect (onAnswer E now data)) /\
  (forall data, emitsOnly isSignalingEffect (onIceCandidate E data)) /\
  (forall callId,
      emitsOnly isSignalingEffect (processQueuedIceCandidates E callId)).
Proof.
  repeat match goal with |- _ /\ _ => split end; intros.
  - unfold onAnswer. unfold_blocks. emits_tac.
  - unfold onIceCandidate. unfold_blocks. emits_tac.
  - unfold_blocks. emits_tac.
Qed.

Lemma keeps_registration_pollBody (callId : string) (cur : nat) (t : Tick) :
  (forall s, sameRegistration s (duringFetch t s)) ->
  keeps sameRegistration (pollBody E callId cur t).
Proof.
  intros Hf. unfold pollBody. unfold_blocks.
  apply (keeps_bind _ sameRegistration_trans);
    [apply (keeps_get _ sameRegistration_refl)|]. intros s.
  destruct (pollCancelled cur s); [apply (keeps_ret _ sameRegistration_refl)|].
  apply (keeps_try_catch _ sameRegistration_trans);
    [|intros; apply (keeps_ret _ sameRegistration_refl)].
  apply (keeps_bind _ sameRegistration_trans);
    [apply (keeps_emit _ sameRegistration_refl)|]. intros _.
  apply (keeps_bind _ sameRegistration_trans);
    [apply keeps_modify; exact Hf|]. intros _.
  keeps_registration.
Qed.

Lemma keeps_registration_pollLoop (callId : string) (cur : nat)
  (env : nat -> Tick) :
  (forall i s, sameRegistration s (duringSleep (env i) s)) ->
  (forall i s, sameRegistration s (duringFetch (env i) s)) ->
  forall remaining i,
    keeps sameRegistration (pollLoop E remaining i callId cur env).
Proof.
  intros Hs Hf. induction remaining as [|r IH]; intros i; cbn [pollLoop].
  - apply (keeps_ret _ sameRegistration_refl).
  - apply (keeps_bind _ sameRegistration_trans);
      [apply (keeps_emit _ sameRegistration_refl)|]. intros _.
    apply (keeps_bind _ sameRegistration_trans);
      [apply keeps_modify; apply Hs|]. intros _.
    apply (keeps_bind _ sameRegistration_trans);
      [apply keeps_registration_pollBody; apply Hf|]. intros step.
    destruct step; [apply IH|apply (keeps_ret _ sameRegistration_refl)].
Qed.

Lemma keeps_registration_startVoiceCall (callUUID : string)
  (remoteOffer : option SessionDescription) (env : MediaEnv) :
  keeps sameRegistration (startVoiceCall E callUUID remoteOffer env).
Proof. unfold startVoiceCall. unfold_blocks. keeps_registration. Qed.

(** No handler, no teardown and no dial changes the identity the
    service was initialized with, the registered UI callbacks, or the
    mute and speaker flags.  The poll keeps them if what happens during
    its sleeps and requests does, the dial if the wait for the answer
    does. *)
Theorem registration_survives_calls (now : Z) (env : MediaEnv) :
  (forall data, keeps sameRegistration (onCallState now data)) /\
  (forall data, keeps sameRegistration (onOffer E env data)) /\
  (forall data, keeps sameRegistration (onAnswer E now data)) /\
  (forall data, keeps sameRegistration (onIceCandidate E data)) /\
  (forall callUUID notifyError,
      keeps sameRegistration (rejectCall callUUID notifyError)) /\
  keeps sameRegistration resetAfterReject /\
  keeps sameRegistration endCall /\
  (forall callId ticks,
      (forall i s, sameRegistration s (duringSleep (ticks i) s)) ->
      (forall i s, sameRegistration s (duringFetch (ticks i) s)) ->
      keeps sameRegistration (waitForAnswerHTTP E callId ticks)) /\
  (forall w denv target name,
      (forall callId, keeps sameRegistration (w callId)) ->
      keeps sameRegistration
        (startOutgoingVoiceCallByLoyaltyId E w denv target name)).
Proof.
  repeat match goal with |- _ /\ _ => split end; intros.
  - unfold onCallState. unfold_blocks. keeps_registration.
  - unfold onOffer.
    apply (keeps_bind _ sameRegistration_trans);
      [apply (keeps_get _ sameRegistration_refl)|]. intros s.
    match goal with |- keeps _ (if ?b then _ else _) => destruct b end;
      [|apply (keeps_ret _ sameRegistration_refl)].
    unfold_blocks.
    repeat first
      [ apply keeps_registration_startVoiceCall
      | progress keeps_registration ].
  - unfold onAnswer. unfold_blocks. keeps_registration.
  - unfold onIceCandidate. unfold_blocks. keeps_registration.
  - unfold rejectCall. unfold_blocks. keeps_registration.
  - unfold_blocks. keeps_registration.
  - unfold_blocks. keeps_registration.
  - unfold waitForAnswerHTTP.
    apply (keeps_bind _ sameRegistration_trans);
      [apply (keeps_get _ sameRegistration_refl)|]. intros s.
    destruct (pc s); [now apply keeps_registration_pollLoop
                     |apply (keeps_ret _ sameRegistration_refl)].
  - unfold startOutgoingVoiceCallByLoyaltyId.
    apply (keeps_bind _ sameRegistration_trans);
      [apply (keeps_get _ sameRegistration_refl)|]. intros s.
    destruct (currentDeviceId s), (currentLoyaltyId s);
      try apply (keeps_throw _ sameRegistration_refl).
    match goal with |- keeps _ (if ?b then _ else _) => destruct b end;
      [apply (keeps_throw _ sameRegistration_refl)|].
    cbv zeta. unfold_blocks.
    repeat first
      [ apply keeps_registration_startVoiceCall
      | apply H
      | progress keeps_registration ].
Qed.

End Handlers.

(* ================================================================== *)
(** ** Initialization and the dial *)

Lemma truthy_str_Some (x : string) : x <> "" -> truthy_str (Some x) = true.
Proof.
  intros H. cbn. destruct (String.eqb_spec x ""); [contradiction|reflexivity].
Qed.

(** Initialization refuses an empty loyalty id and changes nothing.  With
    a loyalty id it always completes, never touches the call in
    progress, and is idempotent: initializing again for the same id
    draws no new device id and registers nothing.  A first
    initialization registers the device and opens the dial's guard. *)
Theorem init_behaviour (loyaltyId deviceId : string) (s : Service) :
  (loyaltyId = "" ->
   initWebRTCWithLoyaltyId loyaltyId deviceId s
   = (Throw (Error "loyaltyId is required for WebRTC initialization"),
      s, [])) /\
  (loyaltyId <> "" ->
   let r := initWebRTCWithLoyaltyId loyaltyId deviceId s in
   result_of r = Normal tt /\
   currentLoyaltyId (state_of r) = Some loyaltyId /\
   isVoipInitialized (state_of r) = true /\
   pc (state_of r) = pc s /\
   activeCallUUID (state_of r) = activeCallUUID s /\
   currentCallState (state_of r) = currentCallState s /\
   (forall deviceId',
       initWebRTCWithLoyaltyId loyaltyId deviceId' (state_of r)
       = (Normal tt, state_of r, [])) /\
   (isVoipInitialized s = false -> deviceId <> "" ->
    currentDeviceId (state_of r) = Some deviceId /\
    dialGuard (state_of r) = true /\
    In (RelayRegisterDevice deviceId loyaltyId) (effects_of r))).
Proof.
  split.
  - intros ->. reflexivity.
  - intros Hne r. subst r. pose proof (truthy_str_Some _ Hne) as Ht.
    unfold initWebRTCWithLoyaltyId, ensureSocketConnected, dialGuard.
    rewrite Ht. cbn [negb].
    destruct s as [? ? ? ? loy dev sock ? ini ? ? ? ? ? ? ?].
    destruct ini, loy as [l|], sock as [[|]|]; run;
      try destruct (String.eqb_spec l loyaltyId); subst; cbn;
      rewrite ?String.eqb_refl; cbn;
      repeat match goal with |- _ /\ _ => split end;
      try reflexivity; try discriminate;
      try (intros; rewrite ?String.eqb_refl; reflexivity);
      try (intros _ Hd; pose proof (truthy_str_Some _ Hd) as Hd';
           cbn in Hd', Ht; rewrite ?Hd', ?Ht; repeat split; cbn; auto).
Qed.

Lemma init_behaviour_witness :
  let r := initWebRTCWithLoyaltyId "agent-1" "dev-1" initialService in
  currentDeviceId (state_of r) = Some "dev-1" /\
  dialGuard (state_of r) = true /\
  In (RelayRegisterDevice "dev-1" "agent-1") (effects_of r).
Proof.
  pose proof (proj2 (init_behaviour "agent-1" "dev-1" initialService)
                (fun H : "agent-1" = "" => eq_ind "agent-1"
                   (fun x => match x with "" => False | _ => True end)
                   I "" H)) as H.
  cbv zeta in H. destruct H as (_ & _ & _ & _ & _ & _ & _ & H).
  exact (H eq_refl
           (fun H : "dev-1" = "" => eq_ind "dev-1"
              (fun x => match x with "" => False | _ => True end) I "" H)).
Defined.

Section DialErrors.
Context (E : Engine).

(** Without a completed initialization the dial fails at once: it
    throws the not-initialized error, changes nothing and performs
    nothing. *)
Theorem dial_requires_initialization (w : string -> M unit) (env : DialEnv)
  (target name : string) (s : Service) :
  dialGuard s = false ->
  startOutgoingVoiceCallByLoyaltyId E w env target name s
  = (Throw (Error "WebRTC not initialized. Call initWebRTCWithLoyaltyId first."),
     s, []).
Proof.
  unfold dialGuard, startOutgoingVoiceCallByLoyaltyId.
  unfold bind at 1. unfold get at 1.
  destruct (isVoipInitialized s), (currentDeviceId s) as [d|],
    (currentLoyaltyId s) as [l|]; cbn [andb truthy_str negb orb];
    try reflexivity; try discriminate.
  intros H. 
  destruct (negb (d =? "")%string), (negb (l =? "")%string);
    try discriminate; reflexivity.
Qed.


Lemma settledFailure_bind {A B : Type} (m : M A) (k : A -> M B) (s : Service) :
  emitsOnly (fun e => negb (isRelayCreateCall e)) m ->
  (forall a s1, settledFailure (k a s1)) ->
  settledFailure (bind m k s).
Proof.
  intros Hm Hk e. specialize (Hm s).
  unfold result_of, effects_of, state_of, bind in *.
  destruct (m s) as [[[a|e1] s1] t1]; cbn [fst snd] in *.
  - specialize (Hk a s1). unfold settledFailure, result_of, effects_of,
      state_of in Hk.
    destruct (k a s1) as [[r2 s2] t2]. cbn [fst snd] in *.
    intros Hr Hex. apply (Hk e Hr).
    rewrite existsb_app in Hex. apply orb_true_iff in Hex.
    destruct Hex as [Hex|Hex]; [|exact Hex].
    exfalso. clear -Hm Hex. induction t1 as [|x t1 IH]; [discriminate|].
    cbn in *. apply andb_true_iff in Hm. destruct Hm as [Hx Ht].
    destruct (isRelayCreateCall x); [discriminate|]. now apply IH.
  - intros _ Hex. exfalso. clear -Hm Hex.
    induction t1 as [|x t1 IH]; [discriminate|].
    cbn in *. apply andb_true_iff in Hm. destruct Hm as [Hx Ht].
    destruct (isRelayCreateCall x); [discriminate|]. now apply IH.
Qed.

Lemma tornDown_released (s : Service) : released (tornDown s).
Proof. repeat split. Qed.

Lemma settledFailure_try_teardown {A : Type} (body : M A) (s : Service) :
  settledFailure (try_catch body (fun e => endVoiceCall ;; throw e) s).
Proof.
  intros e. unfold result_of, effects_of, state_of, try_catch.
  destruct (body s) as [[[a0|e0] s3] t3]; cbn [fst snd].
  - discriminate.
  - rewrite (bind_normal _ _ _ _ _ _ (endVoiceCall_run s3)). cbn [fst snd].
    intros _ _. apply tornDown_released.
Qed.

Lemma emitsOnly_startVoiceCall_no_create (callUUID : string)
  (remoteOffer : option SessionDescription) (env : MediaEnv) :
  emitsOnly (fun e => negb (isRelayCreateCall e))
            (startVoiceCall E callUUID remoteOffer env).
Proof. unfold startVoiceCall. unfold_blocks. emits_tac. Qed.

(** Whenever the dial fails after the request that creates the call has
    gone out (the relay refuses it, the request fails, or the wait for
    the answer fails), the teardown has run before the error is
    rethrown: the service holds no connection, no stream, no call and no
    queued candidate, and its state is [idle]. *)
Theorem dial_failure_after_offer_releases (w : string -> M unit)
  (env : DialEnv) (target name : string) (s : Service) (e : JsError) :
  let r := startOutgoingVoiceCallByLoyaltyId E w env target name s in
  result_of r = Throw e ->
  existsb isRelayCreateCall (effects_of r) = true ->
  released (state_of r).
Proof.
  intros r. subst r.
  revert e. change (settledFailure
                      (startOutgoingVoiceCallByLoyaltyId E w env target name s)).
  unfold startOutgoingVoiceCallByLoyaltyId.
  apply settledFailure_bind; [emits_tac|]. intros s0 s1.
  assert (Hthrow : forall msg s2, settledFailure (@throw unit (Error msg) s2)).
  { intros msg s2 e _ Hex. discriminate Hex. }
  destruct (currentDeviceId s0), (currentLoyaltyId s0); try apply Hthrow.
  match goal with |- context [if ?b then _ else _] => destruct b end;
    [apply Hthrow|]. cbv zeta.
  repeat match goal with
         | |- settledFailure (bind _ _ _) =>
             apply settledFailure_bind;
             [first [apply emitsOnly_startVoiceCall_no_create
                    | unfold_blocks; emits_tac]|intros ? ?]
         end.
  apply settledFailure_try_teardown.
Qed.

End DialErrors.

Lemma dial_requires_initialization_witness :
  startOutgoingVoiceCallByLoyaltyId jsepEngine (fun _ => ret tt) dialEnvOk
    "agent-2" "Bob" initialService
  = (Throw (Error "WebRTC not initialized. Call initWebRTCWithLoyaltyId first."),
     initialService, []).
Proof.
  exact (dial_requires_initialization jsepEngine (fun _ => ret tt) dialEnvOk
           "agent-2" "Bob" initialService eq_refl).
Defined.

Lemma dial_failure_after_offer_releases_witness :
  released (state_of (startOutgoingVoiceCallByLoyaltyId jsepEngine
                        (fun _ => ret tt) dialEnvRefused "agent-2" "Bob"
                        initializedIdle)).
Proof.
  exact (dial_failure_after_offer_releases jsepEngine (fun _ => ret tt)
           dialEnvRefused "agent-2" "Bob" initializedIdle
           (Error "Failed to start call: 503") eq_refl eq_refl).
Defined.

(* ================================================================== *)
(** ** Starting a call over an existing one *)

Section Replacing.
Context (E : Engine).

(** [startVoiceCall] without a remote offer, when the microphone is
    granted. *)
Lemma startVoiceCall_caller_run (callUUID : string) (env : MediaEnv)
  (stream : nat) (s : Service) :
  userMedia env = Some stream ->
  startVoiceCall E callUUID None env s
  = (Normal tt,
     set_activeCallUUID (Some callUUID)
       (set_pc (Some (freshPc env))
          (set_localStream (Some stream) (cleared s))),
     clearedEffects s ++ [MediaAcquire stream; EngineNew (newPcId env)]).
Proof.
  intros Hm. unfold startVoiceCall, cleared, clearedEffects, freshPc.
  unfold bind at 1.
  assert (Hpre : (s0 <- get ;;
                  if truthy_obj (pc s0) then endVoiceCall else ret tt) s
                 = (Normal tt, if truthy_obj (pc s) then tornDown s else s,
                    if truthy_obj (pc s) then teardownEffects s else [])).
  { unfold bind, get. destruct (truthy_obj (pc s)); [|reflexivity].
    now rewrite endVoiceCall_run. }
  rewrite Hpre, Hm. run. rewrite ?app_nil_r; reflexivity.
Qed.

(** [startVoiceCall] when the microphone is refused. *)
Lemma startVoiceCall_denied_run (callUUID : string)
  (remoteOffer : option SessionDescription) (env : MediaEnv) (s : Service) :
  userMedia env = None ->
  startVoiceCall E callUUID remoteOffer env s
  = (Throw (Error "Microphone access denied"), cleared s, clearedEffects s).
Proof.
  intros Hm. unfold startVoiceCall, cleared, clearedEffects.
  unfold bind at 1.
  assert (Hpre : (s0 <- get ;;
                  if truthy_obj (pc s0) then endVoiceCall else ret tt) s
                 = (Normal tt, if truthy_obj (pc s) then tornDown s else s,
                    if truthy_obj (pc s) then teardownEffects s else [])).
  { unfold bind, get. destruct (truthy_obj (pc s)); [|reflexivity].
    now rewrite endVoiceCall_run. }
  rewrite Hpre, Hm. run. rewrite ?app_nil_r; reflexivity.
Qed.

(** The dial up to the start of the call. *)
Lemma dial_prelude (w : string -> M unit) (env : DialEnv)
  (target name deviceId loyaltyId : string) (s : Service) :
  dialGuard s = true ->
  currentDeviceId s = Some deviceId -> currentLoyaltyId s = Some loyaltyId ->
  startOutgoingVoiceCallByLoyaltyId E w env target name s
  = let '(r1, s1, t1) :=
      (startVoiceCall E (dial_uuid env) None (dial_media env) ;;
       _ <- createAndSetLocalOffer env ;;
       try_catch
         (emit (RelayCreateCall (dial_uuid env) deviceId loyaltyId target) ;;
          match dial_post env with
          | PostThrows e => throw e
          | PostStatus false status =>
              throw (Error ("Failed to start call: " ++ status)%string)
          | PostStatus true _ => w (dial_uuid env)
          end)
         (fun e => endVoiceCall ;; throw e))
        (markedCalling (dial_uuid env) name s) in
    (r1, s1, cbState s calling (Some name) ++ socketEffects s ++ t1).
Proof.
  intros Hg Hd Hl. unfold dialGuard in Hg.
  unfold startOutgoingVoiceCallByLoyaltyId.
  unfold bind at 1. unfold get at 1. rewrite Hd, Hl.
  rewrite Hd, Hl in Hg.
  apply andb_true_iff in Hg. destruct Hg as [Hg Hl'].
  apply andb_true_iff in Hg. destruct Hg as [Hi Hd'].
  rewrite Hi, Hd', Hl'. cbn [negb orb]. cbv zeta.
  match goal with |- context [bind (startVoiceCall E ?a ?b ?c) ?k] =>
    generalize (bind (startVoiceCall E a b c) k) end.
  intros rest.
  unfold markedCalling, socketEnsured, socketEffects, cbState,
    callOnCallStateChange, ensureSocketConnected.
  destruct s as [? ? ? ? ? ? sock ? ? ? ? ? ? ? cb1 cb2].
  destruct sock as [[|]|], cb1; unfold bind, get, modify, emit, ret; cbn;
    match goal with |- context [rest ?st] =>
      destruct (rest st) as [[r1 s1] t1] end; reflexivity.
Qed.


Lemma markedCalling_fields (callId name : string) (s : Service) :
  pc (markedCalling callId name s) = pc s /\
  currentDeviceId (markedCalling callId name s) = currentDeviceId s /\
  activeCallUUID (markedCalling callId name s) = Some callId /\
  currentCallState (markedCalling callId name s) = calling /\
  callerName (markedCalling callId name s) = Some name.
Proof.
  unfold markedCalling, socketEnsured.
  destruct s as [? ? ? ? ? ? sock ? ? ? ? ? ? ? ? ?].
  destruct sock as [[|]|]; repeat split.
Qed.

(** When the dial fails before the offer is posted, nothing is torn
    down.  A refused microphone leaves the service marked [calling] with
    the new call id and name; a failing [createOffer] leaves it so and
    keeps the new connection and the microphone stream. *)
Theorem dial_failure_before_offer_keeps_state (w : string -> M unit)
  (env : DialEnv) (target name : string) (s : Service) :
  dialGuard s = true -> pc s = None ->
  let r := startOutgoingVoiceCallByLoyaltyId E w env target name s in
  (userMedia (dial_media env) = None ->
   r = (Throw (Error "Microphone access denied"),
        markedCalling (dial_uuid env) name s,
        cbState s calling (Some name) ++ socketEffects s)) /\
  (forall stream e,
      userMedia (dial_media env) = Some stream ->
      dial_offer env = Throw e ->
      r = (Throw e,
           set_activeCallUUID (Some (dial_uuid env))
             (set_pc (Some (freshPc (dial_media env)))
                (set_localStream (Some stream)
                   (markedCalling (dial_uuid env) name s))),
           cbState s calling (Some name) ++ socketEffects s ++
           [MediaAcquire stream; EngineNew (newPcId (dial_media env));
            EngineCreateOffer (newPcId (dial_media env))])).
Proof.
  intros Hg Hpc r. subst r.
  assert (Hids : exists d l, currentDeviceId s = Some d /\
                             currentLoyaltyId s = Some l).
  { unfold dialGuard in Hg.
    destruct (currentDeviceId s) as [d|], (currentLoyaltyId s) as [l|];
      try (rewrite ?andb_false_r in Hg; discriminate). eauto. }
  destruct Hids as (d & l & Hd & Hl).
  destruct (markedCalling_fields (dial_uuid env) name s) as (Hpc' & _).
  rewrite Hpc in Hpc'.
  assert (Hcl : cleared (markedCalling (dial_uuid env) name s)
                = markedCalling (dial_uuid env) name s /\
                clearedEffects (markedCalling (dial_uuid env) name s) = []).
  { unfold cleared, clearedEffects. now rewrite Hpc'. }
  destruct Hcl as [Hcl Hce].
  rewrite (dial_prelude w env target name d l s Hg Hd Hl).
  split.
  - intros Hm.
    rewrite (bind_throw _ _ _ _ _ _
               (startVoiceCall_denied_run _ None _ _ Hm)).
    rewrite Hcl, Hce. now rewrite app_nil_r.
  - intros stream e Hm Ho.
    rewrite (bind_normal _ _ _ _ _ _
               (startVoiceCall_caller_run _ _ stream _ Hm)).
    rewrite Hcl, Hce.
    unfold createAndSetLocalOffer. rewrite Ho.
    destruct (markedCalling (dial_uuid env) name s); reflexivity.
Qed.

(** A dial while a connection exists marks the call [calling] and then
    tears the old connection down through the common teardown, which by
    then works on the new call: the end request to the relay carries the
    new call id, and the UI is told [calling] and right after [idle].
    When everything that follows succeeds, the dial returns normally
    with the state [idle] and no caller name. *)
Theorem dial_over_existing_connection (w : string -> M unit)
  (env : DialEnv) (target name deviceId loyaltyId : string) (stream : nat)
  (p : PeerConnection) (s : Service) :
  dialGuard s = true ->
  currentDeviceId s = Some deviceId -> currentLoyaltyId s = Some loyaltyId ->
  pc s = Some p ->
  userMedia (dial_media env) = Some stream ->
  dial_uuid env <> "" ->
  let r := startOutgoingVoiceCallByLoyaltyId E w env target name s in
  (exists rest,
      effects_of r
      = cbState s calling (Some name) ++ socketEffects s ++
        teardownEffects (markedCalling (dial_uuid env) name s) ++
        [MediaAcquire stream; EngineNew (newPcId (dial_media env))] ++ rest) /\
  In (EngineClose (pc_id p))
     (teardownEffects (markedCalling (dial_uuid env) name s)) /\
  In (RelayEnd (dial_uuid env) deviceId None)
     (teardownEffects (markedCalling (dial_uuid env) name s)) /\
  (forall offer status,
      dial_offer env = Normal offer -> dial_setLocalError env = None ->
      dial_post env = PostStatus true status ->
      (forall c s', w c s' = (Normal tt, s', [])) ->
      result_of r = Normal tt /\
      currentCallState (state_of r) = idle /\
      callerName (state_of r) = None /\
      activeCallUUID (state_of r) = Some (dial_uuid env)).
Proof.
  intros Hg Hd Hl Hpc Hm Hne r. subst r.
  destruct (markedCalling_fields (dial_uuid env) name s)
    as (Hpc' & Hd' & Ha' & _).
  rewrite Hpc in Hpc'. rewrite Hd in Hd'.
  assert (Hce : clearedEffects (markedCalling (dial_uuid env) name s)
                = teardownEffects (markedCalling (dial_uuid env) name s)).
  { unfold clearedEffects. now rewrite Hpc'. }
  assert (Hcl : cleared (markedCalling (dial_uuid env) name s)
                = tornDown (markedCalling (dial_uuid env) name s)).
  { unfold cleared. now rewrite Hpc'. }
  rewrite (dial_prelude w env target name deviceId loyaltyId s Hg Hd Hl).
  rewrite (bind_normal _ _ _ _ _ _
             (startVoiceCall_caller_run _ _ stream _ Hm)).
  rewrite Hce, Hcl.
  repeat match goal with |- _ /\ _ => split end.
  - match goal with |- context [bind ?m ?k ?st] =>
      destruct (bind m k st) as [[r1 s1] t1] end.
    exists t1. unfold effects_of. cbn [snd].
    now rewrite <- !app_assoc.
  - unfold teardownEffects. rewrite Hpc'. cbn. now left.
  - unfold teardownEffects. rewrite Ha', Hd'.
    rewrite (truthy_str_Some _ Hne).
    assert (Htd : truthy_str (Some deviceId) = true).
    { unfold dialGuard in Hg. rewrite Hd in Hg.
      apply andb_true_iff in Hg. destruct Hg as [Hg _].
      apply andb_true_iff in Hg. now destruct Hg. }
    rewrite Htd. cbn [andb].
    apply in_or_app. right. apply in_or_app. right. apply in_or_app. right.
    cbn. now left.
  - intros offer status Ho Hs Hp Hw.
    unfold createAndSetLocalOffer. rewrite Ho, Hs, Hp.
    unfold try_catch, bind, get, emit, modify, ret. cbn.
    rewrite Hw. cbn. repeat split.
Qed.

End Replacing.

(* ================================================================== *)
(** ** The inbound offer *)

Section Offer.
Context (E : Engine).

Lemma startVoiceCall_prelude (s : Service) :
  (s0 <- get ;; if truthy_obj (pc s0) then endVoiceCall else ret tt) s
  = (Normal tt, cleared s, clearedEffects s).
Proof.
  unfold bind, get, cleared, clearedEffects.
  destruct (truthy_obj (pc s)); [|reflexivity]. now rewrite endVoiceCall_run.
Qed.

(** [startVoiceCall] with a remote offer the engine accepts. *)
Lemma startVoiceCall_callee_run (callUUID : string) (o : SessionDescription)
  (env : MediaEnv) (stream : nat) (s : Service) :
  userMedia env = Some stream ->
  sd_type o = sdp_offer ->
  setRemoteDescription_error E (freshPc env) o = None ->
  startVoiceCall E callUUID (Some o) env s
  = (Normal tt,
     set_activeCallUUID (Some callUUID)
       (set_queuedIceCandidates
          (notMatching callUUID (queuedIceCandidates (cleared s)))
          (set_pc (Some (mkPC (newPcId env) have_remote_offer (Some o) None))
             (set_localStream (Some stream) (cleared s)))),
     clearedEffects s ++
     [MediaAcquire stream; EngineNew (newPcId env);
      EngineSetRemoteDescription (newPcId env) o] ++
     map (EngineAddIceCandidate (newPcId env))
         (candidatesOf (matching callUUID (queuedIceCandidates (cleared s))))).
Proof.
  intros Hm Hty Hok. unfold startVoiceCall.
  rewrite (bind_normal _ _ _ _ _ _ (startVoiceCall_prelude s)), Hm.
  unfold bind at 1. unfold emit at 1.
  unfold bind at 1. unfold modify at 1.
  cbv zeta. fold (freshPc env).
  unfold bind at 1. unfold emit at 1.
  unfold bind at 1. unfold modify at 1.
  unfold bind at 1. unfold try_catch.
  rewrite (bind_normal _ _ _ _ _ _
             (setRemoteDescription_ok E (freshPc env) o _ Hok)).
  assert (Hp : applyRemoteDescription (freshPc env) o
               = mkPC (newPcId env) have_remote_offer (Some o) None).
  { unfold applyRemoteDescription. now rewrite Hty. }
  rewrite Hp.
  rewrite (drain_run E callUUID _ (mkPC (newPcId env) have_remote_offer (Some o) None) o);
    [|destruct (cleared s); reflexivity|reflexivity].
  unfold modify. destruct (cleared s); cbn.
  rewrite ?app_nil_r, <- ?app_assoc. reflexivity.
Qed.

(** [startVoiceCall] with a remote offer the engine rejects. *)
Lemma startVoiceCall_callee_rejected (callUUID : string) (o : SessionDescription)
  (env : MediaEnv) (stream : nat) (msg : string) (s : Service) :
  userMedia env = Some stream ->
  setRemoteDescription_error E (freshPc env) o = Some msg ->
  startVoiceCall E callUUID (Some o) env s
  = (Throw (Error msg),
     set_pc (Some (freshPc env)) (set_localStream (Some stream) (cleared s)),
     clearedEffects s ++
     [MediaAcquire stream; EngineNew (newPcId env);
      EngineSetRemoteDescription (newPcId env) o]).
Proof.
  intros Hm Hrej. unfold startVoiceCall.
  rewrite (bind_normal _ _ _ _ _ _ (startVoiceCall_prelude s)), Hm.
  unfold bind at 1. unfold emit at 1.
  unfold bind at 1. unfold modify at 1.
  cbv zeta. fold (freshPc env).
  unfold bind at 1. unfold emit at 1.
  unfold bind at 1. unfold modify at 1.
  unfold bind at 1. unfold try_catch.
  rewrite (bind_throw _ _ _ _ _ _
             (setRemoteDescription_rejected E (freshPc env) o _ msg Hrej)).
  unfold throw. destruct (cleared s); cbn.
  rewrite ?app_nil_r, <- ?app_assoc. reflexivity.
Qed.

(** The handler up to the start of the call. *)
Lemma onOffer_prelude (env : MediaEnv) (data : OfferMsg) (s : Service) :
  truthy_obj (pc s) && strict_eq (activeCallUUID s) (off_callId data) = false ->
  onOffer E env data s
  = let '(r1, s1, t1) :=
      try_catch
        (startVoiceCall E (off_callId data) (Some (off_offer data)) env)
        (fun _ =>
           modify (set_currentCallState idle) ;;
           modify (set_activeCallUUID None) ;;
           (s1 <- get ;; callOnCallStateChange (currentCallState s1) None))
        (markedRinging data s) in
    (r1, s1, cbState s ringing (offerCallerName data) ++ t1).
Proof.
  intros Hnew. unfold onOffer. unfold bind at 1. unfold get at 1.
  assert (Hc : negb (truthy_obj (pc s))
               || negb (strict_eq (activeCallUUID s) (off_callId data)) = true).
  { rewrite <- negb_andb. now rewrite Hnew. }
  rewrite Hc.
  match goal with |- context [try_catch ?b ?h] =>
    generalize (try_catch b h) end.
  intros rest. fold (offerCallerName data).
  unfold markedRinging, cbState, callOnCallStateChange.
  destruct s as [? ? ? ? ? ? ? ? ? ? ? ? ? ? cb1 cb2].
  destruct cb1; unfold bind, get, modify, emit, ret; cbn;
    match goal with |- context [rest ?st] =>
      destruct (rest st) as [[r1 s1] t1] end; reflexivity.
Qed.

Lemma markedRinging_fields (data : OfferMsg) (s : Service) :
  pc (markedRinging data s) = pc s /\
  currentDeviceId (markedRinging data s) = currentDeviceId s /\
  activeCallUUID (markedRinging data s) = Some (off_callId data) /\
  queuedIceCandidates (markedRinging data s) = queuedIceCandidates s /\
  onCallStateChange (markedRinging data s) = onCallStateChange s.
Proof. destruct s; repeat split. Qed.

(** The inbound offer when the service holds no connection.  A second
    offer for the call already set up is ignored.  Otherwise the call is
    shown as [ringing] and set up: if the microphone is refused the
    handler reports [idle] and forgets the call id; if the engine
    rejects the offer it does the same, but the new connection and the
    microphone stream stay held; if the engine accepts it the call
    stays [ringing] on a connection that has the remote offer, and the
    queued candidates of the call have been applied in order. *)
Theorem onOffer_without_connection (env : MediaEnv) (data : OfferMsg)
  (s : Service) :
  (forall p, pc s = Some p ->
             strict_eq (activeCallUUID s) (off_callId data) = true ->
             onOffer E env data s = (Normal tt, s, [])) /\
  (pc s = None ->
   let r := onOffer E env data s in
   (userMedia env = None ->
    r = (Normal tt,
         set_activeCallUUID None (set_currentCallState idle
                                    (markedRinging data s)),
         cbState s ringing (offerCallerName data) ++ cbState s idle None)) /\
   (forall stream msg,
       userMedia env = Some stream ->
       setRemoteDescription_error E (freshPc env) (off_offer data) = Some msg ->
       result_of r = Normal tt /\
       currentCallState (state_of r) = idle /\
       activeCallUUID (state_of r) = None /\
       pc (state_of r) = Some (freshPc env) /\
       localStream (state_of r) = Some stream /\
       filter isRelease (effects_of r) = []) /\
   (forall stream,
       userMedia env = Some stream ->
       sd_type (off_offer data) = sdp_offer ->
       setRemoteDescription_error E (freshPc env) (off_offer data) = None ->
       result_of r = Normal tt /\
       currentCallState (state_of r) = ringing /\
       activeCallUUID (state_of r) = Some (off_callId data) /\
       callerName (state_of r) = offerCallerName data /\
       pc (state_of r)
       = Some (mkPC (newPcId env) have_remote_offer
                    (Some (off_offer data)) None) /\
       queuedIceCandidates (state_of r)
       = notMatching (off_callId data) (queuedIceCandidates s) /\
       effects_of r
       = cbState s ringing (offerCallerName data) ++
         [MediaAcquire stream; EngineNew (newPcId env);
          EngineSetRemoteDescription (newPcId env) (off_offer data)] ++
         map (EngineAddIceCandidate (newPcId env))
             (candidatesOf (matching (off_callId data)
                                     (queuedIceCandidates s))))).
Proof.
  split.
  - intros p Hpc Hact. unfold onOffer. unfold bind at 1. unfold get at 1.
    now rewrite Hpc, Hact.
  - intros Hpc r. subst r.
    assert (Hnew : truthy_obj (pc s)
                   && strict_eq (activeCallUUID s) (off_callId data) = false)
      by now rewrite Hpc.
    rewrite (onOffer_prelude env data s Hnew).
    destruct (markedRinging_fields data s) as (Hpc' & _ & _ & Hq & Hcb).
    rewrite Hpc in Hpc'.
    assert (Hcl : cleared (markedRinging data s) = markedRinging data s /\
                  clearedEffects (markedRinging data s) = []).
    { unfold cleared, clearedEffects. now rewrite Hpc'. }
    destruct Hcl as [Hcl Hce].
    repeat match goal with |- _ /\ _ => split end.
    + intros Hm. unfold try_catch.
      rewrite (startVoiceCall_denied_run E _ _ _ _ Hm), Hcl, Hce.
      unfold cbState, callOnCallStateChange.
      destruct s as [? ? ? ? ? ? ? ? ? ? ? ? ? ? cb1 cb2].
      destruct cb1; reflexivity.
    + intros stream msg Hm Hrej. unfold try_catch.
      rewrite (startVoiceCall_callee_rejected _ _ _ stream msg _ Hm Hrej).
      rewrite Hcl, Hce. unfold cbState, callOnCallStateChange.
      destruct s as [? ? ? ? ? ? ? ? ? ? ? ? ? ? cb1 cb2].
      destruct cb1; repeat split.
    + intros stream Hm Hty Hok. unfold try_catch.
      rewrite (startVoiceCall_callee_run _ _ _ stream _ Hm Hty Hok).
      rewrite Hcl, Hce, Hq.
      unfold result_of, state_of, effects_of. cbn [fst snd app].
      destruct s; repeat split.
Qed.


(** An inbound offer for another call while a connection exists: the
    call is marked [ringing], then the old connection is torn down by
    the common teardown, which by then works on the new call.  The relay
    is sent an end request for the new call, and the handler ends with
    the new call set up on a new connection but with the state [idle]
    and no caller name. *)
Theorem onOffer_over_existing_connection (env : MediaEnv) (data : OfferMsg)
  (stream : nat) (p : PeerConnection) (s : Service) :
  pc s = Some p ->
  strict_eq (activeCallUUID s) (off_callId data) = false ->
  userMedia env = Some stream ->
  sd_type (off_offer data) = sdp_offer ->
  setRemoteDescription_error E (freshPc env) (off_offer data) = None ->
  let r := onOffer E env data s in
  result_of r = Normal tt /\
  currentCallState (state_of r) = idle /\
  callerName (state_of r) = None /\
  activeCallUUID (state_of r) = Some (off_callId data) /\
  pc (state_of r)
  = Some (mkPC (newPcId env) have_remote_offer (Some (off_offer data)) None) /\
  effects_of r
  = cbState s ringing (offerCallerName data) ++
    teardownEffects (markedRinging data s) ++
    [MediaAcquire stream; EngineNew (newPcId env);
     EngineSetRemoteDescription (newPcId env) (off_offer data)] /\
  In (EngineClose (pc_id p)) (teardownEffects (markedRinging data s)) /\
  (forall deviceId,
      currentDeviceId s = Some deviceId -> deviceId <> "" ->
      off_callId data <> "" ->
      In (RelayEnd (off_callId data) deviceId None)
         (teardownEffects (markedRinging data s))).
Proof.
  intros Hpc Hact Hm Hty Hok r. subst r.
  assert (Hnew : truthy_obj (pc s)
                 && strict_eq (activeCallUUID s) (off_callId data) = false)
    by (rewrite Hact; apply andb_false_r).
  rewrite (onOffer_prelude env data s Hnew).
  destruct (markedRinging_fields data s) as (Hpc' & Hd' & Ha' & _ & _).
  rewrite Hpc in Hpc'.
  assert (Hcl : cleared (markedRinging data s) = tornDown (markedRinging data s)
                /\ clearedEffects (markedRinging data s)
                   = teardownEffects (markedRinging data s)).
  { unfold cleared, clearedEffects. now rewrite Hpc'. }
  destruct Hcl as [Hcl Hce].
  unfold try_catch.
  rewrite (startVoiceCall_callee_run _ _ _ stream _ Hm Hty Hok).
  rewrite Hcl, Hce.
  unfold result_of, state_of, effects_of. cbn [fst snd].
  repeat match goal with |- _ /\ _ => split end; try reflexivity.
  - unfold teardownEffects. rewrite Hpc'. cbn. now left.
  - intros deviceId Hd Hdne Hcne.
    unfold teardownEffects. rewrite Ha', Hd', Hd.
    rewrite (truthy_str_Some _ Hdne), (truthy_str_Some _ Hcne). cbn [andb].
    apply in_or_app. right. apply in_or_app. right. apply in_or_app. right.
    cbn. now left.
Qed.

End Offer.

(* ================================================================== *)
(** ** The poll without an answer, and a rejected answer *)

Section PollMore.
Context (E : Engine).

(** A poll that meets a response without a usable answer asks the relay
    once and leaves the service as it is. *)
Lemma pollBody_no_answer (callId : string) (cur : nat) (resp : PollResponse)
  (now : Z) (s : Service) :
  pollCancelled cur s = false ->
  noAnswerYet resp = true ->
  pollBody E callId cur (quietTick resp now) s
  = (Normal LoopContinue, s, [RelayPoll callId]).
Proof.
  intros Hc Hr. unfold pollBody. unfold bind at 1. unfold get at 1.
  rewrite Hc. unfold try_catch, bind, emit, modify, get, ret, throw.
  cbn [quietTick duringFetch response].
  destruct resp as [e| |[a|]]; try reflexivity.
  cbn in Hr. apply negb_true_iff in Hr.
  destruct (pc s); [|reflexivity]. now rewrite Hr.
Qed.

Lemma pollLoop_no_answer (callId : string) (cur : nat) (env : nat -> Tick)
  (s : Service) :
  pollCancelled cur s = false ->
  (forall i, exists resp now,
        env i = quietTick resp now /\ noAnswerYet resp = true) ->
  forall remaining i,
    pollLoop E remaining i callId cur env s
    = (Normal tt, s, pollRounds remaining callId).
Proof.
  intros Hc Henv. induction remaining as [|r IH]; intros i; [reflexivity|].
  rewrite pollLoop_step.
  destruct (Henv i) as (resp & now & -> & Hr).
  cbn [quietTick duringSleep]. fold (quietTick resp now).
  rewrite (pollBody_no_answer callId cur resp now s Hc Hr).
  now rewrite IH.
Qed.

(** While the call stays active and the relay never has a usable answer
    (the request fails, is refused, or carries no answer), the poll asks
    exactly 30 times, one second apart, then gives up; the service is
    left exactly as it was. *)
Theorem waitForAnswerHTTP_gives_up_after_30 (callId : string)
  (env : nat -> Tick) (s : Service) (p : PeerConnection) :
  pc s = Some p ->
  truthy_str (activeCallUUID s) = true ->
  (forall i, exists resp now,
        env i = quietTick resp now /\ noAnswerYet resp = true) ->
  waitForAnswerHTTP E callId env s = (Normal tt, s, pollRounds 30 callId).
Proof.
  intros Hpc Hact Henv. unfold waitForAnswerHTTP.
  unfold bind at 1. unfold get at 1. rewrite Hpc.
  rewrite (pollLoop_no_answer callId (pc_id p) env s); [reflexivity| |exact Henv].
  unfold pollCancelled, samePc. now rewrite Hpc, Hact, Nat.eqb_refl.
Qed.

(** An engine rejection that the message test takes for a wrong-state
    condition, met after the local offer, is handled differently by the
    two paths.  The push handler looks at the signaling state again and,
    finding it unchanged, leaves the call as it is.  The poll marks the
    call [answered], starts the timer if it is not running, tells the UI
    and stops polling, although no answer was applied. *)
Theorem wrong_state_rejection_push_and_poll (now : Z) (data : AnswerMsg)
  (s : Service) (p : PeerConnection) (msg : string) :
  pc s = Some p ->
  signalingState p = have_local_offer ->
  strict_eq (activeCallUUID s) (ans_callId data) = true ->
  truthy_str (activeCallUUID s) = true ->
  currentCallState s = calling ->
  truthy_str (sd_sdp (ans_answer data)) = true ->
  setRemoteDescription_error E p (ans_answer data) = Some msg ->
  isWrongStateError (Error msg) = true ->
  onAnswer E now data s
  = (Normal tt, s, [EngineSetRemoteDescription (pc_id p) (ans_answer data)]) /\
  pollBody E (ans_callId data) (pc_id p)
           (quietTick (RespJson (Some (ans_answer data))) now) s
  = (Normal LoopReturn,
     set_activeCallStartedAt (backfilled now s)
       (set_currentCallState answered s),
     [RelayPoll (ans_callId data);
      EngineSetRemoteDescription (pc_id p) (ans_answer data)] ++
     cbState s answered (callerName s) ++
     cbActive s true (backfilled now s)).
Proof.
  intros Hpc Hsig Hact Htr Hst Hsdp Hrej Hw. split.
  - unfold onAnswer. unfold bind at 1. unfold get at 1.
    rewrite Hpc, Hact, Hsig, Hst. cbn [CallState_eqb orb negb].
    unfold try_catch.
    rewrite (bind_throw _ _ _ _ _ _
               (setRemoteDescription_rejected E p _ s msg Hrej)).
    rewrite Hw. unfold bind at 1. unfold get at 1.
    rewrite Hpc, Hsig. reflexivity.
  - unfold pollBody. unfold bind at 1. unfold get at 1.
    unfold pollCancelled, samePc. rewrite Hpc, Htr, Nat.eqb_refl.
    cbn [negb orb]. unfold try_catch at 1.
    unfold bind at 1. unfold emit at 1.
    unfold bind at 1. unfold modify at 1.
    cbn [quietTick duringFetch response tickNow].
    unfold bind at 1. unfold get at 1.
    rewrite Hpc, Hsdp, Nat.eqb_refl, Hsig. cbn [andb].
    unfold try_catch.
    rewrite (bind_throw _ _ _ _ _ _
               (setRemoteDescription_rejected E p _ s msg Hrej)).
    rewrite Hw.
    rewrite (bind_normal _ _ _ _ _ _ (answeredBackfillTimer_run _ _)).
    cbn. now rewrite app_nil_r.
Qed.

End PollMore.

(* ================================================================== *)
(** ** The grace timer of a reject *)

(** The timer a reject arms is never cancelled and does not check which
    call is current when it fires: an inbound call that starts ringing
    within the grace period is wiped from the service state (state
    [idle], no call id, no caller name) when the timer fires, while
    nothing is torn down. *)
Theorem reject_timer_wipes_next_call (callUUID : string)
  (notifyError : option JsError) (now : Z) (data : CallStateMsg)
  (s : Service) :
  cs_state data = "ringing" -> cs_direction data = "incoming" ->
  let s1 := state_of (rejectCall callUUID notifyError s) in
  let s2 := state_of (onCallState now data s1) in
  let r := resetAfterReject s2 in
  In (SetTimeout 2000 ResetAfterReject)
     (effects_of (rejectCall callUUID notifyError s)) /\
  currentCallState s2 = ringing /\
  activeCallUUID s2 = Some (cs_callId data) /\
  result_of r = Normal tt /\
  currentCallState (state_of r) = idle /\
  activeCallUUID (state_of r) = None /\
  callerName (state_of r) = None /\
  effects_of r = cbState s idle None.
Proof.
  intros Hst Hdir s1 s2 r. subst r s2 s1.
  rewrite rejectCall_run. unfold state_of, effects_of, result_of.
  cbn [fst snd].
  split.
  { apply in_or_app. right. apply in_or_app. right.
    apply in_or_app. right. now left. }
  unfold onCallState. rewrite Hst, Hdir.
  cbn [String.eqb Ascii.eqb Bool.eqb andb].
  unfold resetAfterReject, callOnCallStateChange, cbState, tornDown.
  destruct s as [? ? ? ? ? ? ? ? ? ? ? ? ? ? cb1 cb2].
  destruct cb1; run; repeat split.
Qed.

(* ================================================================== *)
(** ** The wait for the answer when only the poll delivers it *)

Section PollOnly.
Context (E : Engine).

Lemma waitForAnswerHTTP_completes (callId : string) (env : nat -> Tick)
  (s : Service) :
  exists s' l, waitForAnswerHTTP E callId env s = (Normal tt, s', l).
Proof.
  unfold waitForAnswerHTTP. unfold bind at 1. unfold get at 1.
  destruct (pc s) as [p|].
  - destruct (pollLoop_bounded E callId (pc_id p) env 30 0 s)
      as (s' & l & Hrun & _).
    rewrite Hrun. now exists s', l.
  - now exists s, [].
Qed.

(** The poll never settles the promise of [waitForAnswer] and never
    clears its timer.  So in a run where no ['answer'] event reaches the
    temporary listener, a dial whose offer went out ends with the
    timeout error and the teardown, applied to whatever the poll has made
    of the call, an answered call included: the service ends released. *)
Theorem dial_with_poll_only_answer_times_out (ticks : nat -> Tick)
  (env : DialEnv) (target name deviceId loyaltyId status : string)
  (stream : nat) (offer : SessionDescription) (s : Service) :
  dialGuard s = true ->
  currentDeviceId s = Some deviceId -> currentLoyaltyId s = Some loyaltyId ->
  pc s = None ->
  userMedia (dial_media env) = Some stream ->
  dial_offer env = Normal offer ->
  dial_setLocalError env = None ->
  dial_post env = PostStatus true status ->
  let r := startOutgoingVoiceCallByLoyaltyId E (waitForAnswerPollOnly E ticks)
             env target name s in
  result_of r = Throw (Error "Answer timeout") /\
  released (state_of r) /\
  exists polled l,
    waitForAnswerHTTP E (dial_uuid env) ticks
      (set_pc (Some (mkPC (newPcId (dial_media env)) have_local_offer None
                          (Some offer)))
         (set_activeCallUUID (Some (dial_uuid env))
            (set_pc (Some (freshPc (dial_media env)))
               (set_localStream (Some stream)
                  (markedCalling (dial_uuid env) name s)))))
    = (Normal tt, polled, l) /\
    state_of r = tornDown polled /\
    effects_of r
    = cbState s calling (Some name) ++ socketEffects s ++
      [MediaAcquire stream; EngineNew (newPcId (dial_media env));
       EngineCreateOffer (newPcId (dial_media env));
       EngineSetLocalDescription (newPcId (dial_media env)) offer;
       RelayCreateCall (dial_uuid env) deviceId loyaltyId target;
       SetTimeout 30000 AnswerTimeout] ++
      l ++ teardownEffects polled.
Proof.
  intros Hg Hd Hl Hpc Hm Ho Hs Hp r. subst r.
  destruct (markedCalling_fields (dial_uuid env) name s) as (Hpc' & _).
  rewrite Hpc in Hpc'.
  assert (Hcl : cleared (markedCalling (dial_uuid env) name s)
                = markedCalling (dial_uuid env) name s /\
                clearedEffects (markedCalling (dial_uuid env) name s) = []).
  { unfold cleared, clearedEffects. now rewrite Hpc'. }
  destruct Hcl as [Hcl Hce].
  rewrite (dial_prelude E _ env target name deviceId loyaltyId s Hg Hd Hl).
  rewrite (bind_normal _ _ _ _ _ _
             (startVoiceCall_caller_run E _ _ stream _ Hm)).
  rewrite Hcl, Hce.
  set (s2 := set_activeCallUUID _ _).
  assert (Hoffer : createAndSetLocalOffer env s2
                   = (Normal offer,
                      set_pc (Some (mkPC (newPcId (dial_media env))
                                         have_local_offer None (Some offer))) s2,
                      [EngineCreateOffer (newPcId (dial_media env));
                       EngineSetLocalDescription (newPcId (dial_media env))
                                                 offer])).
  { unfold createAndSetLocalOffer. rewrite Ho, Hs. subst s2.
    destruct (markedCalling (dial_uuid env) name s); reflexivity. }
  rewrite (bind_normal _ _ _ _ _ _ Hoffer). rewrite Hp.
  set (s3 := set_pc _ s2).
  destruct (waitForAnswerHTTP_completes (dial_uuid env) ticks s3)
    as (polled & l & Hpoll).
  assert (Hwait : waitForAnswerPollOnly E ticks (dial_uuid env) s3
                  = (Throw (Error "Answer timeout"), polled,
                     SetTimeout 30000 AnswerTimeout :: l)).
  { unfold waitForAnswerPollOnly. unfold bind at 1. unfold get at 1.
    replace (pc s3) with (Some (mkPC (newPcId (dial_media env))
                                     have_local_offer None (Some offer)))
      by (subst s3 s2; destruct (markedCalling (dial_uuid env) name s);
          reflexivity).
    unfold bind at 1. unfold emit at 1.
    rewrite (bind_normal _ _ _ _ _ _ Hpoll). cbn. now rewrite app_nil_r. }
  assert (Htry :
    try_catch
      (emit (RelayCreateCall (dial_uuid env) deviceId loyaltyId target) ;;
       waitForAnswerPollOnly E ticks (dial_uuid env))
      (fun e => endVoiceCall ;; throw e) s3
    = (Throw (Error "Answer timeout"), tornDown polled,
       RelayCreateCall (dial_uuid env) deviceId loyaltyId target ::
       SetTimeout 30000 AnswerTimeout :: l ++ teardownEffects polled)).
  { unfold try_catch. unfold bind at 1. unfold emit at 1. rewrite Hwait.
    rewrite (bind_normal _ _ _ _ _ _ (endVoiceCall_run polled)).
    cbn. now rewrite app_nil_r. }
  rewrite Htry.
  unfold result_of, state_of, effects_of. cbn [fst snd].
  split; [reflexivity|]. split; [repeat split|].
  exists polled, l. split; [exact Hpoll|]. split; [reflexivity|].
  cbn. rewrite ?app_nil_r, <- ?app_assoc. reflexivity.
Qed.

End PollOnly.

Lemma dial_with_poll_only_answer_times_out_witness :
  let r := startOutgoingVoiceCallByLoyaltyId jsepEngine
             (waitForAnswerPollOnly jsepEngine answerAtThirdPoll)
             dialEnvOk "agent-2" "Bob" initializedIdle in
  result_of r = Throw (Error "Answer timeout") /\ released (state_of r).
Proof.
  pose proof (dial_with_poll_only_answer_times_out jsepEngine answerAtThirdPoll
                dialEnvOk "agent-2" "Bob" "dev-1" "agent-1" "200" 20
                sampleOffer initializedIdle
                eq_refl eq_refl eq_refl eq_refl eq_refl eq_refl eq_refl eq_refl)
    as H.
  cbv zeta in H. destruct H as (H1 & H2 & _). split; assumption.
Defined.

(** The run of the witness, effect by effect: the third poll applies the
    answer and the UI is told [answered]; the timeout then closes the
    connection, stops the microphone and tells the relay and the UI that
    the call is over. *)
Example dial_answered_by_poll_then_torn_down :
  effects_of (startOutgoingVoiceCallByLoyaltyId jsepEngine
                (waitForAnswerPollOnly jsepEngine answerAtThirdPoll)
                dialEnvOk "agent-2" "Bob" initializedIdle)
  = [CbCallStateChange calling (Some "Bob");
     MediaAcquire 20; EngineNew 2; EngineCreateOffer 2;
     EngineSetLocalDescription 2 sampleOffer;
     RelayCreateCall "call-S" "dev-1" "agent-1" "agent-2";
     SetTimeout 30000 AnswerTimeout;
     Sleep 1000; RelayPoll "call-S";
     Sleep 1000; RelayPoll "call-S";
     Sleep 1000; RelayPoll "call-S";
     EngineSetRemoteDescription 2 sampleAnswer;
     CbCallStateChange answered (Some "Bob");
     CbCallActiveChange true (Some 3000);
     EngineClose 2; MediaStop 20;
     RelayEnd "call-S" "dev-1" None;
     CbCallStateChange idle None;
     CbCallActiveChange false None].
Proof. reflexivity. Qed.

(* ================================================================== *)
(** ** The page's call handler *)

Section CallHandler.
Context (E : Engine).

Lemma total_initWebRTC_caught (my dev : string) :
  total (try_catch
           (initWebRTCWithLoyaltyId my dev ;;
            emit (UiSetCurrentLoyaltyId my))
           (fun _ => ret tt)).
Proof. apply total_try_catch. intros _. apply total_ret. Qed.

(** The call handler never lets an error escape, whatever the dial
    does: every failure ends in an alert.  Without a stored user it
    alerts and navigates to the login page; a user who is offline and
    has no push token is refused with an alert, without a dial; and when
    the dial throws, the handler completes normally, leaves the service
    as the dial left it and alerts with the error's message. *)
Theorem handleCallUser_reports_every_failure (w : string -> M unit)
  (env : DialEnv) (page dev : string) (user : User) :
  (forall storedUser,
      total (handleCallUser E w env storedUser page dev user)) /\
  (forall s,
      handleCallUser E w env None page dev user s
      = (Normal tt, s, [UiAlert AlertNotAuthorized; UiNavigate "/login"])) /\
  (forall su my s,
      or_str (su_loyaltyId su) (su_loyalty_id su) = Some my ->
      my <> "" -> truthy_str (Some page) = true ->
      u_loyaltyId user <> my ->
      (u_online user = false -> u_hasVoipToken user = false ->
       handleCallUser E w env (Some su) page dev user s
       = (Normal tt, s, [UiAlert AlertPeerUnreachable])) /\
      (forall e s1 l,
          u_online user || u_hasVoipToken user = true ->
          startOutgoingVoiceCallByLoyaltyId E w env (u_loyaltyId user)
            (u_displayName user) s = (Throw e, s1, l) ->
          includes (message_or "Unknown error" e) "not initialized" = false ->
          handleCallUser E w env (Some su) page dev user s
          = (Normal tt, s1,
             l ++ [UiAlert (AlertCallFailed (message_or "Unknown error" e))]))).
Proof.
  repeat match goal with |- _ /\ _ => split end.
  - intros storedUser. unfold handleCallUser.
    destruct storedUser as [su|]; [|total_tac].
    destruct (or_str (su_loyaltyId su) (su_loyalty_id su)) as [my|];
      [|total_tac].
    match goal with |- total (if ?b then _ else _) => destruct b end;
      [total_tac|].
    apply total_bind.
    + match goal with |- total (if ?b then _ else _) => destruct b end;
        total_tac.
    + intros initialized. destruct initialized; cbn [negb]; [|apply total_ret].
      repeat match goal with
             | |- total (if ?b then _ else _) => destruct b
             end; total_tac.
  - intros s. reflexivity.
  - intros su my s Hor Hne Hpage Hother.
    assert (Hmy : truthy_str (Some my) = true).
    { cbn. destruct (String.eqb_spec my ""); [contradiction|reflexivity]. }
    assert (Hneq : (u_loyaltyId user =? my)%string = false).
    { now apply String.eqb_neq. }
    split.
    + intros Hoff Htok. unfold handleCallUser.
      rewrite Hor, Hmy, Hpage. cbn [negb].
      unfold bind at 1. unfold ret at 1. cbn [negb].
      now rewrite Hneq, Hoff, Htok.
    + intros e s1 l Hreach Hdial Hmsg. unfold handleCallUser.
      rewrite Hor, Hmy, Hpage. cbn [negb].
      unfold bind at 1. unfold ret at 1. cbn [negb].
      rewrite Hneq.
      assert (Hr : negb (u_online user) && negb (u_hasVoipToken user) = false).
      { rewrite <- negb_orb. now rewrite Hreach. }
      rewrite Hr. unfold try_catch. rewrite Hdial. cbv zeta. rewrite Hmsg.
      unfold bind, emit, ret. cbn. rewrite ?app_nil_r; reflexivity.
Qed.

End CallHandler.

Lemma handleCallUser_reports_every_failure_witness :
  handleCallUser jsepEngine (fun _ => ret tt) dialEnvOk
    (Some (mkStoredUser (Some "agent-1") None)) "agent-1" "dev-9"
    (mkUser "agent-2" false false "Bob") initializedIdle
  = (Normal tt, initializedIdle, [UiAlert AlertPeerUnreachable]).
Proof.
  pose proof (handleCallUser_reports_every_failure jsepEngine
                (fun _ => ret tt) dialEnvOk "agent-1" "dev-9"
                (mkUser "agent-2" false false "Bob")) as (_ & _ & H).
  refine (proj1 (H (mkStoredUser (Some "agent-1") None) "agent-1"
                   initializedIdle eq_refl _ eq_refl _) eq_refl eq_refl);
    discriminate.
Defined.

(* ================================================================== *)
(** ** The theorems above at concrete calls *)

Lemma registration_survives_calls_witness :
  sameRegistration answeredCall
    (state_of (waitForAnswerHTTP jsepEngine "call-A" neverAnswered answeredCall))
  /\
  sameRegistration initializedIdle
    (state_of (startOutgoingVoiceCallByLoyaltyId jsepEngine (fun _ => ret tt)
                 dialEnvOk "agent-2" "Bob" initializedIdle)).
Proof.
  pose proof (registration_survives_calls jsepEngine 0 mediaGranted)
    as (_ & _ & _ & _ & _ & _ & _ & Hpoll & Hdial).
  split.
  - apply (Hpoll "call-A" neverAnswered); intros; apply sameRegistration_refl.
  - apply (Hdial (fun _ => ret tt) dialEnvOk "agent-2" "Bob").
    intros callId s. apply sameRegistration_refl.
Defined.

Lemma dial_failure_before_offer_keeps_state_witness :
  startOutgoingVoiceCallByLoyaltyId jsepEngine (fun _ => ret tt)
    dialEnvNoMicrophone "agent-2" "Bob" initializedIdle
  = (Throw (Error "Microphone access denied"),
     markedCalling "call-S" "Bob" initializedIdle,
     [CbCallStateChange calling (Some "Bob")]).
Proof.
  exact (proj1 (dial_failure_before_offer_keeps_state jsepEngine
                  (fun _ => ret tt) dialEnvNoMicrophone "agent-2" "Bob"
                  initializedIdle eq_refl eq_refl) eq_refl).
Defined.

Lemma dial_over_existing_connection_witness :
  let r := startOutgoingVoiceCallByLoyaltyId jsepEngine (fun _ => ret tt)
             dialEnvOk "agent-2" "Carol" answeredCall in
  In (RelayEnd "call-S" "dev-1" None)
     (teardownEffects (markedCalling "call-S" "Carol" answeredCall)) /\
  result_of r = Normal tt /\
  currentCallState (state_of r) = idle /\
  callerName (state_of r) = None /\
  activeCallUUID (state_of r) = Some "call-S".
Proof.
  pose proof (dial_over_existing_connection jsepEngine (fun _ => ret tt)
                dialEnvOk "agent-2" "Carol" "dev-1" "agent-1" 20
                (mkPC 1 stable (Some sampleAnswer) (Some sampleOffer))
                answeredCall eq_refl eq_refl eq_refl eq_refl eq_refl) as H.
  cbv zeta in H.
  destruct H as (_ & _ & Hend & Hok); [discriminate|].
  split; [exact Hend|].
  exact (Hok sampleOffer "200" eq_refl eq_refl eq_refl
             (fun _ _ => eq_refl)).
Defined.

Lemma onOffer_without_connection_witness :
  let r := onOffer jsepEngine mediaGranted offerFromCarol initializedIdle in
  result_of r = Normal tt /\
  currentCallState (state_of r) = ringing /\
  activeCallUUID (state_of r) = Some "call-B" /\
  callerName (state_of r) = Some "Carol" /\
  pc (state_of r) = Some (mkPC 2 have_remote_offer (Some sampleOffer) None) /\
  queuedIceCandidates (state_of r) = [] /\
  effects_of r
  = [CbCallStateChange ringing (Some "Carol"); MediaAcquire 20; EngineNew 2;
     EngineSetRemoteDescription 2 sampleOffer].
Proof.
  pose proof (proj2 (onOffer_without_connection jsepEngine mediaGranted
                       offerFromCarol initializedIdle) eq_refl) as H.
  cbv zeta in H. destruct H as (_ & _ & H).
  exact (H 20%nat eq_refl eq_refl eq_refl).
Defined.

Lemma onOffer_over_existing_connection_witness :
  let r := onOffer jsepEngine mediaGranted offerFromCarol answeredCall in
  currentCallState (state_of r) = idle /\
  activeCallUUID (state_of r) = Some "call-B" /\
  In (RelayEnd "call-B" "dev-1" None)
     (teardownEffects (markedRinging offerFromCarol answeredCall)).
Proof.
  pose proof (onOffer_over_existing_connection jsepEngine mediaGranted
                offerFromCarol 20
                (mkPC 1 stable (Some sampleAnswer) (Some sampleOffer))
                answeredCall eq_refl eq_refl eq_refl eq_refl eq_refl) as H.
  cbv zeta in H. destruct H as (_ & Hs & _ & Ha & _ & _ & _ & Hend).
  split; [exact Hs|]. split; [exact Ha|].
  apply (Hend "dev-1" eq_refl); discriminate.
Defined.

Lemma waitForAnswerHTTP_gives_up_after_30_witness :
  waitForAnswerHTTP jsepEngine "call-A" neverAnswered awaitingAnswer
  = (Normal tt, awaitingAnswer, pollRounds 30 "call-A").
Proof.
  apply (waitForAnswerHTTP_gives_up_after_30 jsepEngine "call-A" neverAnswered
           awaitingAnswer (mkPC 1 have_local_offer None (Some sampleOffer))
           eq_refl eq_refl).
  intros i. exists (RespJson None), 0. split; reflexivity.
Defined.

Lemma wrong_state_rejection_push_and_poll_witness :
  onAnswer refusingEngine 4000 (mkAnswer "call-A" sampleAnswer "dev-2")
           awaitingAnswer
  = (Normal tt, awaitingAnswer, [EngineSetRemoteDescription 1 sampleAnswer]) /\
  pollBody refusingEngine "call-A" 1
           (quietTick (RespJson (Some sampleAnswer)) 4000) awaitingAnswer
  = (Normal LoopReturn,
     set_activeCallStartedAt (Some 4000)
       (set_currentCallState answered awaitingAnswer),
     [RelayPoll "call-A"; EngineSetRemoteDescription 1 sampleAnswer;
      CbCallStateChange answered (Some "Bob");
      CbCallActiveChange true (Some 4000)]).
Proof.
  exact (wrong_state_rejection_push_and_poll refusingEngine 4000
           (mkAnswer "call-A" sampleAnswer "dev-2") awaitingAnswer
           (mkPC 1 have_local_offer None (Some sampleOffer))
           (wrongStateMessage stable)
           eq_refl eq_refl eq_refl eq_refl eq_refl eq_refl eq_refl eq_refl).
Defined.

Lemma reject_timer_wipes_next_call_witness :
  let s1 := state_of (rejectCall "call-A" None ringingInbound) in
  let s2 := state_of (onCallState 500
                        (mkCallStateMsg "call-B" "ringing" "incoming"
                                        None (Some "Carol") None) s1) in
  currentCallState s2 = ringing /\
  currentCallState (state_of (resetAfterReject s2)) = idle /\
  activeCallUUID (state_of (resetAfterReject s2)) = None.
Proof.
  pose proof (reject_timer_wipes_next_call "call-A" None 500
                (mkCallStateMsg "call-B" "ringing" "incoming"
                                None (Some "Carol") None)
                ringingInbound eq_refl eq_refl) as H.
  cbv zeta in H. destruct H as (_ & H1 & _ & _ & H2 & H3 & _).
  split; [exact H1|]. split; [exact H2|exact H3].
Defined.

(* ================================================================== *)
(** ** Mute *)

(** Without a local stream [toggleMute] changes nothing and returns the
    flag as it is.  With one it flips the flag, sets the tracks to match
    (enabled exactly when not muted) and returns the new flag; a second
    toggle brings the service back and enables or disables the tracks
    again. *)
Theorem toggleMute_round_trip (s : Service) :
  (localStream s = None -> toggleMute s = (Normal (isMuted s), s, [])) /\
  (forall stream,
      localStream s = Some stream ->
      toggleMute s
      = (Normal (negb (isMuted s)), set_isMuted (negb (isMuted s)) s,
         [TrackEnabled stream (isMuted s)]) /\
      toggleMute (set_isMuted (negb (isMuted s)) s)
      = (Normal (isMuted s), s, [TrackEnabled stream (negb (isMuted s))])).
Proof.
  split.
  - intros Hl. unfold toggleMute, bindX, getX, retX. now rewrite Hl.
  - intros stream Hl.
    destruct s as [? ls ? ? ? ? ? ? ? ? ? mu ? ? ? ?]. cbn in Hl. subst ls.
    unfold toggleMute, bindX, getX, retX, modifyX, emitX. cbn.
    rewrite !negb_involutive. split; reflexivity.
Qed.

Lemma toggleMute_round_trip_witness :
  toggleMute answeredCall
  = (Normal true, set_isMuted true answeredCall, [TrackEnabled 10 false]) /\
  toggleMute (set_isMuted true answeredCall)
  = (Normal false, answeredCall, [TrackEnabled 10 true]).
Proof.
  exact (proj2 (toggleMute_round_trip answeredCall) 10%nat eq_refl).
Defined.

(* ================================================================== *)
(** ** Running the local actions *)

Lemma bindX_normal {A B : Type} (m : MX A) (k : A -> MX B) (s s1 : Service)
  (a : A) (t1 : list Action) :
  m s = (Normal a, s1, t1) ->
  bindX m k s = (let '(r, s2, t2) := k a s1 in (r, s2, t1 ++ t2)).
Proof. intros H. unfold bindX. rewrite H. reflexivity. Qed.

Lemma bindX_throw {A B : Type} (m : MX A) (k : A -> MX B) (s s1 : Service)
  (e : JsError) (t1 : list Action) :
  m s = (Throw e, s1, t1) -> bindX m k s = (Throw e, s1, t1).
Proof. intros H. unfold bindX. now rewrite H. Qed.

Lemma lift_run {A : Type} (m : M A) (s s1 : Service) (r : Completion A)
  (t1 : list Effect) :
  m s = (r, s1, t1) -> lift m s = (r, s1, map Core t1).
Proof. intros H. unfold lift. now rewrite H. Qed.

Lemma ensureSocketConnected_run (s : Service) :
  ensureSocketConnected s = (Normal tt, socketEnsured s, socketEffects s).
Proof.
  unfold ensureSocketConnected, socketEnsured, socketEffects, bind, get.
  destruct (socket s) as [[]|]; reflexivity.
Qed.

(** [sendAnswerToBackend], flattened. *)
Lemma sendAnswerToBackend_run (env : SendEnv) (callId deviceId : string)
  (answer : SessionDescription) (s : Service) :
  currentDeviceId s = Some deviceId ->
  deviceId <> "" ->
  sendAnswerToBackend env callId answer s
  = match send_post env with
    | PostThrows e =>
        (Throw e, s, [Core (RelayPoll callId); RelayAnswer callId deviceId answer])
    | PostStatus false status =>
        (Throw (Error ("Failed to send answer: " ++ status ++ " - "
                       ++ send_errorText env)%string), s,
         [Core (RelayPoll callId); RelayAnswer callId deviceId answer])
    | PostStatus true _ =>
        (Normal tt, socketEnsured s,
         [Core (RelayPoll callId); RelayAnswer callId deviceId answer]
         ++ map Core (socketEffects s)
         ++ match socket s, callerDeviceOf (send_info env) with
            | Some true, Some toDeviceId =>
                [SocketEmitAnswer callId answer deviceId toDeviceId]
            | _, _ => []
            end)
    end.
Proof.
  intros Hdev Hne.
  assert (Ht : truthy_str (Some deviceId) = true).
  { cbn. apply negb_true_iff. now apply String.eqb_neq. }
  unfold sendAnswerToBackend. unfold bindX at 1. unfold getX at 1.
  rewrite Hdev, Ht. cbn [negb].
  destruct env as [info post txt emitErr]. cbn [send_info send_post send_errorText send_emitError].
  assert (Hinfo :
    try_catchX
      (bindX (emitX (Core (RelayPoll callId)))
         (fun _ => match info with
                   | InfoThrows e => throwX e
                   | InfoNotOk _ => retX None
                   | InfoJson i => retX (or_str (ci_fromDeviceId i) None)
                   end))
      (fun _ => retX None) s
    = (Normal (callerDeviceOf info), s, [Core (RelayPoll callId)])).
  { destruct info; reflexivity. }
  unfold try_catchX at 1.
  rewrite (bindX_normal _ _ _ _ _ _ Hinfo).
  unfold bindX at 1. unfold emitX at 1.
  destruct post as [e|[] status].
  - reflexivity.
  - rewrite (bindX_normal _ _ _ _ _ _
               (lift_run _ _ _ _ _ (ensureSocketConnected_run s))).
    unfold bindX at 1. unfold getX at 1.
    unfold socketEnsured, socketEffects.
    destruct (socket s) as [[]|] eqn:Hs; cbn [socket set_socket map];
      try reflexivity.
    rewrite Hs.
    destruct (callerDeviceOf info); [|reflexivity].
    destruct emitErr; reflexivity.
  - reflexivity.
Qed.

Lemma succeeds_throw {A : Type} (P : Service -> list Action -> Prop)
  (e : JsError) (s : Service) : succeeds P (@throwX A e s).
Proof. intros u s' t H. discriminate H. Qed.

Lemma succeeds_bind {A B : Type} (P : Service -> list Action -> Prop)
  (m : MX A) (k : A -> MX B) (s : Service) :
  (forall s' t1 t2, P s' t2 -> P s' (t1 ++ t2)) ->
  (forall a s1, succeeds P (k a s1)) ->
  succeeds P (bindX m k s).
Proof.
  intros Hext Hk u s' t. unfold bindX.
  destruct (m s) as [[[a|e] s1] t1]; [|discriminate].
  destruct (k a s1) as [[r s2] t2] eqn:Hrun. intros H. inversion H; subst.
  apply Hext. exact (Hk a s1 u s' t2 Hrun).
Qed.

Lemma postsAnswer_ext (s' : Service) (t1 t2 : list Action) :
  postsAnswer s' t2 -> postsAnswer s' (t1 ++ t2).
Proof.
  unfold postsAnswer. intros H. rewrite existsb_app, H. apply orb_true_r.
Qed.

Lemma answeredAt_ext (now : Z) (s' : Service) (t1 t2 : list Action) :
  answeredAt now s' t2 -> answeredAt now s' (t1 ++ t2).
Proof.
  intros (H1 & H2 & l & Ht & Hl). repeat split; auto.
  exists (t1 ++ l). split.
  - now rewrite Ht, app_assoc.
  - rewrite existsb_app, Hl. apply orb_true_r.
Qed.

(* ================================================================== *)
(** ** The temporary listener of [waitForAnswer] *)

Section Listener.
Context (E : Engine).

Lemma listener_already_set (callId : string) (now : Z) (data : AnswerMsg)
  (s : Service) (p : PeerConnection) :
  pc s = Some p ->
  ans_callId data = callId ->
  answerAlreadySet (signalingState p) = true ->
  currentCallState s = answered ->
  waitForAnswerListener E callId (pc_id p) now data s
  = (Normal tt, s, [ClearTimeout AnswerTimeout; SocketOff; Resolve]).
Proof.
  intros Hpc Hid Hset Hst. unfold waitForAnswerListener.
  unfold bindX at 1. unfold getX at 1. unfold samePc.
  rewrite Hpc, Hid, String.eqb_refl, Nat.eqb_refl, Hset, Hst.
  reflexivity.
Qed.

(** The temporary listener of [waitForAnswer].  An answer for another
    call, or one arriving after the connection was replaced, is not its
    business: it does nothing.  When the engine already holds the answer
    it clears the timer, removes itself and resolves, and if the call is
    already [answered] it changes nothing and calls no callback.  In a
    phase that is neither of these nor the one after the local offer it
    rejects with the phase's name, without calling the engine or
    changing the service. *)
Theorem waitForAnswerListener_cases (callId : string) (now : Z)
  (data : AnswerMsg) (s : Service) (p : PeerConnection) :
  pc s = Some p ->
  (forall currentPc,
      (ans_callId data =? callId)%string && (pc_id p =? currentPc)%nat = false ->
      waitForAnswerListener E callId currentPc now data s = (Normal tt, s, [])) /\
  (ans_callId data = callId ->
   answerAlreadySet (signalingState p) = true ->
   currentCallState s = answered ->
   waitForAnswerListener E callId (pc_id p) now data s
   = (Normal tt, s, [ClearTimeout AnswerTimeout; SocketOff; Resolve])) /\
  (ans_callId data = callId ->
   answerAlreadySet (signalingState p) = false ->
   signalingState p <> have_local_offer ->
   waitForAnswerListener E callId (pc_id p) now data s
   = (Normal tt, s,
      [ClearTimeout AnswerTimeout; SocketOff;
       Reject (Error ("Wrong signaling state: "
                      ++ signalingStateName (signalingState p))%string)])).
Proof.
  intros Hpc. repeat match goal with |- _ /\ _ => split end.
  - intros currentPc Hno. unfold waitForAnswerListener.
    unfold bindX at 1. unfold getX at 1. unfold samePc.
    now rewrite Hpc, Hno.
  - intros Hid Hset Hst. now apply listener_already_set.
  - intros Hid Hset Hsig. unfold waitForAnswerListener.
    unfold bindX at 1. unfold getX at 1. unfold samePc.
    rewrite Hpc, Hid, String.eqb_refl, Nat.eqb_refl, Hset.
    destruct (signalingState p); try contradiction; try discriminate Hset;
      reflexivity.
Qed.

End Listener.

Lemma waitForAnswerListener_cases_witness :
  waitForAnswerListener jsepEngine "call-A" 1 8000
    (mkAnswer "call-A" sampleAnswer "dev-2") answeredCall
  = (Normal tt, answeredCall, [ClearTimeout AnswerTimeout; SocketOff; Resolve]).
Proof.
  exact (proj1 (proj2 (waitForAnswerListener_cases jsepEngine "call-A" 8000
                         (mkAnswer "call-A" sampleAnswer "dev-2") answeredCall
                         (mkPC 1 stable (Some sampleAnswer) (Some sampleOffer))
                         eq_refl))
               eq_refl eq_refl eq_refl).
Defined.

(* ================================================================== *)
(** ** One ['answer'] event and its two listeners *)

Lemma eta_run {A : Type} (x : Completion A * Service * list Effect) :
  (let (p0, t2) := x in let (r, s2) := p0 in (r, s2, t2)) = x.
Proof. destruct x as [[r s2] t2]. reflexivity. Qed.

Lemma effects_bind_prefix {A B : Type} (m : M A) (k : A -> M B) (s : Service) :
  exists rest, effects_of (bind m k s) = effects_of (m s) ++ rest.
Proof.
  unfold bind, effects_of. destruct (m s) as [[[a|e] s1] t1]; cbn.
  - destruct (k a s1) as [[r s2] t2]. now exists t2.
  - exists []. now rewrite app_nil_r.
Qed.

Lemma effects_try_catch_prefix {A : Type} (b : M A) (h : JsError -> M A)
  (s : Service) :
  exists rest, effects_of (try_catch b h s) = effects_of (b s) ++ rest.
Proof.
  unfold try_catch, effects_of. destruct (b s) as [[[a|e] s1] t1]; cbn.
  - exists []. now rewrite app_nil_r.
  - destruct (h e s1) as [[r s2] t2]. now exists t2.
Qed.

(** Up to its first [await] the drain has taken the entries of the call
    out of the queue and called the engine for the first candidate. *)
Lemma addFirstCandidate_run (p : PeerConnection) (rd : SessionDescription)
  (l : list IceCandidateMsg) (s : Service) :
  pc s = Some p -> remoteDescription p = Some rd ->
  addFirstCandidate l s
  = (Normal tt, s,
     firstn 1 (map (EngineAddIceCandidate (pc_id p)) (candidatesOf l))).
Proof.
  intros Hpc Hrd. induction l as [|data l IH]; [reflexivity|].
  cbn [addFirstCandidate candidatesOf flat_map].
  unfold bind at 1. unfold get at 1. rewrite Hpc, Hrd. cbn [truthy_obj].
  destruct (ice_candidate data) as [c|]; [reflexivity|].
  cbn [app]. rewrite IH. reflexivity.
Qed.

Lemma drainUntilAwait_run (E : Engine) (callId : string) (s : Service) :
  processQueuedIceCandidatesUntilAwait callId s
  = (Normal tt, state_of (processQueuedIceCandidates E callId s),
     firstn 1 (effects_of (processQueuedIceCandidates E callId s))).
Proof.
  destruct (pcHasRemoteDescription s) eqn:H.
  - unfold pcHasRemoteDescription in H.
    destruct (pc s) as [p|] eqn:Hpc; [|discriminate].
    destruct (remoteDescription p) as [rd|] eqn:Hrd; [|discriminate].
    rewrite (drain_run E callId s p rd Hpc Hrd).
    unfold state_of, effects_of. cbn [fst snd].
    unfold processQueuedIceCandidatesUntilAwait. unfold bind at 1. unfold get at 1.
    unfold pcHasRemoteDescription. rewrite Hpc, Hrd. cbn [truthy_obj negb].
    fold (matching callId (queuedIceCandidates s)).
    fold (notMatching callId (queuedIceCandidates s)).
    destruct (matching callId (queuedIceCandidates s)) as [|m l] eqn:Hm.
    + cbn. rewrite (matching_nil_notMatching _ _ Hm).
      now rewrite set_queuedIceCandidates_same.
    + cbn [length Nat.eqb]. unfold bind at 1. unfold modify at 1.
      rewrite (addFirstCandidate_run p rd (m :: l)); [reflexivity| |exact Hrd].
      destruct s; exact Hpc.
  - rewrite (drain_not_ready E callId s H).
    unfold processQueuedIceCandidatesUntilAwait, bind, get. now rewrite H.
Qed.

Lemma bindX_getX {A : Type} (k : Service -> MX A) (s : Service) :
  bindX getX k s = k s s.
Proof. unfold bindX, getX. destruct (k s s) as [[r s2] t2]. reflexivity. Qed.

Lemma effectsX_emit_bind {B : Type} (a : Action) (k : unit -> MX B)
  (s : Service) :
  snd (bindX (emitX a) k s) = a :: snd (k tt s).
Proof. unfold bindX, emitX. destruct (k tt s) as [[r s2] t2]. reflexivity. Qed.

Lemma effectsX_bind_prefix {A B : Type} (m : MX A) (k : A -> MX B)
  (s : Service) :
  exists rest, snd (bindX m k s) = snd (m s) ++ rest.
Proof.
  unfold bindX. destruct (m s) as [[[a|e] s1] t1]; cbn.
  - destruct (k a s1) as [[r s2] t2]. now exists t2.
  - exists []. now rewrite app_nil_r.
Qed.

Lemma effectsX_try_catch_prefix {A : Type} (b : MX A) (h : JsError -> MX A)
  (s : Service) :
  exists rest, snd (try_catchX b h s) = snd (b s) ++ rest.
Proof.
  unfold try_catchX. destruct (b s) as [[[a|e] s1] t1]; cbn.
  - exists []. now rewrite app_nil_r.
  - destruct (h e s1) as [[r s2] t2]. now exists t2.
Qed.

Lemma effects_lift_setRemoteDescription (E : Engine) (p : PeerConnection)
  (d : SessionDescription) (s : Service) :
  exists rest,
    snd (lift (setRemoteDescription E p d) s)
    = Core (EngineSetRemoteDescription (pc_id p) d) :: rest.
Proof.
  unfold lift, setRemoteDescription, bind, emit.
  destruct (setRemoteDescription_error E p d); cbn; eexists; reflexivity.
Qed.

Ltac prefix_of_handler :=
  repeat first
    [ match goal with
      | |- exists rest, effects_of (try_catch ?b ?h ?s) = ?t ++ rest =>
          let r := fresh "r" in let H := fresh "H" in
          destruct (effects_try_catch_prefix b h s) as [r H];
          let r' := fresh "r" in let H' := fresh "H" in
          enough (exists r', effects_of (b s) = t ++ r') as [r' H'];
          [exists (r' ++ r); rewrite app_assoc, <- H'; exact H|clear r H]
      | |- exists rest, effects_of (bind ?m ?k ?s) = ?t ++ rest =>
          let r := fresh "r" in let H := fresh "H" in
          destruct (effects_bind_prefix m k s) as [r H];
          let r' := fresh "r" in let H' := fresh "H" in
          enough (exists r', effects_of (m s) = t ++ r') as [r' H'];
          [exists (r' ++ r); rewrite app_assoc, <- H'; exact H|clear r H]
      end ].

(** The synchronous part of the global handler is the beginning of the
    whole handler: what it has done when it reaches its first [await] is
    what the whole handler does first, and when it ends without an
    [await] it is the whole handler.  The same holds of the temporary
    listener. *)
Theorem listeners_until_await_begin_the_handlers (E : Engine) (now : Z)
  (data : AnswerMsg) (s : Service) :
  (exists rest,
      effects_of (onAnswer E now data s)
      = effects_of (onAnswerUntilAwait data s) ++ rest) /\
  (result_of (onAnswerUntilAwait data s) = Normal Finished ->
   onAnswer E now data s
   = (Normal tt, state_of (onAnswerUntilAwait data s),
      effects_of (onAnswerUntilAwait data s))) /\
  (forall callId currentPc,
      (exists rest,
          snd (waitForAnswerListener E callId currentPc now data s)
          = snd (waitForAnswerListenerUntilAwait callId currentPc now data s)
            ++ rest) /\
      (fst (fst (waitForAnswerListenerUntilAwait callId currentPc now data s))
       = Normal Finished ->
       waitForAnswerListener E callId currentPc now data s
       = (Normal tt,
          snd (fst (waitForAnswerListenerUntilAwait callId currentPc now data s)),
          snd (waitForAnswerListenerUntilAwait callId currentPc now data s)))).
Proof.
  split; [|split].
  - set (whole := onAnswer E now data s).
    unfold onAnswerUntilAwait. unfold bind at 1. unfold get at 1.
    subst whole. unfold onAnswer. unfold bind at 1. unfold get at 1.
    cbn [app].
    destruct (pc s) as [p|]; [|exists []; reflexivity].
    destruct (strict_eq _ _); [|exists []; reflexivity].
    match goal with |- context [if negb ?b then _ else _] => destruct b end;
      cbn [negb]; [|exists []; reflexivity].
    destruct (signalingState p); cbv beta iota zeta; rewrite !eta_run.
    + (* stable *)
      match goal with |- context [effects_of (bind ?m ?k s)] =>
        match m with
        | processQueuedIceCandidatesUntilAwait _ =>
            replace (effects_of (bind m k s))
              with (firstn 1 (effects_of (processQueuedIceCandidates E
                                            (ans_callId data) s)))
              by (unfold bind; rewrite (drainUntilAwait_run E); cbn;
                  now rewrite app_nil_r)
        end end.
      prefix_of_handler.
      exists (skipn 1 (effects_of (processQueuedIceCandidates E (ans_callId data) s))).
      symmetry. apply firstn_skipn.
    + unfold setRemoteDescription. prefix_of_handler. now exists [].
    + unfold setRemoteDescription. prefix_of_handler. now exists [].
    + unfold setRemoteDescription. prefix_of_handler. now exists [].
    + match goal with |- context [effects_of (bind ?m ?k s)] =>
        match m with
        | processQueuedIceCandidatesUntilAwait _ =>
            replace (effects_of (bind m k s))
              with (firstn 1 (effects_of (processQueuedIceCandidates E
                                            (ans_callId data) s)))
              by (unfold bind; rewrite (drainUntilAwait_run E); cbn;
                  now rewrite app_nil_r)
        end end.
      prefix_of_handler.
      exists (skipn 1 (effects_of (processQueuedIceCandidates E (ans_callId data) s))).
      symmetry. apply firstn_skipn.
    + unfold setRemoteDescription. prefix_of_handler. now exists [].
  - destruct (onAnswerUntilAwait data s) as [[r0 s0] t0] eqn:Hpre.
    unfold result_of, state_of, effects_of. cbn [fst snd]. intros ->.
    unfold onAnswerUntilAwait in Hpre.
    unfold bind at 1 in Hpre. unfold get at 1 in Hpre.
    unfold onAnswer. unfold bind at 1. unfold get at 1. cbn [app] in *.
    destruct (pc s) as [p|]; [|now inversion Hpre].
    destruct (strict_eq _ _); [|now inversion Hpre].
    match goal with |- context [if negb ?b then _ else _] => destruct b end;
      cbn [negb] in *; [|now inversion Hpre].
    exfalso.
    destruct (signalingState p); cbv beta iota zeta in Hpre;
      unfold bind, emit, ret in Hpre;
      try (rewrite (drainUntilAwait_run E) in Hpre);
      cbn in Hpre; discriminate Hpre.
  - intros callId currentPc. split.
    + unfold waitForAnswerListener, waitForAnswerListenerUntilAwait.
      rewrite !bindX_getX.
      destruct (pc s) as [p|]; [|exists []; reflexivity].
      destruct (_ && _); [|exists []; reflexivity].
      destruct (answerAlreadySet (signalingState p)) eqn:Hset.
      * unfold bindX, emitX, retX.
        destruct (negb (CallState_eqb (currentCallState s) answered)).
        -- destruct (lift (answeredBackfillTimer now) s) as [[[u|e] s1] t1];
             cbn; eexists; rewrite ?app_nil_r, <- ?app_assoc; reflexivity.
        -- cbn. exists []. reflexivity.
      * destruct (signalingState p); try discriminate Hset.
        -- rewrite !effectsX_emit_bind. cbn [retX snd].
           match goal with |- context [try_catchX ?b ?h s] =>
             destruct (effectsX_try_catch_prefix b h s) as [r1 H1];
             rewrite H1; clear H1 end.
           match goal with |- context [bindX ?m ?k s] =>
             destruct (effectsX_bind_prefix m k s) as [r2 H2];
             rewrite H2; clear H2 end.
           destruct (effects_lift_setRemoteDescription E p (ans_answer data) s)
             as [r3 H3].
           rewrite H3. cbn [app]. eexists. reflexivity.
        -- unfold try_catchX, bindX, emitX, retX. cbn. exists []. reflexivity.
        -- unfold try_catchX, bindX, emitX, retX. cbn. exists []. reflexivity.
        -- unfold try_catchX, bindX, emitX, retX. cbn. exists []. reflexivity.
    + destruct (waitForAnswerListenerUntilAwait callId currentPc now data s)
        as [[r0 s0] t0] eqn:Hpre.
      cbn [fst snd]. intros ->.
      unfold waitForAnswerListenerUntilAwait in Hpre.
      rewrite bindX_getX in Hpre.
      unfold waitForAnswerListener. rewrite bindX_getX.
      destruct (pc s) as [p|]; [|now inversion Hpre].
      destruct (_ && _); [|now inversion Hpre].
      destruct (answerAlreadySet (signalingState p)) eqn:Hset.
      * unfold bindX, emitX, retX in *.
        destruct (negb (CallState_eqb (currentCallState s) answered)).
        -- destruct (lift (answeredBackfillTimer now) s) as [[[u|e] s1] t1];
             cbn in *; [now inversion Hpre|discriminate Hpre].
        -- cbn in *. now inversion Hpre.
      * destruct (signalingState p); try discriminate Hset;
          unfold try_catchX, bindX, emitX, retX in *; cbn in *;
          try discriminate Hpre; now inversion Hpre.
Qed.

(** A push delivery that finds the call waiting after its local offer:
    both listeners call the engine before either call settles. *)
Lemma dispatchAnswer_invokes_twice (callId from : string) (now : Z)
  (a : SessionDescription) (s : Service) (p : PeerConnection) :
  pc s = Some p ->
  signalingState p = have_local_offer ->
  strict_eq (activeCallUUID s) callId = true ->
  currentCallState s = calling ->
  dispatchAnswer callId (pc_id p) now (mkAnswer callId a from) s
  = (Normal (AwaitSetRemoteDescription, AwaitSetRemoteDescription), s,
     [Core (EngineSetRemoteDescription (pc_id p) a);
      ClearTimeout AnswerTimeout; SocketOff;
      Core (EngineSetRemoteDescription (pc_id p) a)]).
Proof.
  intros Hpc Hsig Hact Hst.
  assert (Hg : onAnswerUntilAwait (mkAnswer callId a from) s
               = (Normal AwaitSetRemoteDescription, s,
                  [EngineSetRemoteDescription (pc_id p) a])).
  { unfold onAnswerUntilAwait. unfold bind at 1. unfold get at 1.
    cbn [ans_callId ans_answer]. rewrite Hpc, Hact, Hsig, Hst. reflexivity. }
  assert (Hl : waitForAnswerListenerUntilAwait callId (pc_id p) now
                 (mkAnswer callId a from) s
               = (Normal AwaitSetRemoteDescription, s,
                  [ClearTimeout AnswerTimeout; SocketOff;
                   Core (EngineSetRemoteDescription (pc_id p) a)])).
  { unfold waitForAnswerListenerUntilAwait. rewrite bindX_getX.
    unfold samePc. cbn [ans_callId ans_answer].
    rewrite Hpc, String.eqb_refl, Nat.eqb_refl, Hsig. reflexivity. }
  unfold dispatchAnswer, bindX, lift. rewrite Hg, Hl. reflexivity.
Qed.

(** A push delivery that finds the answer set and the call [answered]:
    both listeners end without calling the engine, and only the
    temporary listener does anything. *)
Lemma dispatchAnswer_already_set (callId from : string) (now : Z)
  (a : SessionDescription) (s : Service) (p : PeerConnection) :
  pc s = Some p ->
  answerAlreadySet (signalingState p) = true ->
  currentCallState s = answered ->
  dispatchAnswer callId (pc_id p) now (mkAnswer callId a from) s
  = (Normal (Finished, Finished), s,
     [ClearTimeout AnswerTimeout; SocketOff; Resolve]).
Proof.
  intros Hpc Hset Hst.
  assert (Hg : onAnswerUntilAwait (mkAnswer callId a from) s
               = (Normal Finished, s, [])).
  { unfold onAnswerUntilAwait. unfold bind at 1. unfold get at 1.
    rewrite Hpc, Hset, Hst. destruct (strict_eq _ _); reflexivity. }
  assert (Hl : waitForAnswerListenerUntilAwait callId (pc_id p) now
                 (mkAnswer callId a from) s
               = (Normal Finished, s,
                  [ClearTimeout AnswerTimeout; SocketOff; Resolve])).
  { unfold waitForAnswerListenerUntilAwait. rewrite bindX_getX.
    unfold samePc. cbn [ans_callId].
    rewrite Hpc, String.eqb_refl, Nat.eqb_refl, Hset, Hst. reflexivity. }
  unfold dispatchAnswer, bindX, lift. rewrite Hg, Hl. reflexivity.
Qed.

(** C1 (as the code has it): an outbound call waits for its answer
    ([calling], local offer set), the engine accepts the answer, and the
    answer is delivered by the poll and by a push event.

    - The poll first, run to its end, then the push event with both its
      listeners: the poll invokes [setRemoteDescription] once and the
      call enters [answered]; the push event then invokes nothing, the
      global handler does nothing, the temporary listener clears its
      timer, removes itself and resolves, and the service is unchanged.
    - The global handler alone first (the answer arrives before
      [waitForAnswer] has registered its listener), run to its end, then
      the poll: [setRemoteDescription] is invoked once over the two, the
      call enters [answered] once, and the poll invokes no
      [setRemoteDescription] and leaves the service as it found it.
    - The push event first, while the temporary listener is registered:
      both listeners invoke [setRemoteDescription] in the synchronous
      dispatch of the event, before either invocation settles.  One
      delivery invokes the engine twice. *)
Theorem duplicate_answer_deliveries
  (E : Engine) (s : Service) (p : PeerConnection) (callId from : string)
  (a : SessionDescription) (now1 now2 : Z) :
  pc s = Some p ->
  signalingState p = have_local_offer ->
  activeCallUUID s = Some callId -> callId <> "" ->
  currentCallState s = calling ->
  sd_type a = sdp_answer -> truthy_str (sd_sdp a) = true ->
  setRemoteDescription_error E p a = None ->
  0 < now1 ->
  let data := mkAnswer callId a from in
  let push now := onAnswer E now data in
  let poll now :=
    pollBody E callId (pc_id p) (quietTick (RespJson (Some a)) now) in
  (let r1 := poll now1 s in
   length (filter isSetRemoteDescription (effects_of r1)) = 1%nat /\
   entersAnswered s (state_of r1) = 1%nat /\
   dispatchAnswer callId (pc_id p) now2 data (state_of r1)
   = (Normal (Finished, Finished), state_of r1,
      [ClearTimeout AnswerTimeout; SocketOff; Resolve])) /\
  (let r1 := push now1 s in
   let r2 := poll now2 (state_of r1) in
   length (filter isSetRemoteDescription (effects_of r1 ++ effects_of r2)) = 1%nat /\
   filter isSetRemoteDescription (effects_of r2) = [] /\
   (entersAnswered s (state_of r1)
    + entersAnswered (state_of r1) (state_of r2) = 1)%nat /\
   state_of r2 = state_of r1 /\
   currentCallState (state_of r2) = answered) /\
  (let '(r, s', t) := dispatchAnswer callId (pc_id p) now1 data s in
   r = Normal (AwaitSetRemoteDescription, AwaitSetRemoteDescription) /\
   s' = s /\
   length (filter isSetRemoteDescriptionAction t) = 2%nat).
Proof.
  intros Hpc Hsig Hact Hne Hst Hty Hsdp Hok Hnow data push poll.
  destruct (truthy_str_strict_eq _ _ Hact Hne) as [Heq Htr].
  pose proof (handler_and_poll_apply_once E s p callId from a now1 now2
                Hpc Hsig Hact Hne Hst Hty Hsdp Hok Hnow) as [Hgp _].
  split; [|split; [exact Hgp|]].
  - destruct (pollBody_applies E callId now1 a s p Hpc Htr Hsig Hsdp Hok)
      as (q & cs & Hrun & Hcs).
    subst poll. cbv beta zeta. rewrite Hrun.
    unfold state_of, effects_of. cbn [fst snd].
    set (p' := applyRemoteDescription p a).
    assert (Hp' : answerAlreadySet (signalingState p') = true).
    { unfold p', applyRemoteDescription. now rewrite Hty. }
    assert (Hid : pc_id p' = pc_id p).
    { unfold p', applyRemoteDescription. now rewrite Hty. }
    set (s1 := set_activeCallStartedAt _ _).
    assert (Hpc1 : pc s1 = Some p') by (destruct s; reflexivity).
    assert (Hst1 : currentCallState s1 = answered) by (destruct s; reflexivity).
    split; [|split].
    + cbn [filter isSetRemoteDescription]. rewrite filter_app, Hcs.
      now rewrite filter_srd_callbacks.
    + unfold entersAnswered. rewrite Hst, Hst1. reflexivity.
    + rewrite <- Hid.
      exact (dispatchAnswer_already_set callId from now2 a s1 p' Hpc1 Hp' Hst1).
  - subst data. cbv zeta.
    rewrite (dispatchAnswer_invokes_twice callId from now1 a s p
               Hpc Hsig Heq Hst).
    repeat split.
Qed.

Lemma duplicate_answer_deliveries_witness :
  (let r1 := pollBody jsepEngine "call-A" 1
               (quietTick (RespJson (Some sampleAnswer)) 1000) awaitingAnswer in
   length (filter isSetRemoteDescription (effects_of r1)) = 1%nat /\
   dispatchAnswer "call-A" 1 2000 (mkAnswer "call-A" sampleAnswer "dev-2")
                  (state_of r1)
   = (Normal (Finished, Finished), state_of r1,
      [ClearTimeout AnswerTimeout; SocketOff; Resolve])) /\
  (let r1 := onAnswer jsepEngine 1000
               (mkAnswer "call-A" sampleAnswer "dev-2") awaitingAnswer in
   let r2 := pollBody jsepEngine "call-A" 1
               (quietTick (RespJson (Some sampleAnswer)) 2000) (state_of r1) in
   length (filter isSetRemoteDescription (effects_of r1 ++ effects_of r2))
   = 1%nat) /\
  (let '(r, s', t) :=
     dispatchAnswer "call-A" 1 1000 (mkAnswer "call-A" sampleAnswer "dev-2")
                    awaitingAnswer in
   length (filter isSetRemoteDescriptionAction t) = 2%nat).
Proof.
  pose proof (duplicate_answer_deliveries jsepEngine awaitingAnswer
                (mkPC 1 have_local_offer None (Some sampleOffer))
                "call-A" "dev-2" sampleAnswer 1000 2000
                eq_refl eq_refl eq_refl ltac:(discriminate)
                eq_refl eq_refl eq_refl eq_refl eq_refl) as H.
  cbv zeta in H. destruct H as [(H1 & _ & H1') [(H2 & _) H3]].
  split; [split; [exact H1|exact H1']|split; [exact H2|]].
  exact (proj2 (proj2 H3)).
Defined.

(** C1 as stated fails.  The call ["call-A"] waits for its answer and a
    push event delivers it: the global handler and the temporary
    listener both invoke [setRemoteDescription] before either invocation
    settles, two invocations for one delivery.  And with an engine that
    finds the answer malformed, the global handler and the poll each
    invoke it, and the call never becomes [answered]. *)
Lemma push_answer_invokes_engine_twice :
  dispatchAnswer "call-A" 1 1000 (mkAnswer "call-A" sampleAnswer "dev-2")
                 awaitingAnswer
  = (Normal (AwaitSetRemoteDescription, AwaitSetRemoteDescription),
     awaitingAnswer,
     [Core (EngineSetRemoteDescription 1 sampleAnswer);
      ClearTimeout AnswerTimeout; SocketOff;
      Core (EngineSetRemoteDescription 1 sampleAnswer)]) /\
  (let r1 := onAnswer strictEngine 1000
               (mkAnswer "call-A" sampleAnswer "dev-2") awaitingAnswer in
   let r2 := pollBody strictEngine "call-A" 1
               (quietTick (RespJson (Some sampleAnswer)) 2000) (state_of r1) in
   length (filter isSetRemoteDescription (effects_of r1 ++ effects_of r2))
   = 2%nat /\
   currentCallState (state_of r2) = calling).
Proof. cbv zeta. repeat split. Qed.

(* ================================================================== *)
(** ** Sending the answer and the candidates *)

(** [sendAnswerToBackend] fails in two ways only.  Without a registered
    device it throws before any request.  Otherwise it looks the call up
    and posts the answer, in this order and whatever the lookup gives;
    it returns normally exactly when the relay accepts the post, and
    when it does not the service is unchanged and nothing else is done.
    The answer goes out on the socket exactly when the post was
    accepted, the socket was connected and the lookup named the caller's
    device; a failure of that emit is not an error. *)
Theorem sendAnswerToBackend_outcomes (env : SendEnv) (callId : string)
  (answer : SessionDescription) (s : Service) :
  (truthy_str (currentDeviceId s) = false ->
   sendAnswerToBackend env callId answer s
   = (Throw (Error "Device not registered"), s, [])) /\
  (forall deviceId r s' t,
      currentDeviceId s = Some deviceId ->
      deviceId <> "" ->
      sendAnswerToBackend env callId answer s = (r, s', t) ->
      firstn 2 t = [Core (RelayPoll callId); RelayAnswer callId deviceId answer] /\
      (r = Normal tt <-> exists status, send_post env = PostStatus true status) /\
      (r <> Normal tt -> s' = s /\ length t = 2%nat) /\
      (existsb isSocketEmitAnswer t = true <->
       r = Normal tt /\ socket s = Some true
       /\ callerDeviceOf (send_info env) <> None)).
Proof.
  split.
  - intros Hd. unfold sendAnswerToBackend, bindX, getX.
    destruct (currentDeviceId s) as [d|]; [|reflexivity].
    now rewrite Hd.
  - intros deviceId r s' t Hd Hne Hrun.
    rewrite (sendAnswerToBackend_run env callId deviceId answer s Hd Hne) in Hrun.
    destruct (send_post env) as [e|[] status]; inversion Hrun; subst; clear Hrun.
    + cbn [firstn]. repeat match goal with |- _ /\ _ => split end.
      * reflexivity.
      * split; [discriminate|]. intros [st H]. discriminate H.
      * auto.
      * cbn. split; [discriminate|]. intros [H _]. discriminate H.
    + repeat match goal with |- _ /\ _ => split end.
      * reflexivity.
      * split; [eauto|reflexivity].
      * intros H. now contradiction H.
      * cbn [app existsb isSocketEmitAnswer orb].
        unfold socketEffects.
        destruct (socket s) as [[]|]; cbn;
          try (split; [discriminate|intros (_ & H & _); discriminate H]).
        destruct (callerDeviceOf (send_info env)); cbn.
        -- split; [intros _; repeat split; discriminate|reflexivity].
        -- split; [discriminate|]. intros (_ & _ & H). now contradiction H.
    + cbn [firstn]. repeat match goal with |- _ /\ _ => split end.
      * reflexivity.
      * split; [discriminate|]. intros [st H]. discriminate H.
      * auto.
      * cbn. split; [discriminate|]. intros [H _]. discriminate H.
Qed.

Lemma sendAnswerToBackend_outcomes_witness :
  existsb isSocketEmitAnswer
    (snd (sendAnswerToBackend sendEnvOk "call-A" sampleAnswer ringingInbound))
  = true.
Proof.
  apply (proj2 (sendAnswerToBackend_outcomes sendEnvOk "call-A" sampleAnswer
                  ringingInbound)
               "dev-1" (Normal tt) ringingInbound
               (snd (sendAnswerToBackend sendEnvOk "call-A" sampleAnswer
                       ringingInbound))
               eq_refl ltac:(discriminate) eq_refl).
  repeat split; discriminate.
Defined.

(** [sendIceCandidate] never throws and never changes the service.
    Without a registered device it does nothing.  The candidate goes out
    on the socket exactly when a device is registered, the request that
    posts it did not throw, the socket is connected and the call record
    named the peer's device: the status of the post is not looked at, so
    a candidate the relay refused is still emitted. *)
Theorem sendIceCandidate_never_fails (env : IceSendEnv) (callId : string)
  (from : Role) (candidate : IceCandidate) (s : Service) :
  exists t,
    sendIceCandidate env callId from candidate s = (Normal tt, s, t) /\
    (truthy_str (currentDeviceId s) = false -> t = []) /\
    (existsb isSocketEmitIceCandidate t = true <->
     truthy_str (currentDeviceId s) = true /\
     (exists ok status, ice_post env = PostStatus ok status) /\
     socket s = Some true /\
     truthy_str (peerDeviceOf from (ice_info env)) = true).
Proof.
  unfold sendIceCandidate. unfold bindX at 1. unfold getX at 1.
  destruct (currentDeviceId s) as [d|] eqn:Hd.
  2:{ eexists. split; [reflexivity|]. split; [reflexivity|].
      cbn. split; [discriminate|]. intros [H _]. discriminate H. }
  destruct (truthy_str (Some d)) eqn:Ht; cbn [negb].
  2:{ eexists. split; [reflexivity|]. split; [reflexivity|].
      cbn [existsb]. split; [discriminate|]. intros [H _]. discriminate H. }
  destruct env as [info post emitErr].
  cbn [ice_info ice_post ice_emitError].
  assert (Hinfo :
    try_catchX
      (bindX (emitX (Core (RelayPoll callId)))
         (fun _ => match info with
                   | PeersThrows e => throwX e
                   | PeersNotOk _ => retX None
                   | PeersJson peers =>
                       retX (match from with
                             | role_caller => cp_toDeviceId peers
                             | role_callee => cp_fromDeviceId peers
                             end)
                   end))
      (fun _ => retX None) s
    = (Normal (peerDeviceOf from info), s, [Core (RelayPoll callId)])).
  { destruct info; reflexivity. }
  unfold try_catchX at 1. unfold bindX at 1. rewrite Hinfo.
  unfold bindX at 1. unfold emitX at 1.
  destruct post as [e|ok status].
  - eexists. split; [reflexivity|]. split; [discriminate|].
    cbn. split; [discriminate|]. intros (_ & (ok & st & H) & _). discriminate H.
  - unfold bindX at 1. unfold getX at 1.
    destruct (socket s) as [[]|] eqn:Hs.
    + destruct (truthy_str (peerDeviceOf from info)) eqn:Hp.
      * destruct (peerDeviceOf from info) as [toDev|]; [|discriminate Hp].
        destruct emitErr; (eexists; split; [reflexivity|]);
          (split; [discriminate|]); cbn;
          (split; [intros _; repeat split; eauto|reflexivity]).
      * eexists. split; [reflexivity|]. split; [discriminate|]. cbn.
        split; [discriminate|]. intros (_ & _ & _ & H). discriminate H.
    + eexists. split; [reflexivity|]. split; [discriminate|]. cbn.
      split; [discriminate|]. intros (_ & _ & H & _). discriminate H.
    + eexists. split; [reflexivity|]. split; [discriminate|]. cbn.
      split; [discriminate|]. intros (_ & _ & H & _). discriminate H.
Qed.

(** The relay answers the post of a candidate with an error; the
    candidate is emitted on the socket all the same. *)
Example candidate_emitted_after_refused_post :
  sendIceCandidate iceEnvPostRefused "call-A" role_caller "candidate:1"
    awaitingAnswer
  = (Normal tt, awaitingAnswer,
     [Core (RelayPoll "call-A");
      RelayCandidate "call-A" role_caller "candidate:1" "dev-1";
      SocketEmitIceCandidate "call-A" "candidate:1" "dev-1" "dev-2"]).
Proof. reflexivity. Qed.

(* ================================================================== *)
(** ** Answering a call *)

Section AnswerCall.
Context (E : Engine).

Lemma sendAnswerToBackend_posts (env : SendEnv) (callId : string)
  (answer : SessionDescription) (s : Service) :
  succeeds postsAnswer (sendAnswerToBackend env callId answer s).
Proof.
  intros u s' t.
  destruct (currentDeviceId s) as [d|] eqn:Hd.
  - destruct (String.eqb_spec d "") as [->|Hne].
    + unfold sendAnswerToBackend, bindX, getX. rewrite Hd. discriminate.
    + rewrite (sendAnswerToBackend_run env callId d answer s Hd Hne).
      destruct (send_post env) as [e|[] st]; try discriminate.
      intros H. inversion H; subst. reflexivity.
  - unfold sendAnswerToBackend, bindX, getX. rewrite Hd. discriminate.
Qed.

(** The end of [answerCall] after the answer has been sent. *)
Lemma answerCall_tail (now : Z) (s : Service) :
  bindX (modifyX (set_currentCallState answered))
    (fun _ =>
       bindX (bindX getX (fun s3 =>
                lift (callOnCallStateChange (currentCallState s3)
                                            (callerName s3))))
         (fun _ =>
            bindX (modifyX (set_activeCallStartedAt (Some now)))
              (fun _ =>
                 bindX getX (fun s3 =>
                   lift (callOnCallActiveChange true
                                                (activeCallStartedAt s3)))))) s
  = (Normal tt,
     set_activeCallStartedAt (Some now) (set_currentCallState answered s),
     answeredCallbacks
       (set_activeCallStartedAt (Some now) (set_currentCallState answered s))).
Proof.
  destruct s as [? ? ? ? ? ? ? ? ? ? ? ? ? ? [] []]; reflexivity.
Qed.

(** [answerCall] returns normally only after the answer was posted to
    the relay, and then the call is [answered], its timer starts at
    [now], and the callbacks for this come last. *)
Theorem answerCall_success (env : AnswerEnv) (now : Z) (callUUID : string)
  (s s' : Service) (t : list Action) :
  answerCall E env now callUUID s = (Normal tt, s', t) ->
  answeredAt now s' t.
Proof.
  revert s'. revert t.
  enough (H : succeeds (answeredAt now) (answerCall E env now callUUID s)).
  { intros t s' Hrun. exact (H tt s' t Hrun). }
  unfold answerCall. intros u s' t. unfold try_catchX.
  match goal with |- context [match ?b s with _ => _ end] =>
    assert (Hb : succeeds (answeredAt now) (b s)) end.
  { apply succeeds_bind; [apply answeredAt_ext|]. intros _ s0. cbv beta.
    apply succeeds_bind; [apply answeredAt_ext|]. intros s1 s1'. cbv beta.
    destruct (pc s1) as [p|]; [|apply succeeds_throw].
    apply succeeds_bind; [apply answeredAt_ext|]. intros _ s2'. cbv beta.
    apply succeeds_bind; [apply answeredAt_ext|]. intros s2 s2''. cbv beta.
    destruct (pc s2) as [p2|].
    - intros u' s3 t3. unfold bindX at 1.
      match goal with |- context [match ?m s2'' with _ => _ end] =>
        assert (Hm : succeeds postsAnswer (m s2''));
        [|destruct (m s2'') as [[[a|e] s4] t4]; [|discriminate]] end.
      + destruct (localDescription p2).
        * apply sendAnswerToBackend_posts.
        * destruct (negb (truthy_obj (remoteDescription p2)));
            [apply succeeds_throw|].
          apply succeeds_bind; [apply postsAnswer_ext|]. intros _ s5. cbv beta.
          destruct (ae_answer env); [|apply succeeds_throw].
          apply succeeds_bind; [apply postsAnswer_ext|]. intros _ s6. cbv beta.
          destruct (ae_setLocalError env); [apply succeeds_throw|].
          apply succeeds_bind; [apply postsAnswer_ext|]. intros _ s7. cbv beta.
          apply sendAnswerToBackend_posts.
      + rewrite answerCall_tail. intros H. inversion H; subst.
        repeat split; try (destruct s4; reflexivity).
        exists t4. split; [reflexivity|]. exact (Hm a s4 t4 eq_refl).
    - intros u' s3 t3. unfold lift, nullDereference, throw. discriminate. }
  match goal with |- context [match ?b s with _ => _ end] =>
    destruct (b s) as [[[a|e] s1] t1] end.
  - intros H. exact (Hb _ _ _ H).
  - unfold bindX, modifyX, getX, lift, callOnCallStateChange, bind, get, throwX.
    cbn. destruct (onCallStateChange s1); discriminate.
Qed.
(** Whatever makes [answerCall] fail, the service ends [idle] and the
    last thing done is to tell the page so, with no caller name; the
    error is thrown on. *)
Theorem answerCall_failure (env : AnswerEnv) (now : Z) (callUUID : string)
  (s s' : Service) (e : JsError) (t : list Action) :
  answerCall E env now callUUID s = (Throw e, s', t) ->
  currentCallState s' = idle /\
  exists l, t = l ++ map Core (cbState s' idle None).
Proof.
  unfold answerCall, try_catchX.
  match goal with |- context [match ?b s with _ => _ end] =>
    destruct (b s) as [[[a|e1] s1] t1] end; [discriminate|].
  unfold bindX, modifyX, getX, lift, callOnCallStateChange, bind, get, throwX,
    cbState.
  cbn. destruct s1 as [? ? ? ? ? ? ? ? ? ? ? ? ? ? [] ?]; cbn;
    intros H; inversion H; subst; cbn; split; auto; eexists; reflexivity.
Qed.

(** The offer cannot be had: for a call that is not the one set up,
    [answerCall] asks the relay once and fails; the only change is that
    the state is [idle], also when another call is connected. *)
Theorem answerCall_without_offer (env : AnswerEnv) (now : Z)
  (callUUID : string) (s : Service) :
  truthy_obj (pc s) && strict_eq (activeCallUUID s) callUUID = false ->
  (forall status,
      ae_fetchOffer env = InfoNotOk status ->
      answerCall E env now callUUID s
      = (Throw (Error ("Failed to fetch call offer: " ++ status)%string),
         set_currentCallState idle s,
         Core (RelayPoll callUUID) :: map Core (cbState s idle None))) /\
  (forall info,
      ae_fetchOffer env = InfoJson info ->
      match ci_offer info with
      | Some o => truthy_str (sd_sdp o)
      | None => false
      end = false ->
      answerCall E env now callUUID s
      = (Throw (Error "No remote offer found for this call"),
         set_currentCallState idle s,
         Core (RelayPoll callUUID) :: map Core (cbState s idle None))).
Proof.
  intros Hno.
  assert (Hc : negb (truthy_obj (pc s))
               || negb (strict_eq (activeCallUUID s) callUUID) = true).
  { rewrite <- negb_andb, Hno. reflexivity. }
  split.
  - intros status Hf. unfold answerCall, try_catchX.
    unfold bindX at 1. unfold bindX at 1. unfold getX at 1.
    rewrite Hc, Hf. unfold bindX at 1. unfold emitX at 1. unfold throwX at 1.
    unfold bindX, modifyX, getX, lift, callOnCallStateChange, bind, get, throwX,
      cbState.
    destruct s as [? ? ? ? ? ? ? ? ? ? ? ? ? ? [] ?]; reflexivity.
  - intros info Hf Hoffer. unfold answerCall, try_catchX.
    unfold bindX at 1. unfold bindX at 1. unfold getX at 1.
    rewrite Hc, Hf.
    destruct (ci_offer info) as [o|]; [rewrite Hoffer|];
      unfold bindX at 1; unfold emitX at 1; unfold throwX at 1;
      unfold bindX, modifyX, getX, lift, callOnCallStateChange, bind, get,
        throwX, cbState;
      destruct s as [? ? ? ? ? ? ? ? ? ? ? ? ? ? [] ?]; reflexivity.
Qed.

(** A ringing call whose answer the relay refuses: [answerCall] has
    created the answer and set it as local description before it fails,
    and the failure releases nothing; the connection and the microphone
    stay while the state is [idle].  Answering again then creates no
    second answer: the same answer is posted again, and the call is
    [answered]. *)
Theorem answerCall_retry_resends (env1 env2 : AnswerEnv) (now1 now2 : Z)
  (callUUID deviceId status1 status2 : string) (s : Service)
  (p : PeerConnection) (rd a : SessionDescription) :
  pc s = Some p ->
  remoteDescription p = Some rd ->
  localDescription p = None ->
  activeCallUUID s = Some callUUID ->
  currentDeviceId s = Some deviceId ->
  deviceId <> "" ->
  ae_answer env1 = Normal a ->
  sd_type a = sdp_answer ->
  ae_setLocalError env1 = None ->
  send_post (ae_send env1) = PostStatus false status1 ->
  send_post (ae_send env2) = PostStatus true status2 ->
  let '(r1, s1, t1) := answerCall E env1 now1 callUUID s in
  let '(r2, s2, t2) := answerCall E env2 now2 callUUID s1 in
  r1 = Throw (Error ("Failed to send answer: " ++ status1 ++ " - "
                     ++ send_errorText (ae_send env1))%string) /\
  s1 = set_currentCallState idle
         (set_pc (Some (mkPC (pc_id p) stable (Some rd) (Some a))) s) /\
  filter isCreateAnswer t1 = [EngineCreateAnswer (pc_id p)] /\
  existsb isReleaseAction t1 = false /\
  r2 = Normal tt /\
  filter isCreateAnswer t2 = [] /\
  filter isRelayAnswer t2 = [RelayAnswer callUUID deviceId a] /\
  currentCallState s2 = answered /\
  activeCallStartedAt s2 = Some now2.
Proof.
  intros Hpc Hrd Hld Hact Hdev Hne Hans Hty Hsl Hp1 Hp2.
  assert (Heq : strict_eq (Some callUUID) callUUID = true)
    by (cbn; apply String.eqb_refl).
  (* first attempt *)
  assert (H1 : answerCall E env1 now1 callUUID s
    = (Throw (Error ("Failed to send answer: " ++ status1 ++ " - "
                     ++ send_errorText (ae_send env1))%string),
       set_currentCallState idle
         (set_pc (Some (mkPC (pc_id p) stable (Some rd) (Some a))) s),
       [EngineCreateAnswer (pc_id p);
        Core (EngineSetLocalDescription (pc_id p) a);
        Core (RelayPoll callUUID); RelayAnswer callUUID deviceId a]
       ++ map Core (cbState s idle None))).
  { unfold answerCall, try_catchX.
    unfold bindX at 1. unfold bindX at 1. unfold getX at 1.
    rewrite Hpc, Hact, Heq. cbn [truthy_obj negb orb]. unfold retX at 1.
    unfold bindX at 1. unfold getX at 1. rewrite Hpc.
    unfold bindX at 1. rewrite Hrd. cbn [truthy_obj negb]. unfold retX at 1.
    unfold bindX at 1. unfold getX at 1. rewrite Hpc, Hld, Hrd.
    cbn [truthy_obj negb].
    unfold bindX at 1. unfold bindX at 1. unfold emitX at 1.
    rewrite Hans. unfold bindX at 1. unfold emitX at 1. rewrite Hsl.
    unfold bindX at 1. unfold modifyX at 1.
    unfold applyLocalDescription. rewrite Hty, Hrd.
    rewrite (sendAnswerToBackend_run (ae_send env1) callUUID deviceId a
               (set_pc (Some (mkPC (pc_id p) stable (Some rd) (Some a))) s));
      [|destruct s; exact Hdev|exact Hne].
    rewrite Hp1.
    unfold bindX, modifyX, getX, lift, callOnCallStateChange, bind, get, throwX,
      cbState.
    destruct s as [? ? ? ? ? ? ? ? ? ? ? ? ? ? [] ?]; reflexivity. }
  rewrite H1.
  set (s1 := set_currentCallState idle _).
  assert (Hpc1 : pc s1 = Some (mkPC (pc_id p) stable (Some rd) (Some a)))
    by (destruct s; reflexivity).
  assert (Hact1 : activeCallUUID s1 = Some callUUID)
    by (destruct s; exact Hact).
  assert (Hdev1 : currentDeviceId s1 = Some deviceId)
    by (destruct s; exact Hdev).
  assert (H2 : exists s2 t2,
    answerCall E env2 now2 callUUID s1 = (Normal tt, s2, t2) /\
    filter isCreateAnswer t2 = [] /\
    filter isRelayAnswer t2 = [RelayAnswer callUUID deviceId a] /\
    currentCallState s2 = answered /\ activeCallStartedAt s2 = Some now2).
  { unfold answerCall, try_catchX.
    unfold bindX at 1. unfold bindX at 1. unfold getX at 1.
    rewrite Hpc1, Hact1, Heq. cbn [truthy_obj negb orb]. unfold retX at 1.
    unfold bindX at 1. unfold getX at 1. rewrite Hpc1.
    unfold bindX at 1. cbn [remoteDescription truthy_obj negb].
    unfold retX at 1.
    unfold bindX at 1. unfold getX at 1. rewrite Hpc1.
    cbn [localDescription].
    unfold bindX at 1.
    rewrite (sendAnswerToBackend_run (ae_send env2) callUUID deviceId a s1
               Hdev1 Hne), Hp2.
    rewrite answerCall_tail.
    do 2 eexists. split; [reflexivity|].
    repeat match goal with |- _ /\ _ => split end.
    - cbn [app filter isCreateAnswer]. rewrite !filter_app.
      unfold socketEffects, answeredCallbacks, cbState, cbActive.
      destruct (socket s1) as [[]|]; destruct (callerDeviceOf (send_info (ae_send env2)));
        destruct (onCallStateChange _); destruct (onCallActiveChange _);
        reflexivity.
    - cbn [app filter isRelayAnswer]. rewrite !filter_app.
      unfold socketEffects, answeredCallbacks, cbState, cbActive.
      destruct (socket s1) as [[]|]; destruct (callerDeviceOf (send_info (ae_send env2)));
        destruct (onCallStateChange _); destruct (onCallActiveChange _);
        reflexivity.
    - destruct (socketEnsured s1); reflexivity.
    - destruct (socketEnsured s1); reflexivity. }
  destruct H2 as (s2 & t2 & Hrun2 & Hc & Hr & Hst & Htm).
  rewrite Hrun2.
  repeat match goal with |- _ /\ _ => split end; auto.
  - cbn [app filter isCreateAnswer].
    unfold cbState. destruct (onCallStateChange s); reflexivity.
  - unfold cbState. destruct (onCallStateChange s); reflexivity.
Qed.

End AnswerCall.

Lemma answerCall_success_witness :
  answeredAt 7000
    (snd (fst (answerCall jsepEngine answerEnvOk 7000 "call-A" ringingInbound)))
    (snd (answerCall jsepEngine answerEnvOk 7000 "call-A" ringingInbound)).
Proof.
  apply (answerCall_success jsepEngine answerEnvOk 7000 "call-A"
           ringingInbound).
  reflexivity.
Defined.

Lemma answerCall_failure_witness :
  currentCallState
    (snd (fst (answerCall jsepEngine answerEnvRefused 7000 "call-A"
                 ringingInbound))) = idle /\
  exists l,
    snd (answerCall jsepEngine answerEnvRefused 7000 "call-A" ringingInbound)
    = l ++ map Core
             (cbState
                (snd (fst (answerCall jsepEngine answerEnvRefused 7000 "call-A"
                             ringingInbound))) idle None).
Proof.
  apply (answerCall_failure jsepEngine answerEnvRefused 7000 "call-A"
           ringingInbound _
           (Error "Failed to send answer: 409 - call is over")).
  reflexivity.
Defined.

(** While ["call-A"] is answered, answering a call the relay does not
    know marks the service [idle]. *)
Lemma answerCall_without_offer_witness :
  answerCall jsepEngine answerEnvNoCall 7000 "call-B" answeredCall
  = (Throw (Error "Failed to fetch call offer: 404"),
     set_currentCallState idle answeredCall,
     [Core (RelayPoll "call-B"); Core (CbCallStateChange idle None)]).
Proof.
  exact (proj1 (answerCall_without_offer jsepEngine answerEnvNoCall 7000
                  "call-B" answeredCall eq_refl)
               "404" eq_refl).
Defined.

Lemma answerCall_retry_resends_witness :
  let '(r1, s1, t1) :=
    answerCall jsepEngine answerEnvRefused 7000 "call-A" ringingInbound in
  let '(r2, s2, t2) := answerCall jsepEngine answerEnvOk 8000 "call-A" s1 in
  r1 = Throw (Error "Failed to send answer: 409 - call is over") /\
  s1 = set_currentCallState idle
         (set_pc (Some (mkPC 1 stable (Some sampleOffer) (Some sampleAnswer)))
                 ringingInbound) /\
  filter isCreateAnswer t1 = [EngineCreateAnswer 1] /\
  existsb isReleaseAction t1 = false /\
  r2 = Normal tt /\
  filter isCreateAnswer t2 = [] /\
  filter isRelayAnswer t2 = [RelayAnswer "call-A" "dev-1" sampleAnswer] /\
  currentCallState s2 = answered /\
  activeCallStartedAt s2 = Some 8000.
Proof.
  exact (answerCall_retry_resends jsepEngine answerEnvRefused answerEnvOk
           7000 8000 "call-A" "dev-1" "409" "200" ringingInbound
           (mkPC 1 have_remote_offer (Some sampleOffer) None)
           sampleOffer sampleAnswer
           eq_refl eq_refl eq_refl eq_refl eq_refl ltac:(discriminate)
           eq_refl eq_refl eq_refl eq_refl eq_refl).
Defined.

(* ================================================================== *)
(** ** Display helpers *)

Lemma truthy_text (o : option string) : truthy_str o = true -> text o <> "".
Proof.
  destruct o as [x|]; [|discriminate]. cbn. intros H.
  apply negb_true_iff in H. now apply String.eqb_neq.
Qed.

Lemma append_nonempty_l (a b : string) : a <> "" -> (a ++ b)%string <> "".
Proof. destruct a; [congruence|discriminate]. Qed.

(** The display name is never the empty string.  Without a name, a
    first or last name alone is shown as it is, with no space added, and
    both are shown with one space between. *)
Theorem getUserDisplayName_never_empty (user : UserNames) :
  getUserDisplayName user <> "" /\
  (truthy_str (un_name user) = false ->
   (truthy_str (un_fName user) = true -> truthy_str (un_lName user) = false ->
    getUserDisplayName user = text (un_fName user)) /\
   (truthy_str (un_fName user) = false -> truthy_str (un_lName user) = true ->
    getUserDisplayName user = text (un_lName user)) /\
   (truthy_str (un_fName user) = true -> truthy_str (un_lName user) = true ->
    getUserDisplayName user
    = (text (un_fName user) ++ " " ++ text (un_lName user))%string)).
Proof.
  unfold getUserDisplayName, filterBoolean. split.
  - destruct (truthy_str (un_name user)) eqn:Hn; [now apply truthy_text|].
    destruct (truthy_str (un_fName user)) eqn:Hf;
      destruct (truthy_str (un_lName user)) eqn:Hl; cbn [orb filter].
    + rewrite Hf, Hl. cbn [map String.concat].
      apply append_nonempty_l. now apply truthy_text.
    + rewrite Hf, Hl. cbn [map String.concat]. now apply truthy_text.
    + rewrite Hf, Hl. cbn [map String.concat]. now apply truthy_text.
    + destruct (truthy_str (un_email user)) eqn:He; [now apply truthy_text|].
      destruct (truthy_str (un_phone user)) eqn:Hp; [now apply truthy_text|].
      discriminate.
  - intros Hn. rewrite Hn. repeat split; intros Hf Hl; cbn [filter];
      rewrite Hf, Hl; reflexivity.
Qed.

Lemma getUserDisplayName_never_empty_witness :
  getUserDisplayName
    (mkUserNames None (Some "Ada") (Some "") None (Some "555") "L-1")
  = "Ada".
Proof.
  exact (proj1 (proj2 (getUserDisplayName_never_empty
                         (mkUserNames None (Some "Ada") (Some "") None
                                      (Some "555") "L-1"))
                      eq_refl)
               eq_refl eq_refl).
Defined.

Lemma formatCallTime_check :
  forallb (fun n => match readCallTime (formatCallTime (Z.of_nat n)) with
                    | Some t => t =? Z.of_nat n
                    | None => false
                    end)
          (seq 0 (Z.to_nat 6000)) = true.
Proof. vm_compute. reflexivity. Qed.

(** For less than a hundred minutes the time is shown as two digits, a
    colon and two digits, and the seconds can be read back from it. *)
Theorem formatCallTime_round_trip (totalSeconds : Z) :
  0 <= totalSeconds < 6000 ->
  String.length (formatCallTime totalSeconds) = 5%nat /\
  readCallTime (formatCallTime totalSeconds) = Some totalSeconds.
Proof.
  intros Hr.
  pose proof (proj1 (forallb_forall _ _) formatCallTime_check
                (Z.to_nat totalSeconds)) as H.
  assert (Hin : In (Z.to_nat totalSeconds) (seq 0 (Z.to_nat 6000))).
  { apply in_seq. lia. }
  specialize (H Hin). cbv beta in H.
  rewrite Z2Nat.id in H by lia.
  destruct (readCallTime (formatCallTime totalSeconds)) as [t|] eqn:Hread;
    [|discriminate].
  apply Z.eqb_eq in H. subst t. split; [|reflexivity].
  unfold readCallTime in Hread.
  destruct (formatCallTime totalSeconds) as [|a [|b [|c0 [|c [|d [|]]]]]];
    try discriminate; reflexivity.
Qed.

Lemma formatCallTime_round_trip_witness :
  String.length (formatCallTime 125) = 5%nat /\
  readCallTime (formatCallTime 125) = Some 125.
Proof. apply (formatCallTime_round_trip 125). lia. Defined.

(* ================================================================== *)
(** ** The server check *)

Lemma checkUrl_settled (probe : string -> ProbeOutcome) (url : string) :
  ss_url (checkUrl probe url) = url /\ settledStatus (checkUrl probe url).
Proof.
  unfold checkUrl, settledStatus.
  destruct (probe url) as [|[] lat]; cbn; destruct (String.prefix "stun:" url);
    repeat split; intros; try discriminate; try congruence; auto.
Qed.

Lemma checkUrls_spec (probe : string -> ProbeOutcome) (urls : list string) :
  forall results,
    checkUrls probe urls results = results ++ map (checkUrl probe) urls.
Proof.
  induction urls as [|u rest IH]; intros results; cbn.
  - now rewrite app_nil_r.
  - rewrite IH, <- app_assoc. reflexivity.
Qed.

(** [checkServerStatus] returns one status for each url of the server,
    in their order; none is left [checking]; a latency is reported
    exactly for the available ones; a url counts as a STUN server
    exactly when it starts with [stun:].  The configured servers give
    two statuses. *)
Theorem checkServerStatus_settles_every_url (probe : string -> ProbeOutcome)
  (server : Urls) :
  map ss_url (checkServerStatus probe server)
  = match server with OneUrl u => [u] | ManyUrls us => us end /\
  Forall settledStatus (checkServerStatus probe server) /\
  map ss_url (checkAllServersStatus probe)
  = ["stun:109.205.58.195:3478"; "turn:109.205.58.195:3478?transport=udp"] /\
  map ss_type (checkAllServersStatus probe) = [stun; turn].
Proof.
  unfold checkServerStatus. rewrite checkUrls_spec. cbn [app].
  set (urls := match server with OneUrl u => [u] | ManyUrls us => us end).
  repeat match goal with |- _ /\ _ => split end.
  - rewrite map_map. induction urls as [|u rest IH]; cbn; [reflexivity|].
    now rewrite (proj1 (checkUrl_settled probe u)), IH.
  - apply Forall_forall. intros st Hin. apply in_map_iff in Hin.
    destruct Hin as (u & <- & _). apply checkUrl_settled.
  - unfold checkAllServersStatus, getIceServers, checkServers,
      checkServerStatus, checkUrls. cbn [app map].
    now rewrite !(proj1 (checkUrl_settled probe _)).
  - unfold checkAllServersStatus, getIceServers, checkServers,
      checkServerStatus, checkUrls. cbn [app map].
    unfold checkUrl.
    destruct (probe "stun:109.205.58.195:3478") as [|[] ?];
      destruct (probe "turn:109.205.58.195:3478?transport=udp") as [|[] ?];
      reflexivity.
Qed.
